(** * The write tool of the Cerebras code MCP server (mcp-server-sdk.js)

    A shallow embedding of the server's response sanitizer, diff synthesizer,
    path handling, provider failover and request handler, with the properties
    of its specification stated and settled against it.

    Conventions of the embedding.
    - A JavaScript string is the list of its UTF-16 code units.
    - A value that may be [null] or [undefined] is an [option].
    - The regular expressions of the source are terms of a small syntax,
      run by a backtracking matcher that lists the ways to match in the
      order the ECMAScript matcher tries them.
    - Code that awaits the file system or a provider is a tree of effects
      ([Prog]); [throw], [try]/[catch] and [await] are operations on trees.
    - Diagnostics written with [console.error] are not modelled. *)

From Stdlib Require Import List NArith Bool Ascii Lia Arith.
From Stdlib Require String.
Import String.StringSyntax.
From Stdlib Require Import DecimalN DecimalPos.
Import ListNotations.

Open Scope N_scope.
Open Scope list_scope.

(** ** JavaScript strings *)

Module JS.

Definition char := N.
Definition jsstring := list char.

(** A string literal of the source, with its escapes for newline, tab and
    backslash read as JavaScript reads them.  Used on ASCII literals only. *)
Fixpoint lit (s : String.string) : jsstring :=
  match s with
  | String.EmptyString => []
  | String.String "\"%char (String.String "n"%char r) => 10 :: lit r
  | String.String "\"%char (String.String "t"%char r) => 9 :: lit r
  | String.String "\"%char (String.String "\"%char r) => 92 :: lit r
  | String.String c r => N_of_ascii c :: lit r
  end.

Arguments lit s%_string_scope.

Definition eqb (a b : jsstring) : bool :=
  if list_eq_dec N.eq_dec a b then true else false.

(** [!v] is false exactly for a non-empty string. *)
Definition truthy (v : option jsstring) : bool :=
  match v with
  | Some (_ :: _) => true
  | _ => false
  end.

Fixpoint startsWith (p s : jsstring) : bool :=
  match p, s with
  | [], _ => true
  | a :: p', b :: s' => (a =? b) && startsWith p' s'
  | _ :: _, [] => false
  end.

(** [s.includes(p)] *)
Fixpoint includes (p s : jsstring) : bool :=
  startsWith p s ||
  match s with
  | [] => false
  | _ :: r => includes p r
  end.

(** WhiteSpace and LineTerminator code points, as [String.prototype.trim]
    strips them. *)
Definition isWhiteSpace (c : char) : bool :=
  (c =? 9) || (c =? 10) || (c =? 11) || (c =? 12) || (c =? 13) || (c =? 32)
  || (c =? 160) || (c =? 5760) || ((8192 <=? c) && (c <=? 8202))
  || (c =? 8232) || (c =? 8233) || (c =? 8239) || (c =? 8287)
  || (c =? 12288) || (c =? 65279).

Fixpoint trimStart (s : jsstring) : jsstring :=
  match s with
  | [] => []
  | c :: r => if isWhiteSpace c then trimStart r else s
  end.

Definition trimEnd (s : jsstring) : jsstring := rev (trimStart (rev s)).

Definition trim (s : jsstring) : jsstring := trimEnd (trimStart s).

(** [s.split(sep)] for a separator of one code unit: never empty. *)
Fixpoint split (sep : char) (s : jsstring) : list jsstring :=
  match s with
  | [] => [[]]
  | c :: r =>
      if c =? sep then [] :: split sep r
      else match split sep r with
           | l :: ls => (c :: l) :: ls
           | [] => [[c]]
           end
  end.

(** [a.join(sep)] *)
Fixpoint join (sep : jsstring) (l : list jsstring) : jsstring :=
  match l with
  | [] => []
  | [x] => x
  | x :: r => x ++ sep ++ join sep r
  end.

Definition NL : char := 10.

(** Number to string, for the non-negative integers below 2^53 that the
    program prints (line counts, line numbers, status codes). *)
Fixpoint digitsOfUint (d : Decimal.uint) : jsstring :=
  match d with
  | Decimal.Nil => []
  | Decimal.D0 r => 48 :: digitsOfUint r
  | Decimal.D1 r => 49 :: digitsOfUint r
  | Decimal.D2 r => 50 :: digitsOfUint r
  | Decimal.D3 r => 51 :: digitsOfUint r
  | Decimal.D4 r => 52 :: digitsOfUint r
  | Decimal.D5 r => 53 :: digitsOfUint r
  | Decimal.D6 r => 54 :: digitsOfUint r
  | Decimal.D7 r => 55 :: digitsOfUint r
  | Decimal.D8 r => 56 :: digitsOfUint r
  | Decimal.D9 r => 57 :: digitsOfUint r
  end.

Definition toString (n : N) : jsstring := digitsOfUint (N.to_uint n).

Definition isDigit (c : char) : bool := (48 <=? c) && (c <=? 57).

(** [parseInt] on a run of decimal digits (all the program applies it to). *)
Definition parseStep (acc : N) (c : char) : N := 10 * acc + (c - 48).

Definition parseInt (s : jsstring) : N := fold_left parseStep s 0.

(** The largest integer up to which additions on JavaScript numbers are
    exact; the model computes in [N] and is the program's arithmetic only
    within this bound. *)
Definition MAX_SAFE_INTEGER : N := 2 ^ 53 - 1.

Definition isAsciiLetter (c : char) : bool :=
  ((65 <=? c) && (c <=? 90)) || ((97 <=? c) && (c <=? 122)).

(** [toLowerCase], exact on ASCII; other code units are kept as they are. *)
Definition toLowerCase (s : jsstring) : jsstring :=
  map (fun c => if (65 <=? c) && (c <=? 90) then c + 32 else c) s.

(** The replacement text of [s.replace(pattern, replacement)] for a string
    pattern (no capture groups): [$$], [$&], [$`] and [$'] are expanded. *)
Fixpoint getSubstitution (matched before after replacement : jsstring) : jsstring :=
  match replacement with
  | [] => []
  | 36 :: 36 :: r => 36 :: getSubstitution matched before after r
  | 36 :: 38 :: r => matched ++ getSubstitution matched before after r
  | 36 :: 96 :: r => before ++ getSubstitution matched before after r
  | 36 :: 39 :: r => after ++ getSubstitution matched before after r
  | c :: r => c :: getSubstitution matched before after r
  end.

(** [s.replace(pattern, replacement)] for a string pattern: the first
    occurrence is replaced.  [before] is what was passed over so far. *)
Fixpoint replaceString (pattern replacement before s : jsstring) : jsstring :=
  if startsWith pattern s then
    let after := skipn (length pattern) s in
    before ++ getSubstitution pattern before after replacement ++ after
  else
    match s with
    | [] => before
    | c :: r => replaceString pattern replacement (before ++ [c]) r
    end.

End JS.

Import JS.

(** ** Regular expressions

    The fragment of ECMAScript regular expressions the program uses.
    [attempts r s] lists every way [r] can match a prefix of [s], in the order
    the backtracking matcher tries them: each entry gives the capture groups
    it set (in the order of their opening parentheses, [None] for a group
    that took no part) and the input left over.  The first entry is the
    match the engine reports. *)

Module Regex.

Inductive regex : Type :=
| Lit (l : jsstring)                      (* the characters of l *)
| Star (greedy : bool) (p : char -> bool) (* [class]* and [class]*? *)
| Plus (p : char -> bool)                 (* [class]+ *)
| Opt (r : regex)                         (* r? *)
| Group (r : regex)                       (* ( r ) *)
| Seq (r1 r2 : regex)
| Eol.                                    (* $ without the m flag *)

Definition captures := list (option jsstring).

Fixpoint ngroups (r : regex) : nat :=
  match r with
  | Group r => S (ngroups r)
  | Opt r => ngroups r
  | Seq r1 r2 => (ngroups r1 + ngroups r2)%nat
  | _ => 0%nat
  end.

(** What is left after each run of class characters, longest run first. *)
Fixpoint starGreedy (p : char -> bool) (s : jsstring) : list jsstring :=
  match s with
  | [] => [[]]
  | c :: r => if p c then starGreedy p r ++ [s] else [s]
  end.

(** The same, shortest run first. *)
Fixpoint starLazy (p : char -> bool) (s : jsstring) : list jsstring :=
  match s with
  | [] => [[]]
  | c :: r => if p c then s :: starLazy p r else [s]
  end.

Definition consumed (s rest : jsstring) : jsstring :=
  firstn (length s - length rest) s.

Fixpoint attempts (r : regex) (s : jsstring) : list (captures * jsstring) :=
  match r with
  | Lit l => if startsWith l s then [([], skipn (length l) s)] else []
  | Star true p => map (fun rest => ([], rest)) (starGreedy p s)
  | Star false p => map (fun rest => ([], rest)) (starLazy p s)
  | Plus p =>
      match s with
      | c :: s' => if p c then map (fun rest => ([], rest)) (starGreedy p s') else []
      | [] => []
      end
  | Opt r => attempts r s ++ [(repeat None (ngroups r), s)]
  | Group r => map (fun '(caps, rest) => (Some (consumed s rest) :: caps, rest)) (attempts r s)
  | Seq r1 r2 =>
      flat_map (fun '(c1, s1) => map (fun '(c2, s2) => (c1 ++ c2, s2)) (attempts r2 s1))
               (attempts r1 s)
  | Eol => match s with [] => [([], [])] | _ => [] end
  end.

(** The match at the current position, if there is one. *)
Definition matchHere (r : regex) (s : jsstring) : option (captures * jsstring) :=
  hd_error (attempts r s).

(** A line terminator, after which [^] matches under the m flag. *)
Definition isLineTerminator (c : char) : bool :=
  (c =? 10) || (c =? 13) || (c =? 8232) || (c =? 8233).

(** Where a pattern may start: anywhere, at the start of the input only
    ([^]), or at the start of any line ([^] with the m flag). *)
Inductive anchor := Anywhere | AtStart | AtLineStart.

Definition mayStart (a : anchor) (prev : option char) : bool :=
  match a, prev with
  | Anywhere, _ => true
  | _, None => true
  | AtStart, Some _ => false
  | AtLineStart, Some c => isLineTerminator c
  end.

Definition matchAt (a : anchor) (r : regex) (prev : option char) (s : jsstring)
  : option (captures * jsstring) :=
  if mayStart a prev then matchHere r s else None.

(** [re.test(s)] and the truth of [s.match(re)] for a pattern without the
    g flag: the leftmost match, if any. *)
Fixpoint searchFrom (a : anchor) (r : regex) (prev : option char) (s : jsstring)
  : option (jsstring * captures * jsstring) :=
  match matchAt a r prev s with
  | Some (caps, rest) => Some (consumed s rest, caps, rest)
  | None =>
      match s with
      | [] => None
      | c :: s' => searchFrom a r (Some c) s'
      end
  end.

Definition test (a : anchor) (r : regex) (s : jsstring) : bool :=
  match searchFrom a r None s with Some _ => true | None => false end.

(** The successive matches of a pattern with the g flag, as a loop over
    [re.exec(s)] or a global [replace] visits them: after a match the search
    resumes where it ended.  [skip] counts the code units of the last match
    still to pass over.  The captures of each match are collected.  (The
    one pattern the program loops over with [exec] never matches the empty
    string, on which such a loop would not advance.) *)
Fixpoint execAll (a : anchor) (r : regex) (prev : option char) (skip : nat)
                 (s : jsstring) : list captures :=
  match skip with
  | S k =>
      match s with
      | [] => []
      | c :: s' => execAll a r (Some c) k s'
      end
  | O =>
      match matchAt a r prev s with
      | Some (caps, rest) =>
          caps ::
          match s with
          | [] => []
          | c :: s' => execAll a r (Some c) (length s - length rest - 1) s'
          end
      | None =>
          match s with
          | [] => []
          | c :: s' => execAll a r (Some c) 0 s'
          end
      end
  end.

(** [s.replace(re, replacement)] with the g flag and a replacement text
    without [$]. *)
Fixpoint replaceAll (a : anchor) (r : regex) (replacement : jsstring)
                    (prev : option char) (skip : nat) (s : jsstring) : jsstring :=
  match skip with
  | S k =>
      match s with
      | [] => []
      | c :: s' => replaceAll a r replacement (Some c) k s'
      end
  | O =>
      match matchAt a r prev s with
      | Some (_, rest) =>
          replacement ++
          match s with
          | [] => []
          | c :: s' =>
              match (length s - length rest)%nat with
              | O => c :: replaceAll a r replacement (Some c) 0 s'
              | S k => replaceAll a r replacement (Some c) k s'
              end
          end
      | None =>
          match s with
          | [] => []
          | c :: s' => c :: replaceAll a r replacement (Some c) 0 s'
          end
      end
  end.

Definition anyChar (c : char) : bool := true.

(** [s.replace(re, f)] without the g flag: the leftmost match is replaced
    by what the callback returns for the matched text and its groups. *)
Fixpoint replaceFirstWith (a : anchor) (r : regex)
                          (f : jsstring -> captures -> jsstring)
                          (prev : option char) (s : jsstring) : jsstring :=
  match matchAt a r prev s with
  | Some (caps, rest) => f (consumed s rest) caps ++ rest
  | None =>
      match s with
      | [] => []
      | c :: s' => c :: replaceFirstWith a r f (Some c) s'
      end
  end.

(** Capture group [n] of a match, numbered from 1 as in [match[n]]. *)
Definition group (n : nat) (caps : captures) : option jsstring :=
  nth (n - 1) caps None.

End Regex.

Import Regex.

(** ** Response sanitizer: [cleanCodeResponse] *)

Module Sanitizer.

Definition FENCE : jsstring := Eval cbv in lit "```".

Definition isLetterOrHash (c : char) : bool := isAsciiLetter c || (c =? 35).

(** [/```[a-zA-Z]*\n?([\s\S]*?)```/g] *)
Definition codeBlockRegex : regex :=
  Seq (Lit FENCE)
 (Seq (Star true isAsciiLetter)
 (Seq (Opt (Lit [NL]))
 (Seq (Group (Star false anyChar))
      (Lit FENCE)))).

(** [/^[a-zA-Z#]+$/] *)
Definition languageLineRegex : regex := Seq (Plus isLetterOrHash) Eol.

(** [/```[a-zA-Z]*\n?/g] *)
Definition openingFenceRegex : regex :=
  Seq (Lit FENCE) (Seq (Star true isAsciiLetter) (Opt (Lit [NL]))).

(** [/```\n?/g] *)
Definition fenceRegex : regex := Seq (Lit FENCE) (Opt (Lit [NL])).

(** The step both branches share: split into lines and, when the first
    line trimmed is made of letters and [#] only, drop it and trim again.
<<
    const lines = code.split('\n');
    if (lines.length > 0 && /^[a-zA-Z#]+$/.test(lines[0].trim())) {
      lines.shift();
      code = lines.join('\n').trim();
    }
>> *)
Definition dropLanguageLine (code : jsstring) : jsstring :=
  let lines := split NL code in
  if (0 <? length lines)%nat && test AtStart languageLineRegex (trim (hd [] lines))
  then trim (join [NL] (tl lines))
  else code.

Definition cleanCodeResponse (response : option jsstring) : option jsstring :=
  match response with
  | None => None
  | Some [] => Some []
  | Some response =>
      let codeBlocks :=
        map (fun m => trim (match group 1 m with Some b => b | None => [] end))
            (execAll Anywhere codeBlockRegex None 0 response) in
      match codeBlocks with
      | code :: _ => Some (dropLanguageLine code)
      | [] =>
          let cleaned :=
            trim (replaceAll Anywhere fenceRegex [] None 0
                   (replaceAll Anywhere openingFenceRegex [] None 0 response)) in
          Some (dropLanguageLine cleaned)
      end
  end.

End Sanitizer.

Import Sanitizer.

(** ** Diff synthesizer: [generateGitDiff] *)

Module Diff.

Definition SLASH : char := 47.

(** [/^@@ -(\d+),?(\d+)? \+(\d+),?(\d+)? @@$/]; the pattern given to
    [replace] is the same without the leading [^]. *)
Definition hunkHeaderRegex : regex :=
  Seq (Lit (lit "@@ -"))
 (Seq (Group (Plus isDigit))
 (Seq (Opt (Lit (lit ",")))
 (Seq (Opt (Group (Plus isDigit)))
 (Seq (Lit (lit " +"))
 (Seq (Group (Plus isDigit))
 (Seq (Opt (Lit (lit ",")))
 (Seq (Opt (Group (Plus isDigit)))
 (Seq (Lit (lit " @@"))
      Eol)))))))).

(** The callback of the [replace]:
<<
    (match, oldStart, oldCount, newStart, newCount) => {
      const fixedOldStart = parseInt(oldStart) + 4;
      const fixedNewStart = parseInt(newStart) + 4;
      const oldCountStr = oldCount ? `,${oldCount}` : '';
      const newCountStr = newCount ? `,${newCount}` : '';
      return `@@ -${fixedOldStart}${oldCountStr} +${fixedNewStart}${newCountStr} @@`;
    }
>>
    Groups 1 and 3 take part in every match, so their digits are there. *)
Definition fixHunkHeader (matched : jsstring) (caps : captures) : jsstring :=
  let digits g := match group g caps with Some d => d | None => [] end in
  let fixedOldStart := parseInt (digits 1%nat) + 4 in
  let fixedNewStart := parseInt (digits 3%nat) + 4 in
  let countStr g :=
    if truthy (group g caps) then lit "," ++ digits g else [] in
  lit "@@ -" ++ toString fixedOldStart ++ countStr 2%nat
    ++ lit " +" ++ toString fixedNewStart ++ countStr 4%nat ++ lit " @@".

(** The body of the loop over the lines of the patch, for line [i]. *)
Definition cleanLine (i : nat) (line : jsstring) : list jsstring :=
  if (i =? 0)%nat && startsWith (lit "diff --git") line then []
  else if test AtStart hunkHeaderRegex line
  then [replaceFirstWith Anywhere hunkHeaderRegex fixHunkHeader None line]
  else [line].

Fixpoint cleanLines (i : nat) (lines : list jsstring) : list jsstring :=
  match lines with
  | [] => []
  | line :: rest => cleanLine i line ++ cleanLines (S i) rest
  end.

(** [filePath.split('/').pop()] *)
Definition fileNameOf (filePath : jsstring) : jsstring :=
  last (split SLASH filePath) [].

(** The lines of the diff of a new file. *)
Definition newFileDiff (fileName : jsstring) (newLines : list jsstring)
  : list jsstring :=
  [ lit "diff --git a/" ++ fileName ++ lit " b/" ++ fileName;
    lit "new file mode 100644";
    lit "--- /dev/null";
    lit "+++ b/" ++ fileName;
    lit "@@ -0,0 +1," ++ toString (N.of_nat (length newLines)) ++ lit " @@" ]
  ++ map (fun line => lit "+" ++ line) newLines.

Section WithDiffLibrary.

(** [createPatch(fileName, oldStr, newStr, oldHeader, newHeader)] of the
    [diff] package, which is not part of this repository: any function. *)
Variable createPatch :
  jsstring -> jsstring -> jsstring -> jsstring -> jsstring -> jsstring.

Definition generateGitDiff (oldContent newContent : option jsstring)
                           (filePath : jsstring) : option jsstring :=
  match newContent with
  | None | Some [] => None
  | Some newContent =>
      match oldContent with
      | None | Some [] =>
          let newLines := split NL newContent in
          let fileName := fileNameOf filePath in
          Some (join [NL] (newFileDiff fileName newLines))
      | Some oldContent =>
          let fileName := fileNameOf filePath in
          let patch := createPatch fileName oldContent newContent
                         (lit "a/" ++ fileName) (lit "b/" ++ fileName) in
          let lines := split NL patch in
          Some (join [NL] (cleanLines 0 lines))
      end
  end.

End WithDiffLibrary.

End Diff.

Import Diff.

(** ** Node's [path] module (POSIX)

    [path] belongs to Node, not to this repository.  Its functions are
    written here after lib/path.js: [normalizeString] by its effect on the
    segments between slashes, [dirname] and [extname] as the scans from the
    end of the string that they are. *)

Module Path.

Definition DOT : char := 46.

Definition isAbsolute (path : jsstring) : bool :=
  match path with
  | c :: _ => c =? SLASH
  | [] => false
  end.

Definition isDotDot (seg : jsstring) : bool := JS.eqb seg [DOT; DOT].

(** Empty segments and [.] vanish; [..] removes the segment before it, or
    stays when there is none to remove and the path is relative. *)
Fixpoint normalizeSegments (allowAboveRoot : bool) (segs acc : list jsstring)
  : list jsstring :=
  match segs with
  | [] => rev acc
  | seg :: rest =>
      if JS.eqb seg [] || JS.eqb seg [DOT] then
        normalizeSegments allowAboveRoot rest acc
      else if isDotDot seg then
        match acc with
        | top :: acc' =>
            if isDotDot top
            then normalizeSegments allowAboveRoot rest
                   (if allowAboveRoot then seg :: acc else acc)
            else normalizeSegments allowAboveRoot rest acc'
        | [] =>
            normalizeSegments allowAboveRoot rest
              (if allowAboveRoot then [seg] else [])
        end
      else normalizeSegments allowAboveRoot rest (seg :: acc)
  end.

Definition normalizeString (path : jsstring) (allowAboveRoot : bool) : jsstring :=
  join [SLASH] (normalizeSegments allowAboveRoot (split SLASH path) []).

Definition normalize (path : jsstring) : jsstring :=
  match path with
  | [] => [DOT]
  | _ =>
      let isAbs := isAbsolute path in
      let trailingSeparator := last path 0 =? SLASH in
      let p := normalizeString path (negb isAbs) in
      match p with
      | [] => if isAbs then [SLASH]
              else if trailingSeparator then [DOT; SLASH] else [DOT]
      | _ =>
          let p := if trailingSeparator then p ++ [SLASH] else p in
          if isAbs then SLASH :: p else p
      end
  end.

(** [path.join(a, b)] *)
Definition join2 (a b : jsstring) : jsstring :=
  match a, b with
  | [], [] => [DOT]
  | [], _ => normalize b
  | _, [] => normalize a
  | _, _ => normalize (a ++ [SLASH] ++ b)
  end.

(** [path.resolve(p)], with [cwd] the absolute path [process.cwd()]. *)
Definition resolve (cwd p : jsstring) : jsstring :=
  let resolvedPath :=
    match p with
    | [] => cwd ++ [SLASH]
    | _ => if isAbsolute p then p ++ [SLASH]
           else cwd ++ [SLASH] ++ p ++ [SLASH]
    end in
  SLASH :: normalizeString resolvedPath false.

(** The loop of [dirname], from index [i] down to 1 over [cs], the code
    units at those indices: the index of the slash that ends the directory. *)
Fixpoint dirnameScan (cs : jsstring) (i : nat) (matchedSlash : bool) : option nat :=
  match cs with
  | [] => None
  | c :: r =>
      if c =? SLASH then
        if negb matchedSlash then Some i
        else dirnameScan r (i - 1) matchedSlash
      else dirnameScan r (i - 1) false
  end.

Definition dirname (path : jsstring) : jsstring :=
  match path with
  | [] => [DOT]
  | _ =>
      let hasRoot := isAbsolute path in
      match dirnameScan (rev (tl path)) (length path - 1) true with
      | None => if hasRoot then [SLASH] else [DOT]
      | Some e =>
          if hasRoot && (e =? 1)%nat then [SLASH; SLASH] else firstn e path
      end
  end.

(** [preDotState] of [extname]: 0, 1 and -1 in the source. *)
Inductive preDot := PreStart | PreDotSeen | PreOther.

Record ExtScan := mkExtScan {
  startDot : option nat;
  startPart : nat;
  extEnd : option nat;
  matchedSlash : bool;
  preDotState : preDot
}.

(** The loop of [extname], from index [i] down to 0 over [cs]. *)
Fixpoint extnameScan (cs : jsstring) (i : nat) (st : ExtScan) : ExtScan :=
  match cs with
  | [] => st
  | c :: r =>
      if c =? SLASH then
        if negb (matchedSlash st)
        then mkExtScan (startDot st) (i + 1) (extEnd st) (matchedSlash st) (preDotState st)
        else extnameScan r (i - 1) st
      else
        let st1 :=
          match extEnd st with
          | None => mkExtScan (startDot st) (startPart st) (Some (i + 1)%nat) false (preDotState st)
          | Some _ => st
          end in
        let st2 :=
          if c =? DOT then
            match startDot st1 with
            | None => mkExtScan (Some i) (startPart st1) (extEnd st1) (matchedSlash st1) (preDotState st1)
            | Some _ =>
                match preDotState st1 with
                | PreDotSeen => st1
                | _ => mkExtScan (startDot st1) (startPart st1) (extEnd st1) (matchedSlash st1) PreDotSeen
                end
            end
          else
            match startDot st1 with
            | Some _ => mkExtScan (startDot st1) (startPart st1) (extEnd st1) (matchedSlash st1) PreOther
            | None => st1
            end in
        extnameScan r (i - 1) st2
  end.

Definition extname (path : jsstring) : jsstring :=
  let st := extnameScan (rev path) (length path - 1)
              (mkExtScan None 0 None true PreStart) in
  match startDot st, extEnd st with
  | Some sd, Some e =>
      match preDotState st with
      | PreStart => []
      | PreDotSeen =>
          if (sd =? e - 1)%nat && (sd =? startPart st + 1)%nat then []
          else firstn (e - sd) (skipn sd path)
      | PreOther => firstn (e - sd) (skipn sd path)
      end
  | _, _ => []
  end.

End Path.

(** ** Effects: the file system and the providers *)

Module Effects.

(** An [Error]: its [message], and the [code] the file system sets. *)
Record JsError := mkError { code : option jsstring; message : jsstring }.

(** [new Error(msg)] *)
Definition Error (msg : jsstring) : JsError := mkError None msg.

(** The body of a chat-completion request (the temperature, a float passed
    through from the configuration, is left out). *)
Record RequestData := mkRequest {
  model : jsstring;
  systemContent : jsstring;
  userContent : jsstring;
  max_tokens : option N
}.

(** What the handlers of a response see of its body. *)
Inductive Reply :=
| ReplyThrows (msg : jsstring)
    (* JSON.parse(data), or reading the parsed reply, throws *)
| ReplyJson (choice0 : option (option jsstring)) (errorMessage : option jsstring).
    (* choice0: response.choices[0].message.content when response.choices[0]
       is there; errorMessage: response.error?.message *)

Inductive HttpOutcome :=
| HttpEnd (statusCode : N) (reply : Reply)   (* the response ended *)
| HttpError (msg : jsstring).                (* the request emitted 'error' *)

(** A computation of the server: it returns, throws, or performs an
    operation on the world and goes on with the answer.  The Cerebras
    request may also get no answer within its 30 seconds ([None]). *)
Inductive Prog (A : Type) : Type :=
| Ret (a : A)
| Throw (e : JsError)
| ReadFile (path : jsstring) (k : JsError + jsstring -> Prog A)
| Mkdir (dir : jsstring) (k : option JsError -> Prog A)
| WriteFile (path : jsstring) (data : option jsstring) (k : option JsError -> Prog A)
| CerebrasRequest (apiKey : jsstring) (req : RequestData)
                  (k : option HttpOutcome -> Prog A)
| OpenRouterRequest (apiKey : jsstring) (req : RequestData)
                    (k : HttpOutcome -> Prog A).

Arguments Ret {A} a.
Arguments Throw {A} e.
Arguments ReadFile {A} path k.
Arguments Mkdir {A} dir k.
Arguments WriteFile {A} path data k.
Arguments CerebrasRequest {A} apiKey req k.
Arguments OpenRouterRequest {A} apiKey req k.

(** [await] and sequencing. *)
Fixpoint bind {A B : Type} (m : Prog A) (f : A -> Prog B) : Prog B :=
  match m with
  | Ret a => f a
  | Throw e => Throw e
  | ReadFile p k => ReadFile p (fun r => bind (k r) f)
  | Mkdir d k => Mkdir d (fun r => bind (k r) f)
  | WriteFile p c k => WriteFile p c (fun r => bind (k r) f)
  | CerebrasRequest key req k => CerebrasRequest key req (fun r => bind (k r) f)
  | OpenRouterRequest key req k => OpenRouterRequest key req (fun r => bind (k r) f)
  end.

(** [try { m } catch (error) { h error }] *)
Fixpoint tryCatch {A : Type} (m : Prog A) (h : JsError -> Prog A) : Prog A :=
  match m with
  | Ret a => Ret a
  | Throw e => h e
  | ReadFile p k => ReadFile p (fun r => tryCatch (k r) h)
  | Mkdir d k => Mkdir d (fun r => tryCatch (k r) h)
  | WriteFile p c k => WriteFile p c (fun r => tryCatch (k r) h)
  | CerebrasRequest key req k => CerebrasRequest key req (fun r => tryCatch (k r) h)
  | OpenRouterRequest key req k => OpenRouterRequest key req (fun r => tryCatch (k r) h)
  end.

Notation "x <- m ;; k" := (bind m (fun x => k))
  (at level 61, m at next level, right associativity).
Notation "m ;;; k" := (bind m (fun _ => k))
  (at level 61, right associativity).

(** [fs.readFile(path, 'utf-8')], [fs.mkdir(dir, { recursive: true })] and
    [fs.writeFile(path, data, 'utf-8')]: a failure is thrown. *)
Definition fsReadFile (path : jsstring) : Prog jsstring :=
  ReadFile path (fun r => match r with inr c => Ret c | inl e => Throw e end).

Definition fsMkdir (dir : jsstring) : Prog unit :=
  Mkdir dir (fun r => match r with None => Ret tt | Some e => Throw e end).

Definition fsWriteFile (path : jsstring) (data : option jsstring) : Prog unit :=
  WriteFile path data (fun r => match r with None => Ret tt | Some e => Throw e end).

(** What a run does to the world, in order. *)
Inductive Event :=
| EvReadFile (path : jsstring)
| EvMkdir (dir : jsstring)
| EvWriteFile (path : jsstring) (data : option jsstring)
| EvCerebras (apiKey : jsstring) (req : RequestData)
| EvOpenRouter (apiKey : jsstring) (req : RequestData).

(** The world: how the file system and the two providers answer, given
    everything that happened before. *)
Record World := mkWorld {
  onReadFile : list Event -> jsstring -> JsError + jsstring;
  onMkdir : list Event -> jsstring -> option JsError;
  onWriteFile : list Event -> jsstring -> option jsstring -> option JsError;
  onCerebras : list Event -> jsstring -> RequestData -> option HttpOutcome;
  onOpenRouter : list Event -> jsstring -> RequestData -> HttpOutcome
}.

(** Running a computation in a world, after the events [past]: the events
    it adds and how it ends. *)
Fixpoint run {A : Type} (w : World) (m : Prog A) (past : list Event)
  : list Event * (JsError + A) :=
  let step ev (next : Prog A) :=
    let '(evs, res) := run w next (past ++ [ev]) in (ev :: evs, res) in
  match m with
  | Ret a => ([], inr a)
  | Throw e => ([], inl e)
  | ReadFile p k => step (EvReadFile p) (k (onReadFile w past p))
  | Mkdir d k => step (EvMkdir d) (k (onMkdir w past d))
  | WriteFile p c k => step (EvWriteFile p c) (k (onWriteFile w past p c))
  | CerebrasRequest key req k => step (EvCerebras key req) (k (onCerebras w past key req))
  | OpenRouterRequest key req k => step (EvOpenRouter key req) (k (onOpenRouter w past key req))
  end.

Definition isOpenRouterCall (ev : Event) : bool :=
  match ev with
  | EvOpenRouter _ _ => true
  | _ => false
  end.

End Effects.

Import Effects.

(** ** The server: file access, providers, and the [write] tool *)

Module Server.

(** [config], read from the environment at start-up.  An API key that is
    not set is [None]; the attribution headers sent to OpenRouter and the
    temperature are left out. *)
Record Config := mkConfig {
  cerebrasApiKey : option jsstring;
  cerebrasModel : jsstring;
  maxTokens : option N;
  openRouterApiKey : option jsstring;
  openRouterModel : jsstring
}.

Definition languageMap : list (jsstring * jsstring) :=
  [ (lit ".py", lit "python"); (lit ".js", lit "javascript");
    (lit ".ts", lit "typescript"); (lit ".tsx", lit "typescript");
    (lit ".jsx", lit "javascript"); (lit ".java", lit "java");
    (lit ".cpp", lit "cpp"); (lit ".c", lit "c"); (lit ".cs", lit "csharp");
    (lit ".php", lit "php"); (lit ".rb", lit "ruby"); (lit ".go", lit "go");
    (lit ".rs", lit "rust"); (lit ".swift", lit "swift");
    (lit ".kt", lit "kotlin"); (lit ".scala", lit "scala");
    (lit ".sh", lit "bash"); (lit ".sql", lit "sql"); (lit ".html", lit "html");
    (lit ".css", lit "css"); (lit ".scss", lit "scss"); (lit ".less", lit "less");
    (lit ".json", lit "json"); (lit ".xml", lit "xml"); (lit ".yaml", lit "yaml");
    (lit ".yml", lit "yaml") ].

Fixpoint lookup (key : jsstring) (table : list (jsstring * jsstring))
  : option jsstring :=
  match table with
  | [] => None
  | (k, v) :: rest => if JS.eqb k key then Some v else lookup key rest
  end.

Definition getLanguageFromFile (filePath : jsstring)
                               (explicitLanguage : option jsstring) : jsstring :=
  if truthy explicitLanguage then
    toLowerCase (match explicitLanguage with Some l => l | None => [] end)
  else
    let ext := toLowerCase (Path.extname filePath) in
    match lookup ext languageMap with
    | Some language => language
    | None => lit "text"
    end.

Definition systemPrompt (detectedLanguage : jsstring) : jsstring :=
  lit "You are an expert programmer. Generate ONLY clean, functional code in "
  ++ detectedLanguage
  ++ lit " with no explanations, comments about the code generation process, or markdown formatting. Include necessary imports and ensure the code is ready to run. When modifying existing files, preserve the structure and style while implementing the requested changes. Output raw code only. Never use markdown code blocks.".

(** How the promise around a request settles once the response has ended
    or the request has failed: it resolves with the sanitized completion
    or rejects. *)
Definition settle (provider : jsstring) (o : HttpOutcome) : Prog (option jsstring) :=
  match o with
  | HttpError msg => Throw (Error (lit "Request failed: " ++ msg))
  | HttpEnd _ (ReplyThrows msg) =>
      Throw (Error (lit "Failed to parse API response: " ++ msg))
  | HttpEnd statusCode (ReplyJson choice0 errorMessage) =>
      let apiError :=
        Throw (Error (provider ++ lit " API error: " ++ toString statusCode
                      ++ lit " - "
                      ++ (if truthy errorMessage
                          then match errorMessage with Some m => m | None => [] end
                          else lit "Unknown error"))) in
      if statusCode =? 200 then
        match choice0 with
        | Some rawContent => Ret (cleanCodeResponse rawContent)
        | None => apiError
        end
      else apiError
  end.

Section WithEnvironment.

Variable config : Config.
(** [process.env.HOME] (the text [undefined] when it is not set, as
    [replace] prints it) and [process.cwd()], an absolute path. *)
Variable HOME : jsstring.
Variable cwd : jsstring.
Variable createPatch :
  jsstring -> jsstring -> jsstring -> jsstring -> jsstring -> jsstring.

(** The path [readFileContent] hands to [fs.readFile]. *)
Definition readAbsolutePath (filePath : jsstring) : jsstring :=
  if Path.isAbsolute filePath then filePath
  else if startsWith (lit "~") filePath
       then replaceString (lit "~") HOME [] filePath
       else Path.join2 cwd filePath.

Definition readFileContent (filePath : jsstring) : Prog (option jsstring) :=
  tryCatch
    (let absolutePath := readAbsolutePath filePath in
     content <- fsReadFile absolutePath ;;
     Ret (Some content))
    (fun error =>
       match code error with
       | Some c =>
           if JS.eqb c (lit "ENOENT") then Ret None
           else Throw (Error (lit "Failed to read file " ++ filePath
                              ++ lit ": " ++ message error))
       | None => Throw (Error (lit "Failed to read file " ++ filePath
                               ++ lit ": " ++ message error))
       end).

(** The path [writeFileContent] hands to [fs.mkdir] (its directory) and
    [fs.writeFile]. *)
Definition writeAbsolutePath (filePath : jsstring) : jsstring :=
  if Path.isAbsolute filePath then filePath
  else if startsWith (lit "~") filePath
       then replaceString (lit "~") HOME [] filePath
       else Path.join2 cwd filePath.

Definition writeFileContent (filePath : jsstring) (content : option jsstring)
  : Prog bool :=
  tryCatch
    (let absolutePath := writeAbsolutePath filePath in
     let dir := Path.dirname absolutePath in
     fsMkdir dir ;;;
     fsWriteFile absolutePath content ;;;
     Ret true)
    (fun error =>
       Throw (Error (lit "Failed to write file " ++ filePath
                     ++ lit ": " ++ message error))).

(** The context section: each file that can be read and is not empty is
    appended; one that cannot be read is skipped with a warning. *)
Fixpoint appendContextFiles (contextContent : jsstring) (files : list jsstring)
  : Prog jsstring :=
  match files with
  | [] => Ret contextContent
  | contextFile :: rest =>
      contextContent' <-
        tryCatch
          (content <- readFileContent contextFile ;;
           if truthy content then
             let contextLang := getLanguageFromFile contextFile None in
             Ret (contextContent ++ lit "\nFile: " ++ contextFile ++ lit "\n```"
                  ++ contextLang ++ lit "\n"
                  ++ match content with Some c => c | None => [] end
                  ++ lit "\n```\n")
           else Ret contextContent)
          (fun _ => Ret contextContent) ;;
      appendContextFiles contextContent' rest
  end.

(** The context files that pass the filter
    [path.resolve(file) !== path.resolve(outputFile)]. *)
Definition filterContextFiles (outputFile : jsstring) (contextFiles : list jsstring)
  : list jsstring :=
  filter (fun file =>
            let resolvedContext := Path.resolve cwd file in
            let resolvedOutput := Path.resolve cwd outputFile in
            negb (JS.eqb resolvedContext resolvedOutput))
         contextFiles.

(** The prompt and the request body, built the same way (the source repeats
    the block) by [callOpenRouter] and [callCerebras]. *)
Definition buildRequest (modelName : jsstring)
    (prompt context outputFile : jsstring) (language : option jsstring)
    (contextFiles : list jsstring) : Prog RequestData :=
  let detectedLanguage := getLanguageFromFile outputFile language in
  let fullPrompt := lit "Generate " ++ detectedLanguage ++ lit " code for: " ++ prompt in
  fullPrompt <-
    (match contextFiles with
     | [] => Ret fullPrompt
     | _ =>
         let filteredContextFiles := filterContextFiles outputFile contextFiles in
         match filteredContextFiles with
         | [] => Ret fullPrompt
         | _ =>
             contextContent <-
               appendContextFiles (lit "Context Files:\n") filteredContextFiles ;;
             Ret (contextContent ++ lit "\n" ++ fullPrompt)
         end
     end) ;;
  let fullPrompt :=
    match context with
    | [] => fullPrompt
    | _ => lit "Context: " ++ context ++ lit "\n\n" ++ fullPrompt
    end in
  existingContent <- readFileContent outputFile ;;
  let fullPrompt :=
    if truthy existingContent then
      lit "Existing file content:\n```" ++ detectedLanguage ++ lit "\n"
      ++ match existingContent with Some c => c | None => [] end
      ++ lit "\n```\n\n" ++ fullPrompt
    else fullPrompt in
  Ret (mkRequest modelName (systemPrompt detectedLanguage) fullPrompt
         (match maxTokens config with
          | Some n => if n =? 0 then None else Some n
          | None => None
          end)).

(** The promise is returned from inside the [try] without being awaited
    there, so its rejection passes the [catch] by. *)
Definition callOpenRouter (prompt context outputFile : jsstring)
    (language : option jsstring) (contextFiles : list jsstring)
  : Prog (option jsstring) :=
  promise <-
    tryCatch
      (if negb (truthy (openRouterApiKey config)) then
         Throw (Error (lit "No OpenRouter API key available. Set OPENROUTER_API_KEY environment variable."))
       else
         requestData <- buildRequest (openRouterModel config)
                          prompt context outputFile language contextFiles ;;
         Ret (OpenRouterRequest
                (match openRouterApiKey config with Some k => k | None => [] end)
                requestData (settle (lit "OpenRouter"))))
      (fun error =>
         Throw (Error (lit "OpenRouter API call failed: " ++ message error))) ;;
  promise.

(** The Cerebras promise: it also rejects when nothing came within 30 s. *)
Definition settleCerebras (o : option HttpOutcome) : Prog (option jsstring) :=
  match o with
  | Some o => settle (lit "Cerebras") o
  | None => Throw (Error (lit "Request timeout after 30 seconds"))
  end.

Definition callCerebras (prompt context outputFile : jsstring)
    (language : option jsstring) (contextFiles : list jsstring)
  : Prog (option jsstring) :=
  tryCatch
    (if negb (truthy (cerebrasApiKey config)) then
       callOpenRouter prompt context outputFile language contextFiles
     else
       requestData <- buildRequest (cerebrasModel config)
                        prompt context outputFile language contextFiles ;;
       tryCatch
         (CerebrasRequest
            (match cerebrasApiKey config with Some k => k | None => [] end)
            requestData settleCerebras)
         (fun error =>
            if negb (truthy (openRouterApiKey config)) then
              Throw (Error (lit "Cerebras failed and no OpenRouter fallback available. Cerebras error: "
                            ++ message error))
            else
              tryCatch
                (callOpenRouter prompt context outputFile language contextFiles)
                (fun openRouterError =>
                   Throw (Error (lit "Both Cerebras and OpenRouter failed. Cerebras error: "
                                 ++ message error ++ lit ". OpenRouter error: "
                                 ++ message openRouterError)))))
    (fun error =>
       if negb (truthy (openRouterApiKey config)) then
         Throw (Error (lit "Cerebras setup failed and no OpenRouter fallback available. Error: "
                       ++ message error))
       else
         tryCatch
           (callOpenRouter prompt context outputFile language contextFiles)
           (fun openRouterError =>
              Throw (Error (lit "Both Cerebras and OpenRouter failed. Setup error: "
                            ++ message error ++ lit ". OpenRouter error: "
                            ++ message openRouterError)))).

(** The arguments of a tool call; a field that is not given is [None]. *)
Record ToolArguments := mkArguments {
  file_path : option jsstring;
  prompt : option jsstring;
  context_files : option (list jsstring)
}.

(** [request.params] *)
Record CallToolRequest := mkCall {
  name : jsstring;
  arguments : option ToolArguments
}.

(** The message of the TypeError that destructuring [undefined] throws. *)
Definition destructureMessage : jsstring :=
  lit "Cannot destructure property 'file_path' of 'request.params.arguments' as it is undefined.".

Definition MAGNIFIER : jsstring := [55357; 56589].  (* U+1F50D *)
Definition CROSS : jsstring := [10060].             (* U+274C *)
Definition CHECK_MARK : jsstring := [9989].         (* U+2705 *)

(**
<<
    diff.replace(/^@@ /gm, ...).replace(/^- /gm, ...)
        .replace(/^\+ /gm, ...).replace(/^  /gm, '   ')
>> *)
Definition cursorFriendly (diff : jsstring) : jsstring :=
  replaceAll AtLineStart (Lit (lit "  ")) (lit "   ") None 0
   (replaceAll AtLineStart (Lit (lit "+ ")) (CHECK_MARK ++ lit " ") None 0
     (replaceAll AtLineStart (Lit (lit "- ")) (CROSS ++ lit " ") None 0
       (replaceAll AtLineStart (Lit (lit "@@ ")) (MAGNIFIER ++ lit " ") None 0
          diff))).

(** The text items pushed for a diff: none when [diff] is falsy. *)
Definition diffContent (diff : option jsstring) : list jsstring :=
  if truthy diff then
    [ lit "```diff\n"
      ++ cursorFriendly (match diff with Some d => d | None => [] end)
      ++ lit "\n```" ]
  else [].

(** The handler of [CallToolRequestSchema]; its result is the list of the
    texts of [content]. *)
Definition handleCallTool (request : CallToolRequest) : Prog (list jsstring) :=
  if JS.eqb (name request) (lit "write") then
    tryCatch
      (match arguments request with
       | None => Throw (Error destructureMessage)
       | Some args =>
           let context_files :=
             match context_files args with Some l => l | None => [] end in
           if negb (truthy (prompt args)) then
             Throw (Error (lit "Prompt is required for write tool"))
           else if negb (truthy (file_path args)) then
             Throw (Error (lit "file_path is required for write tool"))
           else
             let file_path := match file_path args with Some p => p | None => [] end in
             let prompt := match prompt args with Some p => p | None => [] end in
             existingContent <- readFileContent file_path ;;
             let isEdit :=
               match existingContent with Some _ => true | None => false end in
             result <- callCerebras prompt [] file_path None context_files ;;
             let cleanResult := cleanCodeResponse result in
             writeFileContent file_path cleanResult ;;;
             let responseContent :=
               if isEdit && truthy existingContent then
                 let cleanExistingContent := cleanCodeResponse existingContent in
                 let diff := generateGitDiff createPatch cleanExistingContent
                               cleanResult file_path in
                 diffContent diff
               else if negb isEdit then
                 let diff := generateGitDiff createPatch None cleanResult file_path in
                 diffContent diff
               else [] in
             Ret responseContent
       end)
      (fun error => Throw (Error (lit "Failed to write code: " ++ message error)))
  else Throw (Error (lit "Unknown tool: " ++ name request)).

End WithEnvironment.

End Server.

Import Server.

(** ** The line-by-line diff: [generateDiff] *)

Module SimpleDiff.

(** The loop over the two arrays of lines, [oldLines] from index [i] and
    [newLines] from index [j] on:
<<
    while (i < oldLines.length || j < newLines.length) {
      if (i < oldLines.length && j < newLines.length && oldLines[i] === newLines[j]) {
        i++; j++;
      } else if (j < newLines.length && (i >= oldLines.length || oldLines[i] !== newLines[j])) {
        diff.push(`+ ${newLines[j]}`); j++;
      } else if (i < oldLines.length && (j >= newLines.length || oldLines[i] !== newLines[j])) {
        diff.push(`- ${oldLines[i]}`); i++;
      }
    }
>>
    The lists are what is left of the arrays; every turn of the loop takes
    a line off one of them or off both. *)
Fixpoint diffLines (oldLines newLines : list jsstring) : list jsstring :=
  match newLines with
  | [] => map (fun line => lit "- " ++ line) oldLines
  | n :: newRest =>
      match oldLines with
      | o :: oldRest =>
          if JS.eqb o n then diffLines oldRest newRest
          else (lit "+ " ++ n) :: diffLines oldLines newRest
      | [] => (lit "+ " ++ n) :: diffLines [] newRest
      end
  end.

Definition generateDiff (oldContent newContent : option jsstring) : option jsstring :=
  if negb (truthy oldContent) || negb (truthy newContent) then None
  else
    let oldLines := split NL (match oldContent with Some s => s | None => [] end) in
    let newLines := split NL (match newContent with Some s => s | None => [] end) in
    let diff := diffLines oldLines newLines in
    if (0 <? length diff)%nat then Some (join [NL] diff) else None.

End SimpleDiff.

Import SimpleDiff.

(** ** Vocabulary of the statements

    What the properties below are stated with: the match the engine
    reports, the shapes of text the specification speaks of, and concrete
    worlds to run the server in. *)

(** [x] is the match the engine reports for [r] on [s]. *)
Definition firstMatch (r : regex) (s : jsstring) (x : captures * jsstring) : Prop :=
  exists others, attempts r s = x :: others.

Fixpoint dropWhile (p : char -> bool) (s : jsstring) : jsstring :=
  match s with
  | [] => []
  | c :: r => if p c then dropWhile p r else s
  end.

(** What follows the language tag of an opening fence: the body without
    its leading run of letters and without one newline after it. *)
Definition afterFenceTag (body : jsstring) : jsstring :=
  match dropWhile isAsciiLetter body with
  | c :: r => if c =? NL then r else c :: r
  | [] => []
  end.

(** What the specification says of a fenced block: its body, without the
    first line when that line is an alphabetic token and nothing else. *)
Definition specBlockBody (body : jsstring) : jsstring :=
  match split NL body with
  | first :: rest =>
      if negb (JS.eqb first []) && forallb isAsciiLetter first
      then join [NL] rest
      else body
  | [] => body
  end.

(** The count of a hunk header as it is printed, when it is. *)
Definition countText (count : option N) : jsstring :=
  match count with
  | Some n => lit "," ++ toString n
  | None => []
  end.

(** A hunk header of a unified diff, [@@ -oldStart,oldCount +newStart,newCount @@],
    either count possibly left out. *)
Definition hunkHeader (oldStart : N) (oldCount : option N)
                      (newStart : N) (newCount : option N) : jsstring :=
  lit "@@ -" ++ toString oldStart ++ countText oldCount
  ++ lit " +" ++ toString newStart ++ countText newCount ++ lit " @@".

(** The lines of a patch that the loop of [generateGitDiff] keeps. *)
Definition patchLines (patch : jsstring) : list jsstring :=
  match split NL patch with
  | first :: rest =>
      if startsWith (lit "diff --git") first then rest else first :: rest
  | [] => []
  end.

(** What the loop of [generateGitDiff] makes of a line past the first. *)
Definition fixLine (line : jsstring) : jsstring :=
  if test AtStart hunkHeaderRegex line
  then replaceFirstWith Anywhere hunkHeaderRegex fixHunkHeader None line
  else line.

(** What the handler returns once the file was read, the completion
    obtained and the file written. *)
Definition responseContent
    (createPatch : jsstring -> jsstring -> jsstring -> jsstring -> jsstring -> jsstring)
    (existingContent result : option jsstring) (file_path : jsstring)
  : list jsstring :=
  let cleanResult := cleanCodeResponse result in
  match existingContent with
  | Some _ =>
      if truthy existingContent then
        diffContent (generateGitDiff createPatch (cleanCodeResponse existingContent)
                       cleanResult file_path)
      else []
  | None => diffContent (generateGitDiff createPatch None cleanResult file_path)
  end.

(** A patch as the [diff] package prints it, for [x.txt] going from the
    lines a, b, c to the lines a, b, d; and a stand-in for [createPatch]
    that returns it, for the concrete runs below. *)
Definition examplePatch : jsstring :=
  lit "Index: x.txt\n===================================================================\n--- x.txt\ta/x.txt\n+++ x.txt\tb/x.txt\n@@ -1,3 +1,3 @@\n a\n b\n-c\n+d\n".

Definition exampleCreatePatch
  : jsstring -> jsstring -> jsstring -> jsstring -> jsstring -> jsstring :=
  fun _ _ _ _ _ => examplePatch.

Definition ENOENT : JsError :=
  mkError (Some (lit "ENOENT")) (lit "ENOENT: no such file or directory").

(** A world with the given files (absolute path, content) in which every
    directory can be made and every string can be written ([fs.writeFile]
    throws on data that is [null] or [undefined]), and in which the two
    providers answer every request the same way. *)
Definition sampleWorld (files : list (jsstring * jsstring))
                       (cerebras : option HttpOutcome) (openRouter : HttpOutcome)
  : World :=
  mkWorld
    (fun _ path => match lookup path files with
                   | Some content => inr content
                   | None => inl ENOENT
                   end)
    (fun _ _ => None)
    (fun _ _ data =>
       match data with
       | Some _ => None
       | None => Some (mkError (Some (lit "ERR_INVALID_ARG_TYPE"))
                         (lit "The data argument must be of type string"))
       end)
    (fun _ _ _ => cerebras)
    (fun _ _ _ => openRouter).

(** A response with status 200 whose first choice has the given content,
    and a response with status 500 and nothing in it. *)
Definition completion (content : jsstring) : HttpOutcome :=
  HttpEnd 200 (ReplyJson (Some (Some content)) None).

Definition serverError : HttpOutcome := HttpEnd 500 (ReplyJson None None).

Definition bothKeys : Config :=
  mkConfig (Some (lit "csk-1")) (lit "qwen-3-coder-480b") None
           (Some (lit "sk-or-1")) (lit "qwen/qwen3-coder").

Definition openRouterOnly : Config :=
  mkConfig None (lit "qwen-3-coder-480b") None
           (Some (lit "sk-or-1")) (lit "qwen/qwen3-coder").

Definition writeCall (file_path prompt : jsstring) (context_files : list jsstring)
  : CallToolRequest :=
  mkCall (lit "write")
    (Some (mkArguments (Some file_path) (Some prompt) (Some context_files))).

(** The requests to OpenRouter among the events of a run, and the user
    prompts of its requests to either provider. *)
Definition openRouterCalls (evs : list Event) : nat :=
  length (filter isOpenRouterCall evs).

Definition userPrompts (evs : list Event) : list jsstring :=
  flat_map (fun ev => match ev with
                      | EvCerebras _ req | EvOpenRouter _ req => [userContent req]
                      | _ => []
                      end) evs.

(** [Bounded P n p]: along every path through [p], whatever the world
    answers, OpenRouter is requested at most [n] times, and a value [p]
    returns satisfies [P]. *)
Inductive Bounded {A : Type} (P : A -> Prop) : nat -> Prog A -> Prop :=
| Bounded_Ret n a : P a -> Bounded P n (Ret a)
| Bounded_Throw n e : Bounded P n (Throw e)
| Bounded_ReadFile n p k :
    (forall r, Bounded P n (k r)) -> Bounded P n (ReadFile p k)
| Bounded_Mkdir n d k :
    (forall r, Bounded P n (k r)) -> Bounded P n (Mkdir d k)
| Bounded_WriteFile n p c k :
    (forall r, Bounded P n (k r)) -> Bounded P n (WriteFile p c k)
| Bounded_Cerebras n key req k :
    (forall r, Bounded P n (k r)) -> Bounded P n (CerebrasRequest key req k)
| Bounded_OpenRouter n key req k :
    (forall r, Bounded P n (k r)) -> Bounded P (S n) (OpenRouterRequest key req k).

(** The kinds of operations on the world, and the number of events of a
    kind among the events of a run. *)
Inductive Kind := KRead | KMkdir | KWrite | KCerebras | KOpenRouter.

Definition kindOf (ev : Event) : Kind :=
  match ev with
  | EvReadFile _ => KRead
  | EvMkdir _ => KMkdir
  | EvWriteFile _ _ => KWrite
  | EvCerebras _ _ => KCerebras
  | EvOpenRouter _ _ => KOpenRouter
  end.

Definition cost (q : Kind -> bool) (k : Kind) : nat := if q k then 1%nat else 0%nat.

Definition countKind (q : Kind -> bool) (evs : list Event) : nat :=
  length (filter (fun ev => q (kindOf ev)) evs).

Definition isKind (k k' : Kind) : bool :=
  match k, k' with
  | KRead, KRead | KMkdir, KMkdir | KWrite, KWrite
  | KCerebras, KCerebras | KOpenRouter, KOpenRouter => true
  | _, _ => false
  end.

(** [Within q P n p]: along every path through [p], whatever the world
    answers, at most [n] operations are of a kind that [q] counts, and a
    value [p] returns satisfies [P]. *)
Inductive Within {A : Type} (q : Kind -> bool) (P : A -> Prop) : nat -> Prog A -> Prop :=
| Within_Ret n a : P a -> Within q P n (Ret a)
| Within_Throw n e : Within q P n (Throw e)
| Within_ReadFile n m p k :
    n = (cost q KRead + m)%nat ->
    (forall r, Within q P m (k r)) -> Within q P n (ReadFile p k)
| Within_Mkdir n m d k :
    n = (cost q KMkdir + m)%nat ->
    (forall r, Within q P m (k r)) -> Within q P n (Mkdir d k)
| Within_WriteFile n m p c k :
    n = (cost q KWrite + m)%nat ->
    (forall r, Within q P m (k r)) -> Within q P n (WriteFile p c k)
| Within_Cerebras n m key req k :
    n = (cost q KCerebras + m)%nat ->
    (forall r, Within q P m (k r)) -> Within q P n (CerebrasRequest key req k)
| Within_OpenRouter n m key req k :
    n = (cost q KOpenRouter + m)%nat ->
    (forall r, Within q P m (k r)) -> Within q P n (OpenRouterRequest key req k).

(** How a settled request ends, as a value: [settle] performs nothing. *)
Definition settled (provider : jsstring) (o : HttpOutcome) : JsError + option jsstring :=
  match settle provider o with
  | Ret x => inr x
  | Throw e => inl e
  | _ => inl (Error [])
  end.

(** What [cursorFriendly] makes of one line. *)
Definition friendlyLine (line : jsstring) : jsstring :=
  if startsWith (lit "@@ ") line then MAGNIFIER ++ lit " " ++ skipn 3 line
  else if startsWith (lit "- ") line then CROSS ++ lit " " ++ skipn 2 line
  else if startsWith (lit "+ ") line then CHECK_MARK ++ lit " " ++ skipn 2 line
  else if startsWith (lit "  ") line then lit "   " ++ skipn 2 line
  else line.


(** [Interleaved l r m]: [m] is [l] and [r] shuffled together, each in
    its own order. *)
Inductive Interleaved {A : Type} : list A -> list A -> list A -> Prop :=
| Interleaved_nil : Interleaved [] [] []
| Interleaved_left x l r m : Interleaved l r m -> Interleaved (x :: l) r (x :: m)
| Interleaved_right x l r m : Interleaved l r m -> Interleaved l (x :: r) (x :: m).

(** The two kinds of line of the simple diff. *)
Definition addedLine (line : jsstring) : jsstring := lit "+ " ++ line.
Definition removedLine (line : jsstring) : jsstring := lit "- " ++ line.

(** [Emits E P Q p]: along every path through [p], whatever the world
    answers, every operation satisfies [E], a value [p] returns satisfies
    [P] and an error it throws satisfies [Q]. *)
Inductive Emits {A : Type} (E : Event -> Prop) (P : A -> Prop) (Q : JsError -> Prop)
  : Prog A -> Prop :=
| Emits_Ret a : P a -> Emits E P Q (Ret a)
| Emits_Throw e : Q e -> Emits E P Q (Throw e)
| Emits_ReadFile p k :
    E (EvReadFile p) -> (forall r, Emits E P Q (k r)) -> Emits E P Q (ReadFile p k)
| Emits_Mkdir d k :
    E (EvMkdir d) -> (forall r, Emits E P Q (k r)) -> Emits E P Q (Mkdir d k)
| Emits_WriteFile p c k :
    E (EvWriteFile p c) -> (forall r, Emits E P Q (k r)) ->
    Emits E P Q (WriteFile p c k)
| Emits_Cerebras key req k :
    E (EvCerebras key req) -> (forall r, Emits E P Q (k r)) ->
    Emits E P Q (CerebrasRequest key req k)
| Emits_OpenRouter key req k :
    E (EvOpenRouter key req) -> (forall r, Emits E P Q (k r)) ->
    Emits E P Q (OpenRouterRequest key req k).


(** [s] ends with [suffix]. *)
Definition endsWith (suffix s : jsstring) : Prop := exists pre, s = pre ++ suffix.

(** The instruction every prompt ends with. *)
Definition instruction (detectedLanguage prompt : jsstring) : jsstring :=
  lit "Generate " ++ detectedLanguage ++ lit " code for: " ++ prompt.

(** The error [readFileContent] throws for [filePath]. *)
Definition readFailure (filePath : jsstring) (e : JsError) : Prop :=
  exists msg, e = Error (lit "Failed to read file " ++ filePath ++ lit ": " ++ msg).

(** What a request built for [modelName] looks like. *)
Definition requestFor (modelName detectedLanguage prompt : jsstring)
                      (req : RequestData) : Prop :=
  model req = modelName /\
  systemContent req = systemPrompt detectedLanguage /\
  endsWith (instruction detectedLanguage prompt) (userContent req).

(** A text the sanitizer is done with: trimmed, and without fence. *)
Definition sanitized (s : jsstring) : Prop :=
  includes FENCE s = false /\ trim s = s.

(** The operations a call of the write tool for [target] with the context
    files [contextFiles] may perform: it reads the target and the context
    files, makes the directory of the target and writes the target, with
    sanitized text; a provider is requested with its own key, which is
    set, and for its own model. *)
Definition allowedEvent (config : Config) (HOME cwd target : jsstring)
    (contextFiles : list jsstring) (ev : Event) : Prop :=
  match ev with
  | EvReadFile path =>
      path = readAbsolutePath HOME cwd target \/
      exists file, In file contextFiles /\ path = readAbsolutePath HOME cwd file
  | EvMkdir dir => dir = Path.dirname (writeAbsolutePath HOME cwd target)
  | EvWriteFile path data =>
      path = writeAbsolutePath HOME cwd target /\
      forall d, data = Some d -> sanitized d
  | EvCerebras key req =>
      cerebrasApiKey config = Some key /\ key <> [] /\
      model req = cerebrasModel config
  | EvOpenRouter key req =>
      openRouterApiKey config = Some key /\ key <> [] /\
      model req = openRouterModel config
  end.

(** The file a call of the write tool is for, and its context files. *)
Definition targetOf (request : CallToolRequest) : jsstring :=
  match arguments request with
  | Some args => match file_path args with Some p => p | None => [] end
  | None => []
  end.

Definition contextOf (request : CallToolRequest) : list jsstring :=
  match arguments request with
  | Some args => match context_files args with Some l => l | None => [] end
  | None => []
  end.

(** The errors of the handler. *)
Definition handlerFailure (request : CallToolRequest) (e : JsError) : Prop :=
  if JS.eqb (name request) (lit "write")
  then startsWith (lit "Failed to write code: ") (message e) = true
  else e = Error (lit "Unknown tool: " ++ name request).

(** A capture list with one group, whose text has no fence. *)
Definition fenceFreeBody (x : captures * jsstring) : Prop :=
  exists b, fst x = [Some b] /\ includes FENCE b = false.

(** What is left of the text after a fence once [/```\n?/] has matched
    the fence. *)
Definition afterFence (rest : jsstring) : jsstring :=
  match rest with
  | c :: r => if c =? NL then r else rest
  | [] => []
  end.

(** A text without line terminator, and what one replacement of the
    handler makes of a line: the pattern is replaced where the line
    starts with it. *)
Definition noTerminator (s : jsstring) : bool :=
  forallb (fun c => negb (isLineTerminator c)) s.

Definition markLine (pattern replacement line : jsstring) : jsstring :=
  if startsWith pattern line then replacement ++ skipn (length pattern) line
  else line.

(** * Properties *)

(** ** Concrete runs of the model *)

Example clean_fenced :
  cleanCodeResponse (Some (lit "Here you go:\n```js\nlet x = 1;\n```\nDone."))
  = Some (lit "let x = 1;").
Proof. vm_compute. reflexivity. Qed.

Example clean_plain :
  cleanCodeResponse (Some (lit "print(1)\n")) = Some (lit "print(1)").
Proof. vm_compute. reflexivity. Qed.

Example clean_word :
  cleanCodeResponse (Some (lit "hello")) = Some [].
Proof. vm_compute. reflexivity. Qed.

Example clean_two_tags :
  cleanCodeResponse (Some (lit "```python\nimport\nx```")) = Some (lit "x").
Proof. vm_compute. reflexivity. Qed.

Example clean_tag_with_digit :
  cleanCodeResponse (Some (lit "```python3\nx = 1\n```")) = Some (lit "3\nx = 1").
Proof. vm_compute. reflexivity. Qed.

Example clean_unclosed :
  cleanCodeResponse (Some (lit "```python\nx = 1\n")) = Some (lit "x = 1").
Proof. vm_compute. reflexivity. Qed.

Example clean_first_of_two_blocks :
  cleanCodeResponse (Some (lit "```a\nx = 1```then```b\ny = 2```")) = Some (lit "x = 1").
Proof. vm_compute. reflexivity. Qed.

Example two_code_blocks :
  execAll Anywhere codeBlockRegex None 0 (lit "```a\nx```y```b\nz```")
  = [[Some (lit "x")]; [Some (lit "z")]].
Proof. vm_compute. reflexivity. Qed.

Example home_expanded :
  replaceString (lit "~") (lit "/home/u") [] (lit "~/a~b") = lit "/home/u/a~b".
Proof. vm_compute. reflexivity. Qed.

Example fix_header :
  cleanLine 3 (lit "@@ -1,3 +1,3 @@") = [lit "@@ -5,3 +5,3 @@"].
Proof. vm_compute. reflexivity. Qed.

Example fix_header_nocount :
  cleanLine 3 (lit "@@ -12 +0,0 @@") = [lit "@@ -16 +4,0 @@"].
Proof. vm_compute. reflexivity. Qed.

Example new_file_diff :
  generateGitDiff (fun _ _ _ _ _ => []) None (Some (lit "a\nb")) (lit "/tmp/x.py")
  = Some (lit "diff --git a/x.py b/x.py\nnew file mode 100644\n--- /dev/null\n+++ b/x.py\n@@ -0,0 +1,2 @@\n+a\n+b").
Proof. vm_compute. reflexivity. Qed.

Example resolve_relative :
  Path.resolve (lit "/work") (lit "src/../x.py") = lit "/work/x.py".
Proof. vm_compute. reflexivity. Qed.

Example resolve_home :
  Path.resolve (lit "/work") (lit "~/x.py") = lit "/work/~/x.py".
Proof. vm_compute. reflexivity. Qed.

Example join_relative :
  Path.join2 (lit "/work") (lit "./a//b/") = lit "/work/a/b/".
Proof. vm_compute. reflexivity. Qed.

Example extname_py : Path.extname (lit "/tmp/a.b/x.test.PY") = lit ".PY".
Proof. vm_compute. reflexivity. Qed.

Example extname_hidden : Path.extname (lit "/tmp/.bashrc") = [].
Proof. vm_compute. reflexivity. Qed.

Example extname_dotdot : Path.extname (lit "..") = [].
Proof. vm_compute. reflexivity. Qed.

Example dirname_file : Path.dirname (lit "/home/u/x.py") = lit "/home/u".
Proof. vm_compute. reflexivity. Qed.

Example dirname_root : Path.dirname (lit "/x.py") = lit "/".
Proof. vm_compute. reflexivity. Qed.

(** ** Strings *)

Section StringFacts.

Lemma startsWith_app (p s : jsstring) : startsWith p (p ++ s) = true.
Proof.
  induction p as [|a p IH]; cbn [startsWith app]; [reflexivity|].
  now rewrite N.eqb_refl, IH.
Qed.

Lemma skipn_length_app (p s : jsstring) : skipn (length p) (p ++ s) = s.
Proof. induction p; simpl; auto. Qed.

Lemma consumed_app (b rest : jsstring) : consumed (b ++ rest) rest = b.
Proof.
  unfold consumed. rewrite length_app.
  replace (length b + length rest - length rest)%nat with (length b) by lia.
  rewrite firstn_app, Nat.sub_diag, firstn_all. simpl. apply app_nil_r.
Qed.

Lemma includes_cons (p : jsstring) (c : char) (s : jsstring) :
  includes p (c :: s) = false ->
  startsWith p (c :: s) = false /\ includes p s = false.
Proof. simpl. intros H. apply orb_false_iff in H. exact H. Qed.

Lemma includes_startsWith (p s : jsstring) :
  includes p s = false -> startsWith p s = false.
Proof.
  destruct s; simpl; intros H; apply orb_false_iff in H; tauto.
Qed.

Lemma includes_app_r (p a b : jsstring) :
  includes p (a ++ b) = false -> includes p b = false.
Proof.
  induction a as [|c a IH]; simpl; auto.
  intros H. apply orb_false_iff in H. tauto.
Qed.

(** A fence cannot start inside a text [b] when [b] followed by two
    backticks has no fence. *)
Lemma no_fence_inside (c : char) (b rest : jsstring) :
  includes FENCE ((c :: b) ++ [96; 96]) = false ->
  startsWith FENCE ((c :: b) ++ rest) = false.
Proof.
  intros H. apply includes_startsWith in H. revert H.
  unfold FENCE. cbn [startsWith app].
  destruct (96 =? c); cbn [andb]; [|reflexivity].
  destruct b as [|c2 b]; cbn [startsWith app]; [discriminate|].
  destruct (96 =? c2); cbn [andb]; [|reflexivity].
  destruct b as [|c3 b]; cbn [startsWith app]; [discriminate|].
  destruct (96 =? c3); cbn [andb]; [discriminate|reflexivity].
Qed.

Lemma trimStart_idempotent (s : jsstring) : trimStart (trimStart s) = trimStart s.
Proof.
  induction s as [|c s IH]; simpl; auto.
  destruct (isWhiteSpace c) eqn:E; auto. simpl. now rewrite E.
Qed.

(** [split] never returns the empty array: the test [lines.length > 0] of
    the sanitizer always holds. *)
Lemma split_nonempty (sep : char) (s : jsstring) : split sep s <> [].
Proof.
  induction s as [|c s IH]; simpl; [discriminate|].
  destruct (c =? sep); [discriminate|].
  destruct (split sep s); [contradiction|discriminate].
Qed.

End StringFacts.

(** ** The matcher *)

Section MatcherFacts.

Lemma firstMatch_matchHere r s x : firstMatch r s x -> matchHere r s = Some x.
Proof. intros [t H]. unfold matchHere. now rewrite H. Qed.

Lemma firstMatch_Lit (l rest : jsstring) : firstMatch (Lit l) (l ++ rest) ([], rest).
Proof.
  exists []. cbn [attempts]. now rewrite startsWith_app, skipn_length_app.
Qed.

Lemma firstMatch_Seq r1 r2 s c1 s1 c2 s2 :
  firstMatch r1 s (c1, s1) -> firstMatch r2 s1 (c2, s2) ->
  firstMatch (Seq r1 r2) s (c1 ++ c2, s2).
Proof.
  intros [t1 H1] [t2 H2]. unfold firstMatch. cbn [attempts].
  rewrite H1. cbn [flat_map]. rewrite H2. cbn [map app].
  eexists. reflexivity.
Qed.

Lemma firstMatch_Opt r s x : firstMatch r s x -> firstMatch (Opt r) s x.
Proof.
  intros [t H]. unfold firstMatch. cbn [attempts]. rewrite H.
  cbn [app]. eexists. reflexivity.
Qed.

Lemma firstMatch_Opt_skip r s :
  attempts r s = [] -> firstMatch (Opt r) s (repeat None (ngroups r), s).
Proof.
  intros H. unfold firstMatch. cbn [attempts]. rewrite H.
  cbn [app]. eexists. reflexivity.
Qed.

Lemma firstMatch_Group r s caps rest :
  firstMatch r s (caps, rest) ->
  firstMatch (Group r) s (Some (consumed s rest) :: caps, rest).
Proof.
  intros [t H]. unfold firstMatch. cbn [attempts]. rewrite H.
  cbn [map]. eexists. reflexivity.
Qed.

Lemma firstMatch_Eol : firstMatch Eol [] ([], []).
Proof. exists []. reflexivity. Qed.

Lemma attempts_Lit_fails (l s : jsstring) :
  startsWith l s = false -> attempts (Lit l) s = [].
Proof. intros H. cbn [attempts]. now rewrite H. Qed.

Lemma attempts_Seq_Lit_fails (l : jsstring) (r : regex) (s : jsstring) :
  startsWith l s = false -> attempts (Seq (Lit l) r) s = [].
Proof. intros H. cbn [attempts]. now rewrite H. Qed.

Lemma starGreedy_head p s : exists t, starGreedy p s = dropWhile p s :: t.
Proof.
  induction s as [|c s [t IH]]; cbn [starGreedy dropWhile].
  - now exists [].
  - destruct (p c).
    + rewrite IH. cbn [app]. eexists. reflexivity.
    + now exists [].
Qed.

Lemma firstMatch_StarGreedy p s : firstMatch (Star true p) s ([], dropWhile p s).
Proof.
  destruct (starGreedy_head p s) as [t H]. unfold firstMatch.
  cbn [attempts]. rewrite H. cbn [map]. eexists. reflexivity.
Qed.

Lemma dropWhile_run p (ds rest : jsstring) :
  forallb p ds = true ->
  match rest with [] => true | c :: _ => negb (p c) end = true ->
  dropWhile p (ds ++ rest) = rest.
Proof.
  intros Hall Hrest. induction ds as [|x ds IH]; cbn [app dropWhile].
  - destruct rest as [|c rest]; cbn [dropWhile]; auto.
    apply negb_true_iff in Hrest. now rewrite Hrest.
  - cbn [forallb] in Hall. apply andb_true_iff in Hall as [Hx Hall].
    rewrite Hx. auto.
Qed.

(** A non-empty run of class characters followed by something else:
    [[class]+] takes the whole run first. *)
Lemma firstMatch_Plus p (ds rest : jsstring) :
  ds <> [] -> forallb p ds = true ->
  match rest with [] => true | c :: _ => negb (p c) end = true ->
  firstMatch (Plus p) (ds ++ rest) ([], rest).
Proof.
  intros Hne Hall Hrest.
  destruct ds as [|d ds]; [contradiction|].
  cbn [forallb] in Hall. apply andb_true_iff in Hall as [Hd Hall].
  unfold firstMatch. cbn [attempts app]. rewrite Hd.
  destruct (starGreedy_head p (ds ++ rest)) as [t H]. rewrite H. cbn [map].
  rewrite (dropWhile_run p ds rest Hall Hrest). eexists. reflexivity.
Qed.

Lemma attempts_Plus_fails p (s : jsstring) :
  match s with [] => true | c :: _ => negb (p c) end = true ->
  attempts (Plus p) s = [].
Proof.
  destruct s as [|c s]; cbn [attempts]; auto.
  intros H. apply negb_true_iff in H. now rewrite H.
Qed.

End MatcherFacts.

(** ** The sanitizer *)

Section SanitizerFacts.

Lemma dropWhile_app_stop p (b rest : jsstring) :
  match rest with [] => true | c :: _ => negb (p c) end = true ->
  dropWhile p (b ++ rest) = dropWhile p b ++ rest.
Proof.
  intros Hrest. induction b as [|x b IH]; cbn [app dropWhile].
  - destruct rest as [|c rest]; cbn [dropWhile]; auto.
    apply negb_true_iff in Hrest. now rewrite Hrest.
  - destruct (p x); auto.
Qed.

Lemma dropWhile_suffix p (b : jsstring) : exists pre, b = pre ++ dropWhile p b.
Proof.
  induction b as [|x b [pre IH]]; cbn [dropWhile].
  - now exists [].
  - destruct (p x).
    + exists (x :: pre). cbn [app]. now rewrite <- IH.
    + now exists [].
Qed.

Lemma afterFenceTag_suffix (b : jsstring) : exists pre, b = pre ++ afterFenceTag b.
Proof.
  unfold afterFenceTag. destruct (dropWhile_suffix isAsciiLetter b) as [pre E].
  destruct (dropWhile isAsciiLetter b) as [|c r] eqn:D.
  - exists pre. now rewrite app_nil_r in *.
  - destruct (c =? NL) eqn:Hc.
    + exists (pre ++ [c]). now rewrite <- app_assoc.
    + now exists pre.
Qed.

(** The optional newline of the opening fence. *)
Lemma firstMatch_optNewline (b rest : jsstring) :
  match rest with [] => true | c :: _ => negb (c =? 10) end = true ->
  firstMatch (Opt (Lit [NL]))
    (dropWhile isAsciiLetter b ++ rest) ([], afterFenceTag b ++ rest).
Proof.
  intros Hrest. unfold afterFenceTag.
  destruct (dropWhile isAsciiLetter b) as [|c r] eqn:D.
  - apply (firstMatch_Opt_skip (Lit [NL])). apply attempts_Lit_fails.
    destruct rest as [|c rest]; [reflexivity|].
    cbn [app startsWith]. apply negb_true_iff in Hrest.
    unfold NL. rewrite N.eqb_sym, Hrest. reflexivity.
  - destruct (c =? NL) eqn:Hc.
    + apply N.eqb_eq in Hc. subst c.
      apply firstMatch_Opt. apply (firstMatch_Lit [NL]).
    + apply (firstMatch_Opt_skip (Lit [NL])). apply attempts_Lit_fails.
      cbn [app startsWith]. rewrite N.eqb_sym, Hc. reflexivity.
Qed.

(** The lazy body: the shortest text up to a closing fence. *)
Lemma flat_map_starLazy_fence {X : Type} (H : jsstring -> list X) (b post : jsstring) :
  includes FENCE (b ++ [96; 96]) = false ->
  (forall s, startsWith FENCE s = false -> H s = []) ->
  exists t, flat_map H (starLazy anyChar (b ++ FENCE ++ post))
            = H (FENCE ++ post) ++ t.
Proof.
  intros Hb Hfail. induction b as [|c b IH].
  - cbn [app]. unfold FENCE at 1. cbn [app starLazy anyChar flat_map].
    eexists. reflexivity.
  - cbn [app starLazy anyChar flat_map].
    rewrite (Hfail (c :: b ++ FENCE ++ post)).
    + apply IH. apply (includes_cons FENCE c (b ++ [96; 96])). exact Hb.
    + apply (no_fence_inside c b (FENCE ++ post)). exact Hb.
Qed.

Lemma flat_map_map_map {X Y Z W : Type} (F : Z -> list W) (G : Y -> Z) (K : X -> Y)
      (l : list X) :
  flat_map F (map G (map K l)) = flat_map (fun x => F (G (K x))) l.
Proof. induction l as [|x l IH]; cbn [map flat_map]; [reflexivity|now rewrite IH]. Qed.

Lemma firstMatch_lazyBody (b post : jsstring) :
  includes FENCE (b ++ [96; 96]) = false ->
  firstMatch (Seq (Group (Star false anyChar)) (Lit FENCE))
    (b ++ FENCE ++ post) ([Some b], post).
Proof.
  intros Hb. unfold firstMatch. cbn [attempts].
  rewrite flat_map_map_map.
  match goal with
  | |- exists _, flat_map ?H _ = _ =>
      destruct (flat_map_starLazy_fence H b post Hb) as [t Ht]
  end.
  - intros s Hs. now rewrite Hs.
  - rewrite Ht. rewrite startsWith_app, skipn_length_app, consumed_app.
    cbn [map app]. eexists. reflexivity.
Qed.

Lemma firstMatch_codeBlock (body post : jsstring) :
  includes FENCE (body ++ [96; 96]) = false ->
  firstMatch codeBlockRegex (FENCE ++ body ++ FENCE ++ post)
    ([Some (afterFenceTag body)], post).
Proof.
  intros Hb. unfold codeBlockRegex.
  apply (firstMatch_Seq _ _ _ [] (body ++ FENCE ++ post)); [apply firstMatch_Lit|].
  apply (firstMatch_Seq _ _ _ [] (dropWhile isAsciiLetter body ++ FENCE ++ post)).
  { rewrite <- dropWhile_app_stop by reflexivity. apply firstMatch_StarGreedy. }
  apply (firstMatch_Seq _ _ _ [] (afterFenceTag body ++ FENCE ++ post)).
  { apply firstMatch_optNewline. reflexivity. }
  apply firstMatch_lazyBody.
  destruct (afterFenceTag_suffix body) as [pre E].
  rewrite E, <- app_assoc in Hb. exact (includes_app_r _ _ _ Hb).
Qed.

Lemma execAll_unfold a r prev s :
  execAll a r prev 0 s =
  match matchAt a r prev s with
  | Some (caps, rest) =>
      caps :: match s with
              | [] => []
              | c :: s' => execAll a r (Some c) (length s - length rest - 1) s'
              end
  | None => match s with
            | [] => []
            | c :: s' => execAll a r (Some c) 0 s'
            end
  end.
Proof. destruct s; reflexivity. Qed.

Lemma replaceAll_unfold a r rep prev s :
  replaceAll a r rep prev 0 s =
  match matchAt a r prev s with
  | Some (_, rest) =>
      rep ++ match s with
             | [] => []
             | c :: s' =>
                 match (length s - length rest)%nat with
                 | O => c :: replaceAll a r rep (Some c) 0 s'
                 | S k => replaceAll a r rep (Some c) k s'
                 end
             end
  | None => match s with
            | [] => []
            | c :: s' => c :: replaceAll a r rep (Some c) 0 s'
            end
  end.
Proof. destruct s; reflexivity. Qed.

Lemma matchAt_Seq_Lit_fails a l r prev s :
  startsWith l s = false -> matchAt a (Seq (Lit l) r) prev s = None.
Proof.
  intros H. unfold matchAt, matchHere.
  rewrite (attempts_Seq_Lit_fails l r s H). now destruct (mayStart a prev).
Qed.

(** Without a fence there is no code block. *)
Lemma execAll_no_fence (l : jsstring) (r : regex) (s : jsstring) :
  includes l s = false ->
  forall prev, execAll Anywhere (Seq (Lit l) r) prev 0 s = [].
Proof.
  induction s as [|c s IH]; intros H prev; rewrite execAll_unfold;
    rewrite (matchAt_Seq_Lit_fails _ _ _ _ _ (includes_startsWith _ _ H)).
  - reflexivity.
  - apply IH. apply (includes_cons l c s H).
Qed.

(** Without a fence the fallback removes nothing. *)
Lemma replaceAll_no_fence (l : jsstring) (r : regex) (rep s : jsstring) :
  includes l s = false ->
  forall prev, replaceAll Anywhere (Seq (Lit l) r) rep prev 0 s = s.
Proof.
  induction s as [|c s IH]; intros H prev; rewrite replaceAll_unfold;
    rewrite (matchAt_Seq_Lit_fails _ _ _ _ _ (includes_startsWith _ _ H)).
  - reflexivity.
  - f_equal. apply IH. apply (includes_cons l c s H).
Qed.

(** The first code block of a text is the one behind its first fence. *)
Lemma execAll_first_block (pre rest : jsstring) (caps : captures) (left : jsstring) :
  includes FENCE (pre ++ [96; 96]) = false ->
  firstMatch codeBlockRegex (FENCE ++ rest) (caps, left) ->
  forall prev, exists t,
    execAll Anywhere codeBlockRegex prev 0 (pre ++ FENCE ++ rest) = caps :: t.
Proof.
  intros Hpre Hm. induction pre as [|c pre IH]; intros prev; rewrite execAll_unfold.
  - cbn [app]. unfold matchAt. cbn [mayStart].
    rewrite (firstMatch_matchHere _ _ _ Hm). eexists. reflexivity.
  - unfold codeBlockRegex at 1.
    rewrite matchAt_Seq_Lit_fails by (apply no_fence_inside; exact Hpre).
    cbn [app]. apply IH. apply (includes_cons FENCE c (pre ++ [96; 96])). exact Hpre.
Qed.

End SanitizerFacts.

(** C1, as the specification states it, fails: text without a fence is
    still trimmed, and loses a first line made of letters. *)
Lemma sanitize_clean_text_changes :
  ~ (forall T : jsstring,
        includes FENCE T = false -> cleanCodeResponse (Some T) = Some T).
Proof.
  intros H. specialize (H (lit "print(1)\n") eq_refl).
  vm_compute in H. discriminate H.
Qed.

(** C1 (amended): a text without fence delimiters that has no white space
    at either end, and whose first line is not made of letters and [#]
    only, is returned unchanged by the sanitizer. *)
Theorem sanitize_clean_text (T : jsstring) :
  includes FENCE T = false ->
  trim T = T ->
  test AtStart languageLineRegex (trim (hd [] (split NL T))) = false ->
  cleanCodeResponse (Some T) = Some T.
Proof.
  intros Hfence Htrim Hline.
  destruct T as [|c T]; [reflexivity|].
  unfold cleanCodeResponse.
  unfold codeBlockRegex. rewrite (execAll_no_fence FENCE _ _ Hfence). cbn [map].
  unfold openingFenceRegex, fenceRegex.
  rewrite (replaceAll_no_fence FENCE _ _ _ Hfence).
  rewrite (replaceAll_no_fence FENCE _ _ _ Hfence).
  rewrite Htrim. unfold dropLanguageLine. rewrite Hline, andb_false_r.
  reflexivity.
Qed.

Lemma sanitize_clean_text_witness :
  cleanCodeResponse (Some (lit "let x = 1;\nlet y = 2;"))
  = Some (lit "let x = 1;\nlet y = 2;").
Proof.
  apply (sanitize_clean_text (lit "let x = 1;\nlet y = 2;"));
    vm_compute; reflexivity.
Defined.

(** C6, as the specification states it, fails: the body is also trimmed. *)
Lemma sanitize_fenced_block_not_body :
  ~ (forall pre body post : jsstring,
        includes FENCE (pre ++ [96; 96]) = false ->
        includes FENCE (body ++ [96; 96]) = false ->
        includes FENCE post = false ->
        cleanCodeResponse (Some (pre ++ FENCE ++ body ++ FENCE ++ post))
        = Some (specBlockBody body)).
Proof.
  intros H.
  specialize (H [] (lit "js\nlet x = 1;\n") [] eq_refl eq_refl eq_refl).
  vm_compute in H. discriminate H.
Qed.

(** C6 (amended): for a text whose first fence opens a block with body
    [body], the sanitizer returns the body without the run of letters and
    the newline that follow the opening fence, trimmed; when the first line
    of that is made of letters and [#] only, the line is dropped and the
    rest trimmed again. *)
Theorem sanitize_fenced_block (pre body post : jsstring) :
  includes FENCE (pre ++ [96; 96]) = false ->
  includes FENCE (body ++ [96; 96]) = false ->
  cleanCodeResponse (Some (pre ++ FENCE ++ body ++ FENCE ++ post))
  = Some (dropLanguageLine (trim (afterFenceTag body))).
Proof.
  intros Hpre Hbody.
  destruct (execAll_first_block pre (body ++ FENCE ++ post) _ _ Hpre
              (firstMatch_codeBlock body post Hbody) None) as [t Ht].
  unfold cleanCodeResponse.
  destruct (pre ++ FENCE ++ body ++ FENCE ++ post) as [|c T] eqn:E.
  - destruct pre; discriminate E.
  - rewrite Ht. reflexivity.
Qed.

Lemma sanitize_fenced_block_witness :
  cleanCodeResponse
    (Some (lit "Here you go:\n" ++ FENCE ++ lit "js\nlet x = 1;\n" ++ FENCE ++ lit "\nDone."))
  = Some (lit "let x = 1;").
Proof.
  apply (sanitize_fenced_block (lit "Here you go:\n") (lit "js\nlet x = 1;\n") (lit "\nDone."));
    vm_compute; reflexivity.
Defined.

(** ** Numbers printed and parsed *)

Section NumberFacts.

Lemma parse_digits_acc (d : Decimal.uint) (acc : positive) :
  fold_left parseStep (digitsOfUint d) (N.pos acc) = N.pos (Pos.of_uint_acc d acc).
Proof.
  revert acc. induction d; intros acc; cbn [digitsOfUint fold_left Pos.of_uint_acc];
    try reflexivity;
    match goal with
    | |- fold_left _ _ ?x = N.pos (Pos.of_uint_acc _ ?y) =>
        replace x with (N.pos y) by (unfold parseStep; lia)
    end; apply IHd.
Qed.

Lemma parse_digits (d : Decimal.uint) :
  fold_left parseStep (digitsOfUint d) 0 = N.of_uint d.
Proof.
  induction d; cbn [digitsOfUint fold_left]; try reflexivity;
    try (match goal with
         | |- fold_left _ _ ?x = N.of_uint (_ ?d) =>
             let v := eval vm_compute in x in change x with v
         end; first [ exact IHd | apply parse_digits_acc ]).
Qed.

Lemma parseInt_toString (n : N) : parseInt (toString n) = n.
Proof.
  unfold parseInt, toString. rewrite parse_digits. apply DecimalN.Unsigned.of_to.
Qed.

Lemma digitsOfUint_digits (d : Decimal.uint) : forallb isDigit (digitsOfUint d) = true.
Proof. induction d; cbn [digitsOfUint forallb]; auto. Qed.

Lemma toString_digits (n : N) : forallb isDigit (toString n) = true.
Proof. apply digitsOfUint_digits. Qed.

Lemma toString_nonempty (n : N) : toString n <> [].
Proof.
  unfold toString. destruct n as [|p]; [discriminate|].
  cbn [N.to_uint]. pose proof (DecimalPos.Unsigned.to_uint_nonnil p) as H.
  destruct (Pos.to_uint p); try discriminate. contradiction.
Qed.

Lemma toString_truthy (n : N) : truthy (Some (toString n)) = true.
Proof.
  pose proof (toString_nonempty n). now destruct (toString n).
Qed.

End NumberFacts.

(** ** The diff synthesizer *)

Section DiffFacts.

Lemma firstMatch_eq r s x y : firstMatch r s x -> x = y -> firstMatch r s y.
Proof. now intros H <-. Qed.

Lemma firstMatch_digits (n : N) (rest : jsstring) :
  match rest with [] => true | c :: _ => negb (isDigit c) end = true ->
  firstMatch (Group (Plus isDigit)) (toString n ++ rest) ([Some (toString n)], rest).
Proof.
  intros Hrest. eapply firstMatch_eq.
  - apply firstMatch_Group.
    apply (firstMatch_Plus isDigit (toString n) rest);
      [apply toString_nonempty | apply toString_digits | exact Hrest].
  - now rewrite consumed_app.
Qed.

Lemma attempts_Group_fails r s : attempts r s = [] -> attempts (Group r) s = [].
Proof. intros H. cbn [attempts]. now rewrite H. Qed.

(** The optional count of a header: [,?(\d+)?]. *)
Lemma firstMatch_count (count : option N) (rest : jsstring) :
  match rest with [] => true | c :: _ => negb (isDigit c) && negb (c =? 44) end = true ->
  firstMatch (Seq (Opt (Lit (lit ","))) (Opt (Group (Plus isDigit))))
    (countText count ++ rest) ([option_map toString count], rest).
Proof.
  intros Hrest. destruct count as [n|]; cbn [countText option_map].
  - rewrite <- app_assoc.
    apply (firstMatch_Seq _ _ _ [] (toString n ++ rest) [Some (toString n)]).
    + apply firstMatch_Opt. apply firstMatch_Lit.
    + apply firstMatch_Opt. apply firstMatch_digits.
      destruct rest as [|c rest]; [reflexivity|].
      now apply andb_true_iff in Hrest.
  - cbn [app].
    apply (firstMatch_Seq _ _ _ [] rest [None]).
    + apply (firstMatch_Opt_skip (Lit (lit ","))). apply attempts_Lit_fails.
      destruct rest as [|c rest]; [reflexivity|].
      apply andb_true_iff in Hrest as [_ Hc]. apply negb_true_iff in Hc.
      cbn [lit startsWith]. change (N_of_ascii ",") with 44.
      now rewrite N.eqb_sym, Hc.
    + apply (firstMatch_Opt_skip (Group (Plus isDigit))).
      apply attempts_Group_fails. apply attempts_Plus_fails.
      destruct rest as [|c rest]; [reflexivity|].
      now apply andb_true_iff in Hrest.
Qed.

Lemma Seq_assoc_first r1 r2 r3 s x :
  firstMatch (Seq (Seq r1 r2) r3) s x -> firstMatch (Seq r1 (Seq r2 r3)) s x.
Proof.
  unfold firstMatch. cbn [attempts].
  intros [t H]. exists t. rewrite <- H. clear H.
  induction (attempts r1 s) as [|[c1 s1] l IH]; cbn [flat_map]; [reflexivity|].
  rewrite flat_map_app, <- IH. f_equal.
  clear IH. induction (attempts r2 s1) as [|[c2 s2] l2 IH2]; cbn [flat_map map];
    [reflexivity|].
  rewrite map_app, <- IH2. f_equal.
  rewrite map_map. apply map_ext. intros [c3 s3]. now rewrite app_assoc.
Qed.

Lemma firstMatch_hunkHeader a b c d :
  firstMatch hunkHeaderRegex (hunkHeader a b c d)
    ([Some (toString a); option_map toString b;
      Some (toString c); option_map toString d], []).
Proof.
  unfold hunkHeaderRegex, hunkHeader.
  apply (firstMatch_Seq _ _ _ [] _ _ _ (firstMatch_Lit _ _)).
  apply (firstMatch_Seq _ _ _ [Some (toString a)]
           (countText b ++ lit " +" ++ toString c ++ countText d ++ lit " @@")).
  { apply firstMatch_digits. now destruct b. }
  apply Seq_assoc_first.
  apply (firstMatch_Seq _ _ _ [option_map toString b]
           (lit " +" ++ toString c ++ countText d ++ lit " @@")).
  { apply firstMatch_count. reflexivity. }
  apply (firstMatch_Seq _ _ _ [] _ _ _ (firstMatch_Lit _ _)).
  apply (firstMatch_Seq _ _ _ [Some (toString c)] (countText d ++ lit " @@")).
  { apply firstMatch_digits. now destruct d. }
  apply Seq_assoc_first.
  apply (firstMatch_Seq _ _ _ [option_map toString d] (lit " @@")).
  { apply firstMatch_count. reflexivity. }
  apply (firstMatch_Seq _ _ _ [] [] [] []).
  - rewrite <- (app_nil_r (lit " @@")) at 2. apply firstMatch_Lit.
  - apply firstMatch_Eol.
Qed.

Lemma searchFrom_unfold a r prev s :
  searchFrom a r prev s =
  match matchAt a r prev s with
  | Some (caps, rest) => Some (consumed s rest, caps, rest)
  | None => match s with
            | [] => None
            | c :: s' => searchFrom a r (Some c) s'
            end
  end.
Proof. destruct s; reflexivity. Qed.

Lemma replaceFirstWith_unfold a r f prev s :
  replaceFirstWith a r f prev s =
  match matchAt a r prev s with
  | Some (caps, rest) => f (consumed s rest) caps ++ rest
  | None => match s with
            | [] => []
            | c :: s' => c :: replaceFirstWith a r f (Some c) s'
            end
  end.
Proof. destruct s; reflexivity. Qed.

Lemma countStr_countText (count : option N) :
  (if truthy (option_map toString count)
   then lit "," ++ match option_map toString count with Some d => d | None => [] end
   else []) = countText count.
Proof.
  destruct count as [n|]; cbn [option_map countText]; [|reflexivity].
  now rewrite toString_truthy.
Qed.

(** A hunk header line is rewritten with both starts raised by 4. *)
Lemma cleanLine_hunkHeader (i : nat) a b c d :
  cleanLine i (hunkHeader a b c d) = [hunkHeader (a + 4) b (c + 4) d].
Proof.
  unfold cleanLine.
  replace (startsWith (lit "diff --git") (hunkHeader a b c d)) with false
    by reflexivity.
  rewrite andb_false_r.
  pose proof (firstMatch_matchHere _ _ _ (firstMatch_hunkHeader a b c d)) as Hm.
  unfold test. rewrite searchFrom_unfold. unfold matchAt at 1. cbn [mayStart].
  rewrite Hm. rewrite replaceFirstWith_unfold. unfold matchAt. cbn [mayStart].
  rewrite Hm. rewrite app_nil_r.
  unfold fixHunkHeader, group. cbn [Nat.sub nth].
  rewrite !parseInt_toString, !countStr_countText. reflexivity.
Qed.

Lemma cleanLines_later (i : nat) (lines : list jsstring) :
  cleanLines (S i) lines = map fixLine lines.
Proof.
  revert i. induction lines as [|l lines IH]; intros i; cbn [cleanLines map];
    [reflexivity|].
  rewrite IH. unfold cleanLine, fixLine. cbn [Nat.eqb andb].
  destruct (test AtStart hunkHeaderRegex l); reflexivity.
Qed.

Lemma cleanLines_patchLines (patch : jsstring) :
  cleanLines 0 (split NL patch) = map fixLine (patchLines patch).
Proof.
  unfold patchLines. destruct (split NL patch) as [|first rest]; [reflexivity|].
  cbn [cleanLines]. rewrite cleanLines_later. unfold cleanLine, fixLine.
  cbn [Nat.eqb andb].
  destruct (startsWith (lit "diff --git") first); [reflexivity|].
  cbn [map]. destruct (test AtStart hunkHeaderRegex first); reflexivity.
Qed.

Lemma fixLine_hunkHeader a b c d :
  fixLine (hunkHeader a b c d) = hunkHeader (a + 4) b (c + 4) d.
Proof.
  pose proof (cleanLine_hunkHeader 1 a b c d) as H. unfold cleanLine in H.
  cbn [Nat.eqb andb] in H. unfold fixLine.
  destruct (test AtStart hunkHeaderRegex (hunkHeader a b c d));
    exact (f_equal (hd []) H).
Qed.

End DiffFacts.


(** C4: for a new file (no old content, new content not empty) the diff
    is the four lines of the file header, then one hunk header
    [@@ -0,0 +1,L @@] with [L] the number of lines the new content splits
    into at its newlines, then every one of these lines with [+] in front;
    no other line starts like a hunk header. *)
Theorem diff_of_new_file createPatch (content filePath : jsstring) :
  content <> [] ->
  let lines := split NL content in
  let fileName := fileNameOf filePath in
  let header :=
    [ lit "diff --git a/" ++ fileName ++ lit " b/" ++ fileName;
      lit "new file mode 100644";
      lit "--- /dev/null";
      lit "+++ b/" ++ fileName ] in
  let body := map (fun line => lit "+" ++ line) lines in
  generateGitDiff createPatch None (Some content) filePath
  = Some (join [NL]
            (header
             ++ [lit "@@ -0,0 +1," ++ toString (N.of_nat (length lines)) ++ lit " @@"]
             ++ body))
  /\ length body = length lines
  /\ Forall (fun line => startsWith (lit "+") line = true) body
  /\ Forall (fun line => startsWith (lit "@@") line = false) (header ++ body).
Proof.
  intros Hne lines fileName header body.
  destruct content as [|c content]; [contradiction|].
  split; [reflexivity|]. split; [apply length_map|]. split.
  - apply Forall_forall. intros l Hl. apply in_map_iff in Hl as [x [<- _]]. reflexivity.
  - apply Forall_app. split.
    + repeat constructor.
    + apply Forall_forall. intros l Hl. apply in_map_iff in Hl as [x [<- _]]. reflexivity.
Qed.

Lemma diff_of_new_file_witness :
  generateGitDiff exampleCreatePatch None (Some (lit "print('hello world')"))
    (lit "/tmp/x.py")
  = Some (lit "diff --git a/x.py b/x.py\nnew file mode 100644\n--- /dev/null\n+++ b/x.py\n@@ -0,0 +1,1 @@\n+print('hello world')").
Proof.
  exact (proj1 (diff_of_new_file exampleCreatePatch (lit "print('hello world')")
                  (lit "/tmp/x.py") ltac:(discriminate))).
Defined.

(** C5: in the diff of a modification, every line of the patch that is a
    hunk header [@@ -a,b +c,d @@] is returned as [@@ -(a+4),b +(c+4),d @@]:
    both starts raised by 4, the counts as they were.  Lines that are not
    hunk headers are returned as they are.  The starts are taken within the
    range in which JavaScript adds integers exactly. *)
Theorem diff_raises_hunk_starts createPatch (oldContent newContent filePath : jsstring) :
  oldContent <> [] -> newContent <> [] ->
  let fileName := fileNameOf filePath in
  let patch := createPatch fileName oldContent newContent
                 (lit "a/" ++ fileName) (lit "b/" ++ fileName) in
  exists out,
    generateGitDiff createPatch (Some oldContent) (Some newContent) filePath
    = Some (join [NL] out)
    /\ Forall2
         (fun line line' =>
            (forall a b c d,
                a + 4 <= MAX_SAFE_INTEGER -> c + 4 <= MAX_SAFE_INTEGER ->
                line = hunkHeader a b c d ->
                line' = hunkHeader (a + 4) b (c + 4) d)
            /\ (test AtStart hunkHeaderRegex line = false -> line' = line))
         (patchLines patch) out.
Proof.
  intros Hold Hnew fileName patch.
  destruct oldContent as [|o oldContent]; [contradiction|].
  destruct newContent as [|n newContent]; [contradiction|].
  exists (map fixLine (patchLines patch)). split.
  - unfold generateGitDiff. fold fileName. fold patch.
    now rewrite cleanLines_patchLines.
  - induction (patchLines patch) as [|l ls IH]; cbn [map]; constructor; [|exact IH].
    split.
    + intros a b c d _ _ ->. apply fixLine_hunkHeader.
    + intros Ht. unfold fixLine. now rewrite Ht.
Qed.

Lemma diff_raises_hunk_starts_witness :
  exists out,
    generateGitDiff exampleCreatePatch (Some (lit "a\nb\nc\n")) (Some (lit "a\nb\nd\n"))
      (lit "/tmp/x.txt")
    = Some (join [NL] out)
    /\ Forall2
         (fun line line' =>
            (forall a b c d,
                a + 4 <= MAX_SAFE_INTEGER -> c + 4 <= MAX_SAFE_INTEGER ->
                line = hunkHeader a b c d ->
                line' = hunkHeader (a + 4) b (c + 4) d)
            /\ (test AtStart hunkHeaderRegex line = false -> line' = line))
         (patchLines examplePatch) out.
Proof.
  apply (diff_raises_hunk_starts exampleCreatePatch
           (lit "a\nb\nc\n") (lit "a\nb\nd\n") (lit "/tmp/x.txt"));
    discriminate.
Defined.

Example example_patch_fixed :
  generateGitDiff exampleCreatePatch (Some (lit "a\nb\nc\n")) (Some (lit "a\nb\nd\n"))
    (lit "/tmp/x.txt")
  = Some (lit "Index: x.txt\n===================================================================\n--- x.txt\ta/x.txt\n+++ x.txt\tb/x.txt\n@@ -5,3 +5,3 @@\n a\n b\n-c\n+d\n").
Proof. vm_compute. reflexivity. Qed.

(** ** Runs of computations *)

Section RunFacts.

Context {A B : Type}.
Variable w : World.

Lemma run_bind (m : Prog A) (f : A -> Prog B) (past : list Event) :
  run w (bind m f) past =
  match run w m past with
  | (evs, inl e) => (evs, inl e)
  | (evs, inr a) =>
      let '(evs', r) := run w (f a) (past ++ evs) in (evs ++ evs', r)
  end.
Proof.
  revert past.
  induction m as [a|e|p k IH|d k IH|p c k IH|key req k IH|key req k IH];
    intros past; cbn [bind run].
  - rewrite app_nil_r. now destruct (run w (f a) past).
  - reflexivity.
  - rewrite IH. destruct (run w (k _) _) as [evs [e|a]]; [reflexivity|].
    rewrite <- app_assoc. cbn [app]. now destruct (run w (f a) _).
  - rewrite IH. destruct (run w (k _) _) as [evs [e|a]]; [reflexivity|].
    rewrite <- app_assoc. cbn [app]. now destruct (run w (f a) _).
  - rewrite IH. destruct (run w (k _) _) as [evs [e|a]]; [reflexivity|].
    rewrite <- app_assoc. cbn [app]. now destruct (run w (f a) _).
  - rewrite IH. destruct (run w (k _) _) as [evs [e|a]]; [reflexivity|].
    rewrite <- app_assoc. cbn [app]. now destruct (run w (f a) _).
  - rewrite IH. destruct (run w (k _) _) as [evs [e|a]]; [reflexivity|].
    rewrite <- app_assoc. cbn [app]. now destruct (run w (f a) _).
Qed.

Lemma run_tryCatch (m : Prog A) (h : JsError -> Prog A) (past : list Event) :
  run w (tryCatch m h) past =
  match run w m past with
  | (evs, inr a) => (evs, inr a)
  | (evs, inl e) =>
      let '(evs', r) := run w (h e) (past ++ evs) in (evs ++ evs', r)
  end.
Proof.
  revert past.
  induction m as [a|e|p k IH|d k IH|p c k IH|key req k IH|key req k IH];
    intros past; cbn [tryCatch run].
  - reflexivity.
  - rewrite app_nil_r. now destruct (run w (h e) past).
  - rewrite IH. destruct (run w (k _) _) as [evs [e|a]]; [|reflexivity].
    rewrite <- app_assoc. cbn [app]. now destruct (run w (h e) _).
  - rewrite IH. destruct (run w (k _) _) as [evs [e|a]]; [|reflexivity].
    rewrite <- app_assoc. cbn [app]. now destruct (run w (h e) _).
  - rewrite IH. destruct (run w (k _) _) as [evs [e|a]]; [|reflexivity].
    rewrite <- app_assoc. cbn [app]. now destruct (run w (h e) _).
  - rewrite IH. destruct (run w (k _) _) as [evs [e|a]]; [|reflexivity].
    rewrite <- app_assoc. cbn [app]. now destruct (run w (h e) _).
  - rewrite IH. destruct (run w (k _) _) as [evs [e|a]]; [|reflexivity].
    rewrite <- app_assoc. cbn [app]. now destruct (run w (h e) _).
Qed.

End RunFacts.

(** ** The write tool *)

Section ToolFacts.

Variable w : World.
Variable config : Config.
Variables HOME cwd : jsstring.
Variable createPatch :
  jsstring -> jsstring -> jsstring -> jsstring -> jsstring -> jsstring.

(** The steps of a successful call, in order: read the file, obtain the
    completion, write the file; the result is computed from what was read
    and what was obtained. *)
Lemma run_handleCallTool (past : list Event) (fp pr : jsstring)
      (ctx : option (list jsstring))
      (existing result : option jsstring) (written : bool)
      (evs1 evs2 evs3 : list Event) :
  fp <> [] -> pr <> [] ->
  run w (readFileContent HOME cwd fp) past = (evs1, inr existing) ->
  run w (callCerebras config HOME cwd pr [] fp None
           (match ctx with Some l => l | None => [] end)) (past ++ evs1)
  = (evs2, inr result) ->
  run w (writeFileContent HOME cwd fp (cleanCodeResponse result))
        ((past ++ evs1) ++ evs2)
  = (evs3, inr written) ->
  run w (handleCallTool config HOME cwd createPatch
           (mkCall (lit "write") (Some (mkArguments (Some fp) (Some pr) ctx)))) past
  = (evs1 ++ evs2 ++ evs3, inr (responseContent createPatch existing result fp)).
Proof.
  intros Hfp Hpr Hread Hgen Hwrite.
  destruct fp as [|f fp]; [contradiction|].
  destruct pr as [|p pr]; [contradiction|].
  unfold handleCallTool.
  assert (E : JS.eqb (lit "write") (lit "write") = true) by reflexivity.
  cbn [name arguments Server.prompt Server.file_path context_files truthy negb].
  rewrite E.
  rewrite run_tryCatch, run_bind, Hread.
  rewrite run_bind, Hgen.
  rewrite run_bind, Hwrite.
  cbn [run]. rewrite !app_nil_r.
  unfold responseContent.
  destruct existing as [existing|]; cbn [andb negb]; [|reflexivity].
  destruct (truthy (Some existing)); reflexivity.
Qed.

End ToolFacts.

(** ** How often a provider is requested *)

Section RequestBounds.

Lemma Bounded_weaken {A : Type} (P Q : A -> Prop) (n m : nat) (p : Prog A) :
  Bounded P n p -> (forall a, P a -> Q a) -> (n <= m)%nat -> Bounded Q m p.
Proof.
  intros H. revert m. induction H; intros m' HPQ Hle.
  - constructor. auto.
  - constructor.
  - constructor. auto.
  - constructor. auto.
  - constructor. auto.
  - constructor. auto.
  - destruct m' as [|m']; [lia|]. constructor. intros r. apply H0; [auto|lia].
Qed.

Lemma Bounded_bind {A B : Type} (P : A -> Prop) (Q : B -> Prop) (n k : nat)
      (m : Prog A) (f : A -> Prog B) :
  Bounded P n m -> (forall a, P a -> Bounded Q k (f a)) ->
  Bounded Q (n + k) (bind m f).
Proof.
  intros H Hf. induction H; cbn [bind].
  - apply (Bounded_weaken Q Q k); [auto|auto|lia].
  - constructor.
  - constructor. auto.
  - constructor. auto.
  - constructor. auto.
  - constructor. auto.
  - cbn [Nat.add]. constructor. auto.
Qed.

Lemma Bounded_tryCatch {A : Type} (P : A -> Prop) (n k : nat)
      (m : Prog A) (h : JsError -> Prog A) :
  Bounded P n m -> (forall e, Bounded P k (h e)) ->
  Bounded P (n + k) (tryCatch m h).
Proof.
  intros H Hh. induction H; cbn [tryCatch].
  - constructor. auto.
  - apply (Bounded_weaken P P k); [auto|auto|lia].
  - constructor. auto.
  - constructor. auto.
  - constructor. auto.
  - constructor. auto.
  - cbn [Nat.add]. constructor. auto.
Qed.

(** A computation bounded by [n] requests OpenRouter at most [n] times,
    in every world. *)
Lemma Bounded_run {A : Type} (P : A -> Prop) (n : nat) (p : Prog A) :
  Bounded P n p ->
  forall (w : World) (past : list Event),
    (openRouterCalls (fst (run w p past)) <= n)%nat.
Proof.
  unfold openRouterCalls.
  intros H. induction H as [n a Ha|n e|n p k Hk IH|n d k Hk IH|n p c k Hk IH
                            |n key req k Hk IH|n key req k Hk IH];
    intros w past; cbn [run].
  - cbn [fst filter length]. lia.
  - cbn [fst filter length]. lia.
  - specialize (IH (onReadFile w past p) w (past ++ [EvReadFile p])).
    destruct (run w (k _) _) as [evs res].
    cbn [fst filter isOpenRouterCall length] in *. lia.
  - specialize (IH (onMkdir w past d) w (past ++ [EvMkdir d])).
    destruct (run w (k _) _) as [evs res].
    cbn [fst filter isOpenRouterCall length] in *. lia.
  - specialize (IH (onWriteFile w past p c) w (past ++ [EvWriteFile p c])).
    destruct (run w (k _) _) as [evs res].
    cbn [fst filter isOpenRouterCall length] in *. lia.
  - specialize (IH (onCerebras w past key req) w (past ++ [EvCerebras key req])).
    destruct (run w (k _) _) as [evs res].
    cbn [fst filter isOpenRouterCall length] in *. lia.
  - specialize (IH (onOpenRouter w past key req) w (past ++ [EvOpenRouter key req])).
    destruct (run w (k _) _) as [evs res].
    cbn [fst filter isOpenRouterCall length] in *. lia.
Qed.

Variable config : Config.
Variables HOME cwd : jsstring.

Lemma readFileContent_bounded (filePath : jsstring) :
  Bounded (fun _ => True) 0 (readFileContent HOME cwd filePath).
Proof.
  unfold readFileContent, fsReadFile. cbn [bind tryCatch]. constructor.
  intros [e|c]; cbn [bind tryCatch]; [|now constructor].
  destruct (code e) as [c|]; [destruct (JS.eqb c (lit "ENOENT"))|];
    now constructor.
Qed.

Lemma appendContextFiles_bounded (files : list jsstring) (contextContent : jsstring) :
  Bounded (fun _ => True) 0 (appendContextFiles HOME cwd contextContent files).
Proof.
  revert contextContent. induction files as [|f files IH]; intros contextContent;
    cbn [appendContextFiles]; [now constructor|].
  apply (Bounded_bind (fun _ => True) _ 0 0); [|intros a _; apply IH].
  apply (Bounded_tryCatch _ 0 0); [|intros e; now constructor].
  apply (Bounded_bind (fun _ => True) _ 0 0); [apply readFileContent_bounded|].
  intros content _. destruct (truthy content); now constructor.
Qed.

Lemma buildRequest_bounded modelName prompt context outputFile language contextFiles :
  Bounded (fun _ => True) 0
    (buildRequest config HOME cwd modelName prompt context outputFile language
       contextFiles).
Proof.
  unfold buildRequest.
  apply (Bounded_bind (fun _ => True) _ 0 0).
  - destruct contextFiles as [|f files]; [now constructor|].
    destruct (filterContextFiles cwd outputFile (f :: files)) as [|g kept];
      [now constructor|].
    apply (Bounded_bind (fun _ => True) _ 0 0);
      [apply appendContextFiles_bounded|intros; now constructor].
  - intros fullPrompt _.
    apply (Bounded_bind (fun _ => True) _ 0 0);
      [apply readFileContent_bounded|intros; now constructor].
Qed.

Lemma callOpenRouter_bounded prompt context outputFile language contextFiles :
  Bounded (fun _ => True) 1
    (callOpenRouter config HOME cwd prompt context outputFile language contextFiles).
Proof.
  unfold callOpenRouter.
  apply (Bounded_bind (fun promise => Bounded (fun _ => True) 1 promise) _ 0 1);
    [|auto].
  apply (Bounded_tryCatch _ 0 0); [|intros e; now constructor].
  destruct (negb (truthy (openRouterApiKey config))); [now constructor|].
  apply (Bounded_bind (fun _ => True) _ 0 0); [apply buildRequest_bounded|].
  intros requestData _. constructor. constructor.
  intros o. unfold settle.
  destruct o as [statusCode [msg|choice0 errorMessage]|msg]; try now constructor.
  destruct (statusCode =? 200); [destruct choice0|]; now constructor.
Qed.

(** In every world, a call of [callCerebras] requests OpenRouter at most
    twice. *)
Lemma callCerebras_bounded prompt context outputFile language contextFiles :
  Bounded (fun _ => True) 2
    (callCerebras config HOME cwd prompt context outputFile language contextFiles).
Proof.
  unfold callCerebras.
  apply (Bounded_tryCatch _ 1 1).
  - destruct (negb (truthy (cerebrasApiKey config)));
      [apply callOpenRouter_bounded|].
    apply (Bounded_bind (fun _ => True) _ 0 1); [apply buildRequest_bounded|].
    intros requestData _. cbn [tryCatch]. constructor. intros o.
    assert (Hh : forall error : JsError,
               Bounded (fun _ : option jsstring => True) 1
                 (if negb (truthy (openRouterApiKey config))
                  then Throw (Error (lit "Cerebras failed and no OpenRouter fallback available. Cerebras error: " ++ message error))
                  else tryCatch
                         (callOpenRouter config HOME cwd prompt context outputFile
                            language contextFiles)
                         (fun openRouterError =>
                            Throw (Error (lit "Both Cerebras and OpenRouter failed. Cerebras error: "
                                          ++ message error ++ lit ". OpenRouter error: "
                                          ++ message openRouterError))))).
    { intros error. destruct (negb (truthy (openRouterApiKey config)));
        [now constructor|].
      apply (Bounded_tryCatch _ 1 0);
        [apply callOpenRouter_bounded|intros; now constructor]. }
    apply (Bounded_tryCatch _ 0 1); [|exact Hh].
    unfold settleCerebras, settle.
    destruct o as [[statusCode [msg|choice0 errorMessage]|msg]|]; try now constructor.
    destruct (statusCode =? 200); [destruct choice0|]; now constructor.
  - intros error. destruct (negb (truthy (openRouterApiKey config)));
      [now constructor|].
    apply (Bounded_tryCatch _ 1 0);
      [apply callOpenRouter_bounded|intros; now constructor].
Qed.

Lemma callCerebras_openRouter_calls (w : World) (past : list Event)
      prompt context outputFile language contextFiles :
  (openRouterCalls
     (fst (run w (callCerebras config HOME cwd prompt context outputFile language
                    contextFiles) past)) <= 2)%nat.
Proof. apply (Bounded_run _ _ _ (callCerebras_bounded _ _ _ _ _)). Qed.

(** What the filter of the context files lets through does not resolve to
    the path the output file resolves to. *)
Lemma filterContextFiles_sound (outputFile file : jsstring) (contextFiles : list jsstring) :
  In file (filterContextFiles cwd outputFile contextFiles) ->
  Path.resolve cwd file <> Path.resolve cwd outputFile.
Proof.
  unfold filterContextFiles. intros H. apply filter_In in H as [_ H].
  apply negb_true_iff in H. unfold JS.eqb in H.
  now destruct (list_eq_dec N.eq_dec (Path.resolve cwd file) (Path.resolve cwd outputFile)).
Qed.

End RequestBounds.

(** ** The tool: the properties of the specification *)

(** C2 fails on the code: when the OpenRouter attempt fails, the error it
    raises is thrown inside the outer [try] of [callCerebras], whose [catch]
    calls OpenRouter again.  With both keys set and both providers failing,
    and likewise with only the OpenRouter key set, OpenRouter is requested
    twice. *)
Theorem openRouter_requested_twice :
  openRouterCalls
    (fst (run (sampleWorld [] (Some serverError) serverError)
            (callCerebras bothKeys (lit "/home/u") (lit "/work")
               (lit "print hello world") [] (lit "/tmp/x.py") None []) [])) = 2%nat
  /\ openRouterCalls
       (fst (run (sampleWorld [] None serverError)
               (callCerebras openRouterOnly (lit "/home/u") (lit "/work")
                  (lit "print hello world") [] (lit "/tmp/x.py") None []) [])) = 2%nat.
Proof. split; vm_compute; reflexivity. Qed.



(** C7: a write call without arguments, or whose [file_path] or [prompt]
    is missing or empty, throws at once: the computation is a bare [throw],
    so in every world it ends in an error without reading or writing a file
    and without a request to a provider. *)
Theorem write_rejects_missing_argument
        (w : World) (config : Config) (HOME cwd : jsstring) createPatch
        (past : list Event) (args : option ToolArguments) :
  match args with
  | None => True
  | Some a => truthy (file_path a) = false \/ truthy (prompt a) = false
  end ->
  exists error,
    handleCallTool config HOME cwd createPatch (mkCall (lit "write") args)
    = Throw error
    /\ run w (handleCallTool config HOME cwd createPatch (mkCall (lit "write") args))
           past
       = ([], inl error).
Proof.
  intros Hargs.
  assert (E : JS.eqb (lit "write") (lit "write") = true) by reflexivity.
  unfold handleCallTool. cbn [name arguments]. rewrite E.
  destruct args as [a|].
  - destruct (truthy (prompt a)) eqn:Hp; cbn [negb].
    + destruct Hargs as [Hf|Hf]; [|discriminate Hf]. rewrite Hf. cbn [negb tryCatch].
      eexists. split; reflexivity.
    + cbn [tryCatch]. eexists. split; reflexivity.
  - cbn [tryCatch]. eexists. split; reflexivity.
Qed.

Lemma write_rejects_missing_argument_witness :
  exists error,
    handleCallTool bothKeys (lit "/home/u") (lit "/work") exampleCreatePatch
      (mkCall (lit "write")
         (Some (mkArguments (Some (lit "/tmp/x.py")) (Some []) None)))
    = Throw error
    /\ run (sampleWorld [] (Some (completion (lit "x = 1"))) serverError)
           (handleCallTool bothKeys (lit "/home/u") (lit "/work") exampleCreatePatch
              (mkCall (lit "write")
                 (Some (mkArguments (Some (lit "/tmp/x.py")) (Some []) None))))
           []
       = ([], inl error).
Proof.
  apply (write_rejects_missing_argument
           (sampleWorld [] (Some (completion (lit "x = 1"))) serverError)
           bothKeys (lit "/home/u") (lit "/work") exampleCreatePatch []
           (Some (mkArguments (Some (lit "/tmp/x.py")) (Some []) None))).
  right. reflexivity.
Defined.

(** C8 fails on the code: the filter compares [path.resolve] of the two
    paths, which does not expand [~], while the file is read through
    [readFileContent], which does.  With HOME [/home/u], the context file
    [~/x.py] is the target [/home/u/x.py], passes the filter, and its
    content is put into the context section of the prompt. *)
Theorem home_relative_target_kept_in_context :
  readAbsolutePath (lit "/home/u") (lit "/work") (lit "~/x.py")
  = readAbsolutePath (lit "/home/u") (lit "/work") (lit "/home/u/x.py")
  /\ filterContextFiles (lit "/work") (lit "/home/u/x.py") [lit "~/x.py"]
     = [lit "~/x.py"]
  /\ userPrompts
       (fst (run (sampleWorld [(lit "/home/u/x.py", lit "print(1)")]
                    (Some (completion (lit "print(2)"))) serverError)
               (handleCallTool bothKeys (lit "/home/u") (lit "/work") exampleCreatePatch
                  (writeCall (lit "/home/u/x.py") (lit "print 2") [lit "~/x.py"])) []))
     = [lit "Existing file content:\n```python\nprint(1)\n```\n\nContext Files:\n\nFile: ~/x.py\n```python\nprint(1)\n```\n\nGenerate python code for: print 2"].
Proof. repeat split; vm_compute; reflexivity. Qed.

(** C9: [readFileContent] and [writeFileContent] turn a raw path into the
    same absolute path: the file the one reads is the file the other
    writes, in the directory it makes. *)
Theorem read_and_write_resolve_alike (HOME cwd raw : jsstring) :
  readAbsolutePath HOME cwd raw = writeAbsolutePath HOME cwd raw
  /\ forall (w : World) (past : list Event) (content : option jsstring),
       fst (run w (readFileContent HOME cwd raw) past)
       = [EvReadFile (readAbsolutePath HOME cwd raw)]
       /\ Forall (fun ev =>
                    ev = EvMkdir (Path.dirname (readAbsolutePath HOME cwd raw))
                    \/ ev = EvWriteFile (readAbsolutePath HOME cwd raw) content)
                 (fst (run w (writeFileContent HOME cwd raw content) past)).
Proof.
  split; [reflexivity|]. intros w past content. split.
  - unfold readFileContent, fsReadFile. cbn [bind tryCatch run].
    destruct (onReadFile w past (readAbsolutePath HOME cwd raw)) as [e|c];
      cbn [bind tryCatch run fst]; [|reflexivity].
    destruct (code e) as [c|]; [destruct (JS.eqb c (lit "ENOENT"))|]; reflexivity.
  - unfold writeFileContent, fsMkdir, fsWriteFile. cbn [bind tryCatch run].
    change (writeAbsolutePath HOME cwd raw) with (readAbsolutePath HOME cwd raw).
    destruct (onMkdir w past _) as [e|]; cbn [bind tryCatch run fst].
    + constructor; [now left|constructor].
    + destruct (onWriteFile w _ _ _) as [e|]; cbn [bind tryCatch run fst];
        (constructor; [now left|constructor; [now right|constructor]]).
Qed.



(** An edit whose report is not of the change made: a file holding the one
    word [hello] is sanitized to the empty text before the comparison, so
    rewriting it is reported with the diff of a new file. *)
Example one_word_file_reported_as_new :
  exists evs,
    run (sampleWorld [(lit "/tmp/a.txt", lit "hello")]
           (Some (completion (lit "hello world"))) serverError)
        (handleCallTool bothKeys (lit "/home/u") (lit "/work") exampleCreatePatch
           (writeCall (lit "/tmp/a.txt") (lit "greet the world") [])) []
    = (evs,
       inr (diffContent
              (generateGitDiff exampleCreatePatch None (Some (lit "hello world"))
                 (lit "/tmp/a.txt")))).
Proof. eexists. vm_compute. reflexivity. Qed.

(** * Further properties of the code *)

(** ** Trimming, splitting and joining *)

Section TrimFacts.

Lemma trimStart_app_kept (a : jsstring) (c : char) :
  isWhiteSpace c = false -> trimStart (a ++ [c]) = trimStart a ++ [c].
Proof.
  intros Hc. induction a as [|x a IH]; cbn [app trimStart].
  - now rewrite Hc.
  - destruct (isWhiteSpace x); [exact IH|reflexivity].
Qed.

Lemma trimEnd_cons_kept (c : char) (r : jsstring) :
  isWhiteSpace c = false -> trimEnd (c :: r) = c :: trimEnd r.
Proof.
  intros Hc. unfold trimEnd. cbn [rev].
  rewrite (trimStart_app_kept _ _ Hc), rev_app_distr. reflexivity.
Qed.

Lemma trimEnd_idempotent (s : jsstring) : trimEnd (trimEnd s) = trimEnd s.
Proof. unfold trimEnd. now rewrite rev_involutive, trimStart_idempotent. Qed.

Lemma trimStart_head (s : jsstring) :
  match trimStart s with [] => True | c :: _ => isWhiteSpace c = false end.
Proof.
  induction s as [|c s IH]; cbn [trimStart]; [exact I|].
  destruct (isWhiteSpace c) eqn:E; [exact IH|exact E].
Qed.

Lemma trimStart_trim (s : jsstring) : trimStart (trim s) = trim s.
Proof.
  unfold trim. pose proof (trimStart_head s) as H.
  destruct (trimStart s) as [|c r]; [reflexivity|].
  rewrite (trimEnd_cons_kept _ _ H). cbn [trimStart]. now rewrite H.
Qed.

(** [trim] is idempotent. *)
Lemma trim_idempotent (s : jsstring) : trim (trim s) = trim s.
Proof.
  unfold trim at 1. rewrite trimStart_trim. unfold trim.
  apply trimEnd_idempotent.
Qed.

Lemma trimStart_suffix (s : jsstring) : exists w, s = w ++ trimStart s.
Proof.
  induction s as [|c s [w IH]]; cbn [trimStart]; [now exists []|].
  destruct (isWhiteSpace c); [|now exists []].
  exists (c :: w). cbn [app]. now rewrite <- IH.
Qed.

Lemma trimEnd_prefix (s : jsstring) : exists w, s = trimEnd s ++ w.
Proof.
  unfold trimEnd. destruct (trimStart_suffix (rev s)) as [w Hw].
  exists (rev w). rewrite <- rev_app_distr, <- Hw. symmetry. apply rev_involutive.
Qed.

(** Joining what [split] returns gives the string back. *)
Lemma join_split (sep : char) (s : jsstring) : join [sep] (split sep s) = s.
Proof.
  induction s as [|c s IH]; cbn [split]; [reflexivity|].
  destruct (c =? sep) eqn:E.
  - apply N.eqb_eq in E. subst c.
    pose proof (split_nonempty sep s) as Hne.
    destruct (split sep s) as [|l ls]; [contradiction|].
    cbn [join app] in *. now rewrite IH.
  - pose proof (split_nonempty sep s) as Hne.
    destruct (split sep s) as [|l ls]; [contradiction|].
    destruct ls as [|l2 ls]; cbn [join app] in *; now rewrite <- IH.
Qed.

Lemma split_injective (sep : char) (s t : jsstring) :
  split sep s = split sep t -> s = t.
Proof.
  intros H. rewrite <- (join_split sep s), <- (join_split sep t). now rewrite H.
Qed.

(** Without the first of its lines, a text is a part of the text. *)
Lemma join_tl_split_suffix (s : jsstring) :
  exists w, s = w ++ join [NL] (tl (split NL s)).
Proof.
  pose proof (join_split NL s) as H.
  destruct (split NL s) as [|l ls]; cbn [tl].
  - exists s. now rewrite app_nil_r.
  - destruct ls as [|l2 ls].
    + exists s. now rewrite app_nil_r.
    + exists (l ++ [NL]). rewrite <- app_assoc. exact (eq_sym H).
Qed.

End TrimFacts.

(** ** Fences in a text *)

Section FenceFacts.

Lemma startsWith_app_false (p a r : jsstring) :
  startsWith p (a ++ r) = false -> startsWith p a = false.
Proof.
  revert a. induction p as [|x p IH]; intros a; cbn [startsWith]; [discriminate|].
  destruct a as [|y a]; cbn [app startsWith]; [reflexivity|].
  destruct (x =? y); cbn [andb]; [apply IH|reflexivity].
Qed.

Lemma includes_app_l (p a b : jsstring) :
  includes p (a ++ b) = false -> includes p a = false.
Proof.
  induction a as [|c a IH]; intros H.
  - cbn [app] in H. apply includes_startsWith in H.
    cbn [includes]. rewrite orb_false_r.
    destruct p as [|x p]; [destruct b; discriminate H|reflexivity].
  - cbn [app] in H. apply includes_cons in H as [H1 H2].
    cbn [includes]. apply orb_false_iff. split.
    + exact (startsWith_app_false p (c :: a) b H1).
    + exact (IH H2).
Qed.

(** A text without fence that does not end in a way a fence could pass
    over, followed by a text without fence, has no fence. *)
Lemma includes_app_no_straddle (pre out : jsstring) :
  includes FENCE (pre ++ [96; 96]) = false ->
  includes FENCE out = false ->
  includes FENCE (pre ++ out) = false.
Proof.
  intros Hpre Hout. induction pre as [|c pre IH]; [exact Hout|].
  cbn [app includes]. apply orb_false_iff. split.
  - exact (no_fence_inside c pre out Hpre).
  - apply IH. exact (proj2 (includes_cons FENCE c (pre ++ [96; 96]) Hpre)).
Qed.

Lemma includes_trim (s : jsstring) :
  includes FENCE s = false -> includes FENCE (trim s) = false.
Proof.
  intros H. unfold trim.
  destruct (trimStart_suffix s) as [w Hw]. rewrite Hw in H.
  apply includes_app_r in H.
  destruct (trimEnd_prefix (trimStart s)) as [v Hv]. rewrite Hv in H.
  exact (includes_app_l _ _ _ H).
Qed.

Lemma includes_dropLanguageLine (s : jsstring) :
  includes FENCE s = false -> includes FENCE (dropLanguageLine s) = false.
Proof.
  intros H. unfold dropLanguageLine.
  destruct (_ && _); [|exact H].
  apply includes_trim. destruct (join_tl_split_suffix s) as [w Hw].
  rewrite Hw in H. exact (includes_app_r _ _ _ H).
Qed.

(** Every text splits at its first fence, if it has one. *)
Lemma first_fence (s : jsstring) :
  includes FENCE s = false
  \/ exists pre rest, s = pre ++ FENCE ++ rest
                      /\ includes FENCE (pre ++ [96; 96]) = false.
Proof.
  induction s as [|c s IH]; [now left|].
  destruct (startsWith FENCE (c :: s)) eqn:E.
  - right. exists [].
    unfold FENCE in E. cbn [startsWith] in E.
    destruct (96 =? c) eqn:E1; [|discriminate E]. cbn [andb] in E.
    destruct s as [|c2 s]; [discriminate E|].
    destruct (96 =? c2) eqn:E2; [|discriminate E]. cbn [andb] in E.
    destruct s as [|c3 s]; [discriminate E|].
    destruct (96 =? c3) eqn:E3; [|discriminate E].
    apply N.eqb_eq in E1, E2, E3. subst. exists s. split; reflexivity.
  - destruct IH as [IH|[pre [rest [Hs Hpre]]]].
    + left. cbn [includes]. rewrite E. exact IH.
    + right. exists (c :: pre), rest. split; [cbn [app]; now rewrite Hs|].
      cbn [app includes]. apply orb_false_iff. split; [|exact Hpre].
      rewrite Hs in E. apply (startsWith_app_false FENCE (c :: pre ++ [96; 96]) (skipn 2 (FENCE ++ rest))).
      cbn [app]. rewrite <- app_assoc. exact E.
Qed.

End FenceFacts.

(** ** The sanitizer: what its result never has *)

Section SanitizerResult.

Lemma hd_error_flat_map {X Y : Type} (f : X -> list Y) (l : list X) (y : Y) :
  hd_error (flat_map f l) = Some y -> exists x, In x l /\ hd_error (f x) = Some y.
Proof.
  induction l as [|x l IH]; cbn [flat_map]; [discriminate|].
  destruct (f x) as [|z zs] eqn:E; cbn [app].
  - intros H. destruct (IH H) as [x' [Hin Hx']]. exists x'. split; [now right|exact Hx'].
  - intros H. exists x. split; [now left|]. now rewrite E.
Qed.

Lemma hd_error_map {X Y : Type} (g : X -> Y) (l : list X) (y : Y) :
  hd_error (map g l) = Some y -> exists x, hd_error l = Some x /\ y = g x.
Proof.
  destruct l as [|x l]; cbn [map hd_error]; [discriminate|].
  intros H. exists x. split; [reflexivity|congruence].
Qed.

(** The first closing fence ends the body: what the lazy group captures
    has no fence in it. *)
Lemma starLazy_first_fence {X : Type} (g : jsstring -> X) (Y : jsstring) (x : X) :
  hd_error (flat_map (fun rest => if startsWith FENCE rest then [g rest] else [])
                     (starLazy anyChar Y)) = Some x ->
  exists b rest, Y = b ++ rest /\ x = g rest /\ includes FENCE b = false.
Proof.
  induction Y as [|c Y IH].
  - cbn. discriminate.
  - cbn [starLazy anyChar flat_map].
    destruct (startsWith FENCE (c :: Y)) eqn:E; cbn [app hd_error].
    + intros H. exists [], (c :: Y). repeat split. congruence.
    + intros H. destruct (IH H) as [b [rest [HY [Hx Hb]]]].
      exists (c :: b), rest. split; [cbn [app]; now rewrite HY|]. split; [exact Hx|].
      cbn [includes]. apply orb_false_iff. split; [|exact Hb].
      rewrite HY in E. exact (startsWith_app_false FENCE (c :: b) rest E).
Qed.

Lemma lazyBody_head (Z : jsstring) (x : captures * jsstring) :
  hd_error (attempts (Seq (Group (Star false anyChar)) (Lit FENCE)) Z) = Some x ->
  fenceFreeBody x.
Proof.
  cbn [attempts]. rewrite flat_map_map_map. intros H.
  rewrite (flat_map_ext _
             (fun rest => if startsWith FENCE rest
                          then [([Some (consumed Z rest)], skipn (length FENCE) rest)]
                          else [])) in H
    by (intros rest; now destruct (startsWith FENCE rest)).
  destruct (starLazy_first_fence
              (fun rest => ([Some (consumed Z rest)], skipn (length FENCE) rest)) Z x H)
    as [b [rest [HZ [Hx Hb]]]].
  exists b. subst x. cbn [fst]. split; [|exact Hb].
  rewrite HZ. now rewrite consumed_app.
Qed.

Lemma Seq_head_plain (r1 r2 : regex) (s : jsstring) (x : captures * jsstring) :
  (forall c1 s1, In (c1, s1) (attempts r1 s) -> c1 = []) ->
  (forall s1 y, hd_error (attempts r2 s1) = Some y -> fenceFreeBody y) ->
  hd_error (attempts (Seq r1 r2) s) = Some x -> fenceFreeBody x.
Proof.
  intros H1 H2 H. cbn [attempts] in H.
  apply hd_error_flat_map in H as [[c1 s1] [Hin H]].
  apply hd_error_map in H as [[c2 s2] [Hhd Hx]].
  rewrite (H1 c1 s1 Hin) in Hx. subst x.
  destruct (H2 s1 (c2, s2) Hhd) as [b [Hb1 Hb2]]. exists b. split; assumption.
Qed.

Lemma codeBlock_head (s : jsstring) (x : captures * jsstring) :
  hd_error (attempts codeBlockRegex s) = Some x -> fenceFreeBody x.
Proof.
  unfold codeBlockRegex. apply Seq_head_plain.
  { intros c1 s1. cbn [attempts]. destruct (startsWith FENCE s); [|intros []].
    intros [H|[]]. congruence. }
  intros s1 y1. apply Seq_head_plain.
  { intros c1 s2. cbn [attempts]. intros H. apply in_map_iff in H as [z [Hz _]].
    congruence. }
  intros s2 y2. apply Seq_head_plain.
  { intros c1 s3. cbn [attempts ngroups repeat]. intros H.
    apply in_app_or in H as [H|[H|[]]]; [|congruence].
    destruct (startsWith [NL] s2); [|destruct H].
    destruct H as [H|[]]. congruence. }
  intros s3 y3. apply lazyBody_head.
Qed.

(** The first code block the loop finds has a body without fence. *)
Lemma execAll_head (s : jsstring) :
  forall prev caps t,
    execAll Anywhere codeBlockRegex prev 0 s = caps :: t ->
    exists b, caps = [Some b] /\ includes FENCE b = false.
Proof.
  induction s as [|c s IH]; intros prev caps t; rewrite execAll_unfold;
    unfold matchAt; cbn [mayStart]; unfold matchHere;
    destruct (hd_error (attempts codeBlockRegex _)) as [[caps' rest]|] eqn:E.
  - intros H. injection H as H _. subst caps'.
    exact (codeBlock_head _ _ E).
  - discriminate.
  - intros H. injection H as H _. subst caps'.
    exact (codeBlock_head _ _ E).
  - apply IH.
Qed.

(** After a match, the global replacement goes on behind it. *)
Lemma replaceAll_prev (r : regex) (rep : jsstring) (s : jsstring) :
  forall k prev prev',
    replaceAll Anywhere r rep prev k s = replaceAll Anywhere r rep prev' k s.
Proof.
  induction s as [|c s IH]; intros k prev prev'; destruct k; reflexivity.
Qed.

Lemma replaceAll_skip (l : jsstring) (r : regex) (rep : jsstring) (k : nat) :
  l <> [] ->
  forall (m rest : jsstring) prev,
    length m = k ->
    replaceAll Anywhere (Seq (Lit l) r) rep prev k (m ++ rest)
    = replaceAll Anywhere (Seq (Lit l) r) rep None 0 rest.
Proof.
  intros Hl. induction k as [|k IH]; intros m rest prev Hm.
  - destruct m; [|discriminate Hm]. apply replaceAll_prev.
  - destruct m as [|c m]; [discriminate Hm|]. cbn [app replaceAll].
    apply IH. now injection Hm.
Qed.

Lemma replaceAll_first_fence (r : regex) (rep pre rest : jsstring) :
  includes FENCE (pre ++ [96; 96]) = false ->
  forall prev,
    replaceAll Anywhere (Seq (Lit FENCE) r) rep prev 0 (pre ++ FENCE ++ rest)
    = pre ++ replaceAll Anywhere (Seq (Lit FENCE) r) rep None 0 (FENCE ++ rest).
Proof.
  intros Hpre. induction pre as [|c pre IH]; intros prev.
  - apply replaceAll_prev.
  - rewrite replaceAll_unfold.
    rewrite matchAt_Seq_Lit_fails by (apply no_fence_inside; exact Hpre).
    cbn [app]. f_equal. apply IH.
    exact (proj2 (includes_cons FENCE c (pre ++ [96; 96]) Hpre)).
Qed.

Lemma firstMatch_fence (rest : jsstring) :
  firstMatch fenceRegex (FENCE ++ rest) ([], afterFence rest).
Proof.
  unfold fenceRegex.
  apply (firstMatch_Seq _ _ _ [] rest [] (afterFence rest)); [apply firstMatch_Lit|].
  unfold afterFence. destruct rest as [|c r].
  - apply (firstMatch_Opt_skip (Lit [NL])). reflexivity.
  - destruct (c =? NL) eqn:E.
    + apply N.eqb_eq in E. subst c. apply firstMatch_Opt. apply (firstMatch_Lit [NL]).
    + apply (firstMatch_Opt_skip (Lit [NL])). apply attempts_Lit_fails.
      cbn [startsWith]. now rewrite N.eqb_sym, E.
Qed.

Lemma afterFence_suffix (rest : jsstring) :
  exists m, rest = m ++ afterFence rest /\ (length m <= 1)%nat.
Proof.
  unfold afterFence. destruct rest as [|c r]; [exists []; split; [reflexivity|cbn; lia]|].
  destruct (c =? NL).
  - exists [c]. split; [reflexivity|cbn; lia].
  - exists []. split; [reflexivity|cbn; lia].
Qed.

Lemma replaceAll_at_fence (rest : jsstring) :
  replaceAll Anywhere fenceRegex [] None 0 (FENCE ++ rest)
  = replaceAll Anywhere fenceRegex [] None 0 (afterFence rest).
Proof.
  rewrite replaceAll_unfold. unfold matchAt. cbn [mayStart].
  rewrite (firstMatch_matchHere _ _ _ (firstMatch_fence rest)). cbn [app].
  destruct (afterFence_suffix rest) as [m [Hm Hlen]].
  unfold FENCE at 1 2. cbn [app length].
  replace (S (S (S (length rest))) - length (afterFence rest))%nat
    with (S (2 + length m)).
  2:{ rewrite Hm at 1. rewrite length_app. lia. }
  rewrite Hm at 1.
  change (96 :: 96 :: m ++ afterFence rest) with ((96 :: 96 :: m) ++ afterFence rest).
  unfold fenceRegex. apply replaceAll_skip; [discriminate|reflexivity].
Qed.

(** One pass of the second replacement leaves no fence. *)
Lemma replaceAll_fence_free (n : nat) :
  forall s : jsstring,
    (length s <= n)%nat ->
    includes FENCE (replaceAll Anywhere fenceRegex [] None 0 s) = false.
Proof.
  induction n as [|n IH]; intros s Hlen.
  - destruct s; [reflexivity|cbn in Hlen; lia].
  - destruct (first_fence s) as [Hno|[pre [rest [Hs Hpre]]]].
    + unfold fenceRegex. now rewrite replaceAll_no_fence.
    + subst s. unfold fenceRegex at 1.
      rewrite (replaceAll_first_fence _ _ _ _ Hpre). fold fenceRegex.
      rewrite replaceAll_at_fence.
      apply (includes_app_no_straddle _ _ Hpre). apply IH.
      destruct (afterFence_suffix rest) as [m [Hm _]].
      rewrite !length_app in Hlen. cbn [length FENCE] in Hlen.
      assert (length (afterFence rest) <= length rest)%nat
        by (rewrite Hm at 2; rewrite length_app; lia).
      lia.
Qed.

(** What both branches of the sanitizer end with. *)
Lemma dropLanguageLine_trim_sanitized (x : jsstring) :
  includes FENCE x = false -> sanitized (dropLanguageLine (trim x)).
Proof.
  intros H. split.
  - now apply includes_dropLanguageLine, includes_trim.
  - unfold dropLanguageLine. destruct (_ && _); apply trim_idempotent.
Qed.

(** The result of the sanitizer is empty, or it is made from a text
    without fence: the body of the first block, or the response with its
    fences taken out. *)
Lemma cleanCodeResponse_shape (response : option jsstring) (out : jsstring) :
  cleanCodeResponse response = Some out ->
  out = [] \/
  exists x, includes FENCE x = false /\ out = dropLanguageLine (trim x).
Proof.
  destruct response as [[|c r]|]; cbn [cleanCodeResponse]; [| |discriminate].
  - intros H. injection H as <-. now left.
  - destruct (execAll Anywhere codeBlockRegex None 0 (c :: r)) as [|m ms] eqn:E;
      cbn [map]; intros H; injection H as <-; right.
    + eexists. split; [|reflexivity].
      apply (replaceAll_fence_free _ _ (le_n _)).
    + destruct (execAll_head _ _ _ _ E) as [b [-> Hb]].
      exists b. split; [exact Hb|reflexivity].
Qed.

End SanitizerResult.

(** X1: what the sanitizer returns has no white space at its start or at
    its end. *)
Theorem sanitized_is_trimmed (response : option jsstring) (out : jsstring) :
  cleanCodeResponse response = Some out -> trim out = out.
Proof.
  intros H. destruct (cleanCodeResponse_shape _ _ H) as [->|[x [Hx ->]]].
  - reflexivity.
  - exact (proj2 (dropLanguageLine_trim_sanitized x Hx)).
Qed.

Lemma sanitized_is_trimmed_witness :
  trim (lit "let x = 1;") = lit "let x = 1;".
Proof.
  apply (sanitized_is_trimmed (Some (lit "  ```js\nlet x = 1;\n\n```\n"))).
  vm_compute. reflexivity.
Defined.

(** X2: what the sanitizer returns contains no fence delimiter. *)
Theorem sanitized_has_no_fence (response : option jsstring) (out : jsstring) :
  cleanCodeResponse response = Some out -> includes FENCE out = false.
Proof.
  intros H. destruct (cleanCodeResponse_shape _ _ H) as [->|[x [Hx ->]]].
  - reflexivity.
  - exact (proj1 (dropLanguageLine_trim_sanitized x Hx)).
Qed.

Lemma sanitized_has_no_fence_witness :
  includes FENCE (lit "``x = 1\n``") = false.
Proof.
  apply (sanitized_has_no_fence (Some (lit "```js\n``x = 1\n``"))).
  vm_compute. reflexivity.
Defined.

(** ** The line-by-line diff *)

Section SimpleDiffFacts.

Lemma eqb_eq (a b : jsstring) : JS.eqb a b = true <-> a = b.
Proof.
  unfold JS.eqb. destruct (list_eq_dec N.eq_dec a b); split; congruence.
Qed.

Lemma eqb_refl (a : jsstring) : JS.eqb a a = true.
Proof. now apply eqb_eq. Qed.

Lemma diffLines_same (l : list jsstring) : diffLines l l = [].
Proof.
  induction l as [|x l IH]; [reflexivity|]. cbn [diffLines]. now rewrite eqb_refl.
Qed.

Lemma diffLines_nil (newLines : list jsstring) :
  forall oldLines, diffLines oldLines newLines = [] -> oldLines = newLines.
Proof.
  induction newLines as [|n newLines IH]; intros oldLines; cbn [diffLines].
  - destruct oldLines; [reflexivity|discriminate].
  - destruct oldLines as [|o oldLines]; [discriminate|].
    destruct (JS.eqb o n) eqn:E; [|discriminate].
    apply eqb_eq in E. subst o. intros H. now rewrite (IH _ H).
Qed.

Lemma diffLines_shape (newLines : list jsstring) :
  forall oldLines,
  exists kept added removed,
    oldLines = kept ++ removed /\
    Interleaved kept added newLines /\
    diffLines oldLines newLines = map addedLine added ++ map removedLine removed.
Proof.
  induction newLines as [|n newLines IH]; intros oldLines.
  - exists [], [], oldLines. repeat split. constructor.
  - destruct oldLines as [|o oldLines]; cbn [diffLines].
    + destruct (IH []) as [kept [added [removed [H1 [H2 H3]]]]].
      exists kept, (n :: added), removed. split; [exact H1|].
      split; [now constructor|]. cbn [map app]. now rewrite H3.
    + destruct (JS.eqb o n) eqn:E.
      * apply eqb_eq in E. subst o.
        destruct (IH oldLines) as [kept [added [removed [H1 [H2 H3]]]]].
        exists (n :: kept), added, removed. split; [cbn [app]; now rewrite H1|].
        split; [now constructor|exact H3].
      * destruct (IH (o :: oldLines)) as [kept [added [removed [H1 [H2 H3]]]]].
        exists kept, (n :: added), removed. split; [exact H1|].
        split; [now constructor|]. cbn [map app]. now rewrite H3.
Qed.

End SimpleDiffFacts.

(** X3: the line-by-line diff is null exactly when one of the two
    contents is absent or empty, or when the two are the same text. *)
Theorem generateDiff_null (oldContent newContent : option jsstring) :
  generateDiff oldContent newContent = None <->
  truthy oldContent = false \/ truthy newContent = false \/ oldContent = newContent.
Proof.
  unfold generateDiff.
  destruct oldContent as [[|a old]|]; cbn [truthy negb orb];
    try (split; [intros _; now left|reflexivity]).
  destruct newContent as [[|b new]|]; cbn [truthy negb orb];
    try (split; [intros _; right; now left|reflexivity]).
  destruct (diffLines (split NL (a :: old)) (split NL (b :: new))) as [|d ds] eqn:E;
    cbn [length Nat.ltb Nat.leb].
  - split; [intros _|reflexivity]. right. right.
    apply diffLines_nil in E. apply split_injective in E. now rewrite E.
  - split; [discriminate|]. intros [H|[H|H]]; try discriminate.
    injection H as Ha Hn. rewrite Ha, Hn, diffLines_same in E. discriminate.
Qed.

(** X4: the text of the line-by-line diff lists every added line before
    any removed line; the removed lines are the last lines of the old
    content, the lines before them all stand in the new content, in their
    order, and the added lines are the other lines of the new content. *)
Theorem generateDiff_shape (oldContent newContent : option jsstring) (d : jsstring) :
  generateDiff oldContent newContent = Some d ->
  exists old new kept added removed,
    oldContent = Some old /\ newContent = Some new /\
    split NL old = kept ++ removed /\
    Interleaved kept added (split NL new) /\
    d = join [NL] (map addedLine added ++ map removedLine removed).
Proof.
  unfold generateDiff.
  destruct oldContent as [[|a old]|]; cbn [truthy negb orb]; try discriminate.
  destruct newContent as [[|b new]|]; cbn [truthy negb orb]; try discriminate.
  destruct (diffLines_shape (split NL (b :: new)) (split NL (a :: old)))
    as [kept [added [removed [H1 [H2 H3]]]]].
  rewrite H3. destruct (0 <? _)%nat; [|discriminate]. intros H.
  exists (a :: old), (b :: new), kept, added, removed.
  split; [reflexivity|]. split; [reflexivity|]. split; [exact H1|].
  split; [exact H2|]. congruence.
Qed.

Lemma generateDiff_shape_witness :
  exists old new kept added removed,
    Some (lit "a\nb\nc") = Some old /\ Some (lit "a\nx\nb") = Some new /\
    split NL old = kept ++ removed /\
    Interleaved kept added (split NL new) /\
    lit "+ x\n- c" = join [NL] (map addedLine added ++ map removedLine removed).
Proof.
  apply (generateDiff_shape (Some (lit "a\nb\nc")) (Some (lit "a\nx\nb"))).
  vm_compute. reflexivity.
Defined.

(** ** What a computation does, in every world *)

Section EffectFacts.

Lemma Within_weaken {A : Type} (q : Kind -> bool) (P Q : A -> Prop) (n m : nat)
      (p : Prog A) :
  Within q P n p -> (forall a, P a -> Q a) -> (n <= m)%nat -> Within q Q m p.
Proof.
  intros H. revert m. induction H; intros m' HPQ Hle.
  - constructor. auto.
  - constructor.
  - apply (Within_ReadFile q Q m' (m' - cost q KRead)); [lia|]. intros r. apply H1; [auto|lia].
  - apply (Within_Mkdir q Q m' (m' - cost q KMkdir)); [lia|]. intros r. apply H1; [auto|lia].
  - apply (Within_WriteFile q Q m' (m' - cost q KWrite)); [lia|]. intros r. apply H1; [auto|lia].
  - apply (Within_Cerebras q Q m' (m' - cost q KCerebras)); [lia|]. intros r. apply H1; [auto|lia].
  - apply (Within_OpenRouter q Q m' (m' - cost q KOpenRouter)); [lia|]. intros r. apply H1; [auto|lia].
Qed.

Lemma Within_bind {A B : Type} (q : Kind -> bool) (P : A -> Prop) (Q : B -> Prop)
      (n k : nat) (m : Prog A) (f : A -> Prog B) :
  Within q P n m -> (forall a, P a -> Within q Q k (f a)) ->
  Within q Q (n + k) (bind m f).
Proof.
  intros H Hf.
  induction H as [n0 a Ha|n0 e|n0 m0 p k0 Hn Hk IH|n0 m0 d k0 Hn Hk IH|n0 m0 p c k0 Hn Hk IH|n0 m0 key req k0 Hn Hk IH|n0 m0 key req k0 Hn Hk IH];
    cbn [bind].
  - apply (Within_weaken q Q Q k); [auto|auto|lia].
  - constructor.
  - apply (Within_ReadFile q Q _ (m0 + k)); [lia|auto].
  - apply (Within_Mkdir q Q _ (m0 + k)); [lia|auto].
  - apply (Within_WriteFile q Q _ (m0 + k)); [lia|auto].
  - apply (Within_Cerebras q Q _ (m0 + k)); [lia|auto].
  - apply (Within_OpenRouter q Q _ (m0 + k)); [lia|auto].
Qed.

Lemma Within_tryCatch {A : Type} (q : Kind -> bool) (P : A -> Prop) (n k : nat)
      (m : Prog A) (h : JsError -> Prog A) :
  Within q P n m -> (forall e, Within q P k (h e)) ->
  Within q P (n + k) (tryCatch m h).
Proof.
  intros H Hh.
  induction H as [n0 a Ha|n0 e|n0 m0 p k0 Hn Hk IH|n0 m0 d k0 Hn Hk IH|n0 m0 p c k0 Hn Hk IH|n0 m0 key req k0 Hn Hk IH|n0 m0 key req k0 Hn Hk IH];
    cbn [tryCatch].
  - constructor. auto.
  - apply (Within_weaken q P P k); [auto|auto|lia].
  - apply (Within_ReadFile q P _ (m0 + k)); [lia|auto].
  - apply (Within_Mkdir q P _ (m0 + k)); [lia|auto].
  - apply (Within_WriteFile q P _ (m0 + k)); [lia|auto].
  - apply (Within_Cerebras q P _ (m0 + k)); [lia|auto].
  - apply (Within_OpenRouter q P _ (m0 + k)); [lia|auto].
Qed.

Lemma countKind_cons (q : Kind -> bool) (ev : Event) (evs : list Event) :
  countKind q (ev :: evs) = (cost q (kindOf ev) + countKind q evs)%nat.
Proof.
  unfold countKind, cost. cbn [filter]. now destruct (q (kindOf ev)).
Qed.

Lemma countKind_app (q : Kind -> bool) (a b : list Event) :
  countKind q (a ++ b) = (countKind q a + countKind q b)%nat.
Proof. unfold countKind. now rewrite filter_app, length_app. Qed.

(** A computation within [n] performs at most [n] of the operations
    counted, in every world. *)
Lemma Within_run {A : Type} (q : Kind -> bool) (P : A -> Prop) (n : nat) (p : Prog A) :
  Within q P n p ->
  forall (w : World) (past : list Event),
    (countKind q (fst (run w p past)) <= n)%nat.
Proof.
  intros H.
  induction H as [n a Ha|n e|n m p k Hn Hk IH|n m d k Hn Hk IH|n m p c k Hn Hk IH
                  |n m key req k Hn Hk IH|n m key req k Hn Hk IH];
    intros w past; cbn [run].
  - cbn. lia.
  - cbn. lia.
  - specialize (IH (onReadFile w past p) w (past ++ [EvReadFile p])).
    destruct (run w (k _) _) as [evs res]. cbn [fst] in *.
    rewrite countKind_cons. cbn [kindOf]. lia.
  - specialize (IH (onMkdir w past d) w (past ++ [EvMkdir d])).
    destruct (run w (k _) _) as [evs res]. cbn [fst] in *.
    rewrite countKind_cons. cbn [kindOf]. lia.
  - specialize (IH (onWriteFile w past p c) w (past ++ [EvWriteFile p c])).
    destruct (run w (k _) _) as [evs res]. cbn [fst] in *.
    rewrite countKind_cons. cbn [kindOf]. lia.
  - specialize (IH (onCerebras w past key req) w (past ++ [EvCerebras key req])).
    destruct (run w (k _) _) as [evs res]. cbn [fst] in *.
    rewrite countKind_cons. cbn [kindOf]. lia.
  - specialize (IH (onOpenRouter w past key req) w (past ++ [EvOpenRouter key req])).
    destruct (run w (k _) _) as [evs res]. cbn [fst] in *.
    rewrite countKind_cons. cbn [kindOf]. lia.
Qed.

Lemma Emits_weaken {A : Type} (E E' : Event -> Prop) (P P' : A -> Prop)
      (Q Q' : JsError -> Prop) (p : Prog A) :
  Emits E P Q p ->
  (forall ev, E ev -> E' ev) -> (forall a, P a -> P' a) -> (forall e, Q e -> Q' e) ->
  Emits E' P' Q' p.
Proof.
  intros H HE HP HQ. induction H; constructor; auto.
Qed.

Lemma Emits_bind {A B : Type} (E : Event -> Prop) (P : A -> Prop) (P' : B -> Prop)
      (Q : JsError -> Prop) (m : Prog A) (f : A -> Prog B) :
  Emits E P Q m -> (forall a, P a -> Emits E P' Q (f a)) -> Emits E P' Q (bind m f).
Proof.
  intros H Hf. induction H; cbn [bind]; try (constructor; auto). auto.
Qed.

Lemma Emits_tryCatch {A : Type} (E : Event -> Prop) (P : A -> Prop)
      (Q Q' : JsError -> Prop) (m : Prog A) (h : JsError -> Prog A) :
  Emits E P Q m -> (forall e, Q e -> Emits E P Q' (h e)) ->
  Emits E P Q' (tryCatch m h).
Proof.
  intros H Hh. induction H; cbn [tryCatch]; try (constructor; auto). auto.
Qed.

(** In every world the events of a run satisfy [E], and so do its value
    ([P]) or its error ([Q]). *)
Lemma Emits_run {A : Type} (E : Event -> Prop) (P : A -> Prop) (Q : JsError -> Prop)
      (p : Prog A) :
  Emits E P Q p ->
  forall (w : World) (past : list Event),
    Forall E (fst (run w p past)) /\
    match snd (run w p past) with inr a => P a | inl e => Q e end.
Proof.
  intros H.
  induction H as [a Ha|e He|p k Hev Hk IH|d k Hev Hk IH|p c k Hev Hk IH
                  |key req k Hev Hk IH|key req k Hev Hk IH];
    intros w past; cbn [run].
  - cbn. split; [constructor|exact Ha].
  - cbn. split; [constructor|exact He].
  - specialize (IH (onReadFile w past p) w (past ++ [EvReadFile p])).
    destruct (run w (k _) _) as [evs res]. cbn [fst snd] in *.
    split; [constructor; [exact Hev|apply IH]|apply IH].
  - specialize (IH (onMkdir w past d) w (past ++ [EvMkdir d])).
    destruct (run w (k _) _) as [evs res]. cbn [fst snd] in *.
    split; [constructor; [exact Hev|apply IH]|apply IH].
  - specialize (IH (onWriteFile w past p c) w (past ++ [EvWriteFile p c])).
    destruct (run w (k _) _) as [evs res]. cbn [fst snd] in *.
    split; [constructor; [exact Hev|apply IH]|apply IH].
  - specialize (IH (onCerebras w past key req) w (past ++ [EvCerebras key req])).
    destruct (run w (k _) _) as [evs res]. cbn [fst snd] in *.
    split; [constructor; [exact Hev|apply IH]|apply IH].
  - specialize (IH (onOpenRouter w past key req) w (past ++ [EvOpenRouter key req])).
    destruct (run w (k _) _) as [evs res]. cbn [fst snd] in *.
    split; [constructor; [exact Hev|apply IH]|apply IH].
Qed.

End EffectFacts.

(** ** Reading and writing files *)

Section FileAccess.

Lemma getSubstitution_cons (matched before after : jsstring) (c : char) (r : jsstring) :
  c <> 36 ->
  getSubstitution matched before after (c :: r)
  = c :: getSubstitution matched before after r.
Proof.
  intros Hc. destruct c as [|p]; [reflexivity|].
  do 7 (try (destruct p as [p|p|]); try reflexivity; try congruence).
Qed.

Lemma getSubstitution_plain (matched before after replacement : jsstring) :
  includes [36] replacement = false ->
  getSubstitution matched before after replacement = replacement.
Proof.
  induction replacement as [|c r IH]; [reflexivity|].
  intros H. apply includes_cons in H as [Hc Hr].
  cbn [startsWith] in Hc. rewrite andb_true_r in Hc. apply N.eqb_neq in Hc.
  rewrite getSubstitution_cons by congruence. now rewrite IH.
Qed.

Lemma normalize_absolute (path : jsstring) :
  Path.isAbsolute path = true -> Path.isAbsolute (Path.normalize path) = true.
Proof.
  destruct path as [|c r]; [discriminate|]. intros H. unfold Path.normalize.
  rewrite H. cbn [negb].
  destruct (Path.normalizeString (c :: r) false); reflexivity.
Qed.

Lemma join2_absolute (a b : jsstring) :
  Path.isAbsolute a = true -> Path.isAbsolute (Path.join2 a b) = true.
Proof.
  destruct a as [|c r]; [discriminate|]. intros H.
  destruct b as [|d b]; cbn [Path.join2]; apply normalize_absolute; exact H.
Qed.

End FileAccess.

(** X5: [readFileContent] asks the file system once, for the path it
    resolves the given one to.  A file that is not there ([ENOENT]) gives
    null and no error; any other failure is thrown as
    [Failed to read file <path as given>: <message>]. *)
Theorem readFileContent_run (w : World) (HOME cwd filePath : jsstring)
        (past : list Event) :
  run w (readFileContent HOME cwd filePath) past =
  ([EvReadFile (readAbsolutePath HOME cwd filePath)],
   match onReadFile w past (readAbsolutePath HOME cwd filePath) with
   | inr content => inr (Some content)
   | inl error =>
       if match code error with
          | Some c => JS.eqb c (lit "ENOENT")
          | None => false
          end
       then inr None
       else inl (Error (lit "Failed to read file " ++ filePath ++ lit ": "
                        ++ message error))
   end).
Proof.
  unfold readFileContent, fsReadFile. cbn [bind tryCatch run].
  destruct (onReadFile w past (readAbsolutePath HOME cwd filePath)) as [e|c];
    cbn [bind tryCatch run]; [|reflexivity].
  destruct (code e) as [c|]; [destruct (JS.eqb c (lit "ENOENT"))|]; reflexivity.
Qed.

(** X6: [writeFileContent] first makes the directory of the resolved path,
    then writes the file.  When the directory cannot be made nothing is
    written; either failure is thrown as
    [Failed to write file <path as given>: <message>]; otherwise the
    result is true. *)
Theorem writeFileContent_run (w : World) (HOME cwd filePath : jsstring)
        (content : option jsstring) (past : list Event) :
  let absolutePath := writeAbsolutePath HOME cwd filePath in
  let dir := Path.dirname absolutePath in
  let failure error :=
    Error (lit "Failed to write file " ++ filePath ++ lit ": " ++ message error) in
  run w (writeFileContent HOME cwd filePath content) past =
  match onMkdir w past dir with
  | Some error => ([EvMkdir dir], inl (failure error))
  | None =>
      ([EvMkdir dir; EvWriteFile absolutePath content],
       match onWriteFile w (past ++ [EvMkdir dir]) absolutePath content with
       | Some error => inl (failure error)
       | None => inr true
       end)
  end.
Proof.
  intros absolutePath dir failure.
  unfold writeFileContent, fsMkdir, fsWriteFile. cbn [bind tryCatch run].
  fold absolutePath. fold dir.
  destruct (onMkdir w past dir) as [e|]; cbn [bind tryCatch run]; [reflexivity|].
  destruct (onWriteFile w (past ++ [EvMkdir dir]) absolutePath content) as [e|];
    reflexivity.
Qed.

(** X7: a path that starts with a tilde is resolved, for reading and for
    writing, to the home directory followed by the rest of the path,
    provided the home directory has no dollar sign in it (a dollar sign
    is a pattern in the replacement text of [replace]). *)
Theorem tilde_path_is_under_home (HOME cwd rest : jsstring) :
  includes [36] HOME = false ->
  readAbsolutePath HOME cwd (lit "~" ++ rest) = HOME ++ rest /\
  writeAbsolutePath HOME cwd (lit "~" ++ rest) = HOME ++ rest.
Proof.
  intros H.
  assert (E : replaceString (lit "~") HOME [] (lit "~" ++ rest) = HOME ++ rest).
  { change (lit "~" ++ rest) with (126 :: rest).
    destruct rest; cbn [replaceString startsWith N.eqb Pos.eqb andb length skipn app lit];
      now rewrite getSubstitution_plain. }
  unfold readAbsolutePath, writeAbsolutePath.
  change (Path.isAbsolute (lit "~" ++ rest)) with false.
  change (startsWith (lit "~") (lit "~" ++ rest)) with true.
  cbv iota. now rewrite E.
Qed.

Lemma tilde_path_is_under_home_witness :
  readAbsolutePath (lit "/home/u") (lit "/work") (lit "~" ++ lit "/notes/a.md")
  = lit "/home/u" ++ lit "/notes/a.md" /\
  writeAbsolutePath (lit "/home/u") (lit "/work") (lit "~" ++ lit "/notes/a.md")
  = lit "/home/u" ++ lit "/notes/a.md".
Proof.
  apply (tilde_path_is_under_home (lit "/home/u") (lit "/work") (lit "/notes/a.md")).
  reflexivity.
Defined.

(** X8: when the home directory and the working directory are absolute
    paths, the path handed to the file system is absolute, whatever path
    the caller gave. *)
Theorem file_system_path_is_absolute (HOME cwd filePath : jsstring) :
  Path.isAbsolute HOME = true -> Path.isAbsolute cwd = true ->
  Path.isAbsolute (readAbsolutePath HOME cwd filePath) = true /\
  Path.isAbsolute (writeAbsolutePath HOME cwd filePath) = true.
Proof.
  intros HH Hc.
  assert (E : startsWith (lit "~") filePath = true ->
              Path.isAbsolute (replaceString (lit "~") HOME [] filePath) = true).
  { intros Ht. destruct filePath as [|c r]; [discriminate|].
    cbn [replaceString]. rewrite Ht. cbn [app].
    destruct HOME as [|h home]; [discriminate|].
    cbn [Path.isAbsolute] in HH. apply N.eqb_eq in HH. subst h.
    rewrite getSubstitution_cons by discriminate. reflexivity. }
  unfold readAbsolutePath, writeAbsolutePath.
  destruct (Path.isAbsolute filePath) eqn:Ha; [now split|].
  destruct (startsWith (lit "~") filePath); [split; now apply E|].
  split; now apply join2_absolute.
Qed.

Lemma file_system_path_is_absolute_witness :
  Path.isAbsolute (readAbsolutePath (lit "/home/u") (lit "/work") (lit "../a.md")) = true /\
  Path.isAbsolute (writeAbsolutePath (lit "/home/u") (lit "/work") (lit "../a.md")) = true.
Proof.
  apply (file_system_path_is_absolute (lit "/home/u") (lit "/work") (lit "../a.md"));
    reflexivity.
Defined.

(** ** The language of a file *)

Section LanguageFacts.

Lemma forallb_rev {X : Type} (f : X -> bool) (l : list X) :
  forallb f (rev l) = forallb f l.
Proof.
  induction l as [|x l IH]; [reflexivity|].
  cbn [rev forallb]. rewrite forallb_app, IH. cbn [forallb].
  rewrite andb_true_r. apply andb_comm.
Qed.



Lemma extnameScan_no_dot (cs : jsstring) :
  forallb (fun c => negb (c =? Path.DOT)) cs = true ->
  forall (i : nat) (st : Path.ExtScan),
    Path.startDot st = None -> Path.startDot (Path.extnameScan cs i st) = None.
Proof.
  induction cs as [|c cs IH]; intros Hcs i st Hsd; [exact Hsd|].
  cbn [forallb] in Hcs. apply andb_true_iff in Hcs as [Hc Hcs].
  apply negb_true_iff in Hc. cbn [Path.extnameScan]. rewrite Hc.
  destruct (c =? SLASH).
  - destruct (negb (Path.matchedSlash st)); [exact Hsd|]. now apply IH.
  - destruct (Path.extEnd st); rewrite ?Hsd; cbn [Path.startDot]; rewrite ?Hsd;
      now apply IH.
Qed.


Lemma extname_no_dot (path : jsstring) :
  forallb (fun c => negb (c =? Path.DOT)) path = true -> Path.extname path = [].
Proof.
  intros H. unfold Path.extname.
  rewrite (extnameScan_no_dot (rev path)); [reflexivity| |reflexivity].
  now rewrite forallb_rev.
Qed.

End LanguageFacts.



(** X10: without an explicit language, a path with no dot in it is a
    [text] file. *)
Theorem language_without_extension (filePath : jsstring) :
  forallb (fun c => negb (c =? Path.DOT)) filePath = true ->
  getLanguageFromFile filePath None = lit "text".
Proof.
  intros H. unfold getLanguageFromFile. cbn [truthy].
  now rewrite extname_no_dot.
Qed.

Lemma language_without_extension_witness :
  getLanguageFromFile (lit "/work/Makefile") None = lit "text".
Proof.
  apply (language_without_extension (lit "/work/Makefile")). reflexivity.
Defined.

(** ** Requests to the providers *)

Section ProviderFacts.

Variable config : Config.
Variables HOME cwd : jsstring.

Lemma endsWith_refl (s : jsstring) : endsWith s s.
Proof. now exists []. Qed.

Lemma endsWith_app (suffix a s : jsstring) : endsWith suffix s -> endsWith suffix (a ++ s).
Proof. intros [pre ->]. exists (a ++ pre). now rewrite app_assoc. Qed.

(** *** What is performed *)

Section Performed.

Variable E : Event -> Prop.

Lemma readFileContent_emits (filePath : jsstring) :
  E (EvReadFile (readAbsolutePath HOME cwd filePath)) ->
  Emits E (fun _ => True) (readFailure filePath) (readFileContent HOME cwd filePath).
Proof.
  intros HE. unfold readFileContent, fsReadFile. cbn [bind tryCatch].
  constructor; [exact HE|].
  intros [e|c]; cbn [bind tryCatch]; [|now constructor].
  destruct (code e) as [c|]; [destruct (JS.eqb c (lit "ENOENT"))|];
    constructor; try exact I; now exists (message e).
Qed.

Lemma appendContextFiles_emits (files : list jsstring) :
  (forall file, In file files -> E (EvReadFile (readAbsolutePath HOME cwd file))) ->
  forall contextContent,
    Emits E (fun out => exists more, out = contextContent ++ more) (fun _ => False)
      (appendContextFiles HOME cwd contextContent files).
Proof.
  induction files as [|f files IH]; intros HE contextContent; cbn [appendContextFiles].
  - constructor. exists []. now rewrite app_nil_r.
  - apply (Emits_bind E (fun out => exists more, out = contextContent ++ more)).
    + apply (Emits_tryCatch E _ (fun _ => True)).
      * apply (Emits_bind E (fun _ => True)).
        -- apply (Emits_weaken E E (fun _ => True) (fun _ => True) (readFailure f));
             auto. apply readFileContent_emits. apply HE. now left.
        -- intros content _. destruct (truthy content); constructor.
           ++ eexists. reflexivity.
           ++ exists []. now rewrite app_nil_r.
      * intros e _. constructor. exists []. now rewrite app_nil_r.
    + intros c' [more ->].
      apply (Emits_weaken E E (fun out => exists more', out = (contextContent ++ more) ++ more')
               _ (fun _ => False) (fun _ => False)); auto.
      * apply IH. intros file Hin. apply HE. now right.
      * intros out [more' ->]. exists (more ++ more'). now rewrite app_assoc.
Qed.

Lemma buildRequest_emits (modelName prompt context outputFile : jsstring)
      (language : option jsstring) (contextFiles : list jsstring) :
  (forall file, In file (filterContextFiles cwd outputFile contextFiles) ->
                E (EvReadFile (readAbsolutePath HOME cwd file))) ->
  E (EvReadFile (readAbsolutePath HOME cwd outputFile)) ->
  Emits E (requestFor modelName (getLanguageFromFile outputFile language) prompt)
    (readFailure outputFile)
    (buildRequest config HOME cwd modelName prompt context outputFile language
       contextFiles).
Proof.
  intros Hctx Hout. unfold buildRequest.
  set (L := getLanguageFromFile outputFile language).
  fold (instruction L prompt).
  apply (Emits_bind E (endsWith (instruction L prompt))).
  - destruct contextFiles as [|f files]; [constructor; apply endsWith_refl|].
    destruct (filterContextFiles cwd outputFile (f :: files)) as [|g kept];
      [constructor; apply endsWith_refl|].
    apply (Emits_bind E (fun _ => True)).
    + eapply (Emits_weaken E E);
        [apply appendContextFiles_emits; exact Hctx|auto|intros; exact I|contradiction].
    + intros contextContent _. constructor.
      rewrite app_assoc. apply endsWith_app, endsWith_refl.
  - intros fullPrompt Hfull.
    apply (Emits_bind E (fun _ => True)); [now apply readFileContent_emits|].
    intros existingContent _. constructor.
    unfold requestFor. cbn [model systemContent userContent].
    split; [reflexivity|]. split; [reflexivity|].
    assert (Hfull' : endsWith (instruction L prompt)
                       match context with
                       | [] => fullPrompt
                       | _ :: _ => lit "Context: " ++ context ++ lit "\n\n" ++ fullPrompt
                       end).
    { destruct context; [exact Hfull|].
      rewrite app_assoc. rewrite app_assoc. apply endsWith_app. exact Hfull. }
    destruct (truthy existingContent); [|exact Hfull'].
    rewrite 4 app_assoc. apply endsWith_app. exact Hfull'.
Qed.

Lemma settle_emits (provider : jsstring) (o : HttpOutcome) :
  Emits E (fun r => exists raw, r = cleanCodeResponse raw) (fun _ => True)
    (settle provider o).
Proof.
  unfold settle.
  destruct o as [statusCode [msg|choice0 errorMessage]|msg]; try now constructor.
  destruct (statusCode =? 200); [destruct choice0 as [raw|]|]; constructor;
    try exact I. now exists raw.
Qed.

Hypothesis cerebrasRequests :
  forall key req,
    cerebrasApiKey config = Some key -> key <> [] ->
    model req = cerebrasModel config -> E (EvCerebras key req).
Hypothesis openRouterRequests :
  forall key req,
    openRouterApiKey config = Some key -> key <> [] ->
    model req = openRouterModel config -> E (EvOpenRouter key req).

Lemma callOpenRouter_emits (prompt context outputFile : jsstring)
      (language : option jsstring) (contextFiles : list jsstring) :
  (forall file, file = outputFile \/ In file contextFiles ->
                E (EvReadFile (readAbsolutePath HOME cwd file))) ->
  Emits E (fun r => exists raw, r = cleanCodeResponse raw) (fun _ => True)
    (callOpenRouter config HOME cwd prompt context outputFile language contextFiles).
Proof.
  intros reads. unfold callOpenRouter.
  apply (Emits_bind E
           (fun promise =>
              Emits E (fun r => exists raw, r = cleanCodeResponse raw) (fun _ => True)
                promise)); [|auto].
  apply (Emits_tryCatch E _ (fun _ => True)); [|intros e _; now constructor].
  destruct (openRouterApiKey config) as [[|k key]|] eqn:Hkey; cbn [truthy negb];
    try now constructor.
  eapply Emits_bind.
  - apply (Emits_weaken E E _ _ _ (fun _ => True) _
             (buildRequest_emits (openRouterModel config) prompt context outputFile
                language contextFiles
                (fun file Hin => reads file (or_intror (proj1 (proj1 (filter_In _ _ _) Hin))))
                (reads outputFile (or_introl eq_refl))));
      [auto|intros a Ha; exact Ha|auto].
  - intros requestData [Hmodel _]. constructor. constructor.
    + apply openRouterRequests; [reflexivity|discriminate|exact Hmodel].
    + intros o. apply settle_emits.
Qed.

Lemma callCerebras_emits (prompt context outputFile : jsstring)
      (language : option jsstring) (contextFiles : list jsstring) :
  (forall file, file = outputFile \/ In file contextFiles ->
                E (EvReadFile (readAbsolutePath HOME cwd file))) ->
  Emits E (fun r => exists raw, r = cleanCodeResponse raw) (fun _ => True)
    (callCerebras config HOME cwd prompt context outputFile language contextFiles).
Proof.
  intros reads. unfold callCerebras.
  assert (Hfallback : forall (f : JsError -> jsstring)
                             (g : JsError -> JsError -> jsstring) (error : JsError),
             Emits E (fun r => exists raw, r = cleanCodeResponse raw) (fun _ => True)
               (if negb (truthy (openRouterApiKey config))
                then Throw (Error (f error))
                else tryCatch
                       (callOpenRouter config HOME cwd prompt context outputFile
                          language contextFiles)
                       (fun openRouterError =>
                          Throw (Error (g error openRouterError))))).
  { intros f g error. destruct (negb (truthy (openRouterApiKey config)));
      [now constructor|].
    apply (Emits_tryCatch E _ (fun _ => True));
      [now apply callOpenRouter_emits|intros; now constructor]. }
  apply (Emits_tryCatch E _ (fun _ => True)).
  - destruct (cerebrasApiKey config) as [[|k key]|] eqn:Hkey; cbn [truthy negb];
      try now apply callOpenRouter_emits.
    eapply Emits_bind.
    + apply (Emits_weaken E E _ _ _ (fun _ => True) _
               (buildRequest_emits (cerebrasModel config) prompt context outputFile
                  language contextFiles
                (fun file Hin => reads file (or_intror (proj1 (proj1 (filter_In _ _ _) Hin))))
                (reads outputFile (or_introl eq_refl))));
        [auto|intros a Ha; exact Ha|auto].
    + intros requestData [Hmodel _]. cbn [tryCatch]. constructor.
      * apply cerebrasRequests; [reflexivity|discriminate|exact Hmodel].
      * intros o.
        apply (Emits_tryCatch E _ (fun _ => True)).
        -- destruct o as [o|]; [apply settle_emits|now constructor].
        -- intros error _.
           exact (Hfallback
                    (fun error => lit "Cerebras failed and no OpenRouter fallback available. Cerebras error: " ++ message error)
                    (fun error openRouterError => lit "Both Cerebras and OpenRouter failed. Cerebras error: " ++ message error ++ lit ". OpenRouter error: " ++ message openRouterError)
                    error).
  - intros error _.
    exact (Hfallback
             (fun error => lit "Cerebras setup failed and no OpenRouter fallback available. Error: " ++ message error)
             (fun error openRouterError => lit "Both Cerebras and OpenRouter failed. Setup error: " ++ message error ++ lit ". OpenRouter error: " ++ message openRouterError)
             error).
Qed.

End Performed.

(** *** How much is performed *)

Section Counted.

Variable q : Kind -> bool.

Lemma readFileContent_within (filePath : jsstring) :
  Within q (fun _ => True) (cost q KRead) (readFileContent HOME cwd filePath).
Proof.
  unfold readFileContent, fsReadFile. cbn [bind tryCatch].
  apply (Within_ReadFile q _ _ 0); [lia|].
  intros [e|c]; cbn [bind tryCatch]; [|now constructor].
  destruct (code e) as [c|]; [destruct (JS.eqb c (lit "ENOENT"))|];
    now constructor.
Qed.

Lemma appendContextFiles_within (files : list jsstring) (contextContent : jsstring) :
  Within q (fun _ => True) (cost q KRead * length files)
    (appendContextFiles HOME cwd contextContent files).
Proof.
  revert contextContent. induction files as [|f files IH]; intros contextContent;
    cbn [appendContextFiles]; [now constructor|].
  apply (Within_weaken q (fun _ => True) (fun _ => True)
           (cost q KRead + 0 + cost q KRead * length files));
    [|auto|cbn [length]; lia].
  apply (Within_bind q (fun _ => True)); [|intros a _; apply IH].
  apply Within_tryCatch; [|intros e; now constructor].
  apply (Within_weaken q (fun _ => True) (fun _ => True) (cost q KRead + 0));
    [|auto|lia].
  apply (Within_bind q (fun _ => True)); [apply readFileContent_within|].
  intros content _. destruct (truthy content); now constructor.
Qed.

Lemma buildRequest_within modelName prompt context outputFile language contextFiles :
  Within q (fun _ => True) (cost q KRead * S (length contextFiles))
    (buildRequest config HOME cwd modelName prompt context outputFile language
       contextFiles).
Proof.
  unfold buildRequest.
  apply (Within_weaken q (fun _ => True) (fun _ => True)
           (cost q KRead * length contextFiles + (cost q KRead + 0)));
    [|auto|lia].
  apply (Within_bind q (fun _ => True)).
  - destruct contextFiles as [|f files]; [now constructor|].
    destruct (filterContextFiles cwd outputFile (f :: files)) as [|g kept] eqn:Ef;
      [now constructor|].
    assert (Hlen : (length (g :: kept) <= length (f :: files))%nat).
    { rewrite <- Ef. apply filter_length_le. }
    apply (Within_weaken q (fun _ => True) (fun _ => True)
             (cost q KRead * length (g :: kept) + 0));
      [|auto|rewrite Nat.add_0_r; now apply Nat.mul_le_mono_l].
    apply (Within_bind q (fun _ => True));
      [apply appendContextFiles_within|intros; now constructor].
  - intros fullPrompt _.
    apply (Within_bind q (fun _ => True));
      [apply readFileContent_within|intros; now constructor].
Qed.

Lemma settle_within (provider : jsstring) (o : HttpOutcome) :
  Within q (fun _ => True) 0 (settle provider o).
Proof.
  unfold settle.
  destruct o as [statusCode [msg|choice0 errorMessage]|msg]; try now constructor.
  destruct (statusCode =? 200); [destruct choice0|]; now constructor.
Qed.

Lemma callOpenRouter_within prompt context outputFile language contextFiles :
  Within q (fun _ => True)
    (cost q KRead * S (length contextFiles) + cost q KOpenRouter)
    (callOpenRouter config HOME cwd prompt context outputFile language contextFiles).
Proof.
  unfold callOpenRouter.
  set (B := (cost q KRead * S (length contextFiles))%nat).
  set (P := fun promise : Prog (option jsstring) =>
              Within q (fun _ => True) (cost q KOpenRouter) promise).
  apply (Within_bind q P); [|auto].
  apply (Within_weaken q P P (B + 0)); [|auto|lia].
  apply Within_tryCatch; [|intros e; now constructor].
  destruct (negb (truthy (openRouterApiKey config))); [now constructor|].
  apply (Within_weaken q P P (B + 0)); [|auto|lia].
  apply (Within_bind q (fun _ => True)); [apply buildRequest_within|].
  intros requestData _. constructor. unfold P.
  apply (Within_OpenRouter q _ _ 0); [lia|]. intros o. apply settle_within.
Qed.

Lemma callCerebras_within prompt context outputFile language contextFiles :
  Within q (fun _ => True)
    (3 * (cost q KRead * S (length contextFiles))
     + cost q KCerebras + 2 * cost q KOpenRouter)
    (callCerebras config HOME cwd prompt context outputFile language contextFiles).
Proof.
  unfold callCerebras.
  set (B := (cost q KRead * S (length contextFiles))%nat).
  assert (Hfallback : forall (f : JsError -> jsstring)
                             (g : JsError -> JsError -> jsstring) (error : JsError),
             Within q (fun _ : option jsstring => True) (B + cost q KOpenRouter)
               (if negb (truthy (openRouterApiKey config))
                then Throw (Error (f error))
                else tryCatch
                       (callOpenRouter config HOME cwd prompt context outputFile
                          language contextFiles)
                       (fun openRouterError =>
                          Throw (Error (g error openRouterError))))).
  { intros f g error. destruct (negb (truthy (openRouterApiKey config)));
      [now constructor|].
    apply (Within_weaken q (fun _ => True) (fun _ => True) (B + cost q KOpenRouter + 0)); [|auto|lia].
    apply Within_tryCatch; [apply callOpenRouter_within|intros; now constructor]. }
  apply (Within_weaken q (fun _ => True) (fun _ => True)
           ((B + (cost q KCerebras + (B + cost q KOpenRouter)))
            + (B + cost q KOpenRouter))); [|auto|lia].
  apply Within_tryCatch.
  - destruct (negb (truthy (cerebrasApiKey config))).
    + apply (Within_weaken q (fun _ => True) (fun _ => True) (B + cost q KOpenRouter)); [|auto|lia].
      apply callOpenRouter_within.
    + apply (Within_bind q (fun _ => True)); [apply buildRequest_within|].
      intros requestData _. cbn [tryCatch].
      apply (Within_Cerebras q _ _ (B + cost q KOpenRouter)); [lia|].
      intros o.
      apply (Within_weaken q (fun _ => True) (fun _ => True) (0 + (B + cost q KOpenRouter))); [|auto|lia].
      apply Within_tryCatch.
      * destruct o as [o|]; [apply settle_within|now constructor].
      * intros error.
        exact (Hfallback
                 (fun error => lit "Cerebras failed and no OpenRouter fallback available. Cerebras error: " ++ message error)
                 (fun error openRouterError => lit "Both Cerebras and OpenRouter failed. Cerebras error: " ++ message error ++ lit ". OpenRouter error: " ++ message openRouterError)
                 error).
  - intros error.
    exact (Hfallback
             (fun error => lit "Cerebras setup failed and no OpenRouter fallback available. Error: " ++ message error)
             (fun error openRouterError => lit "Both Cerebras and OpenRouter failed. Setup error: " ++ message error ++ lit ". OpenRouter error: " ++ message openRouterError)
             error).
Qed.

Lemma writeFileContent_within (filePath : jsstring) (content : option jsstring) :
  Within q (fun _ => True) (cost q KMkdir + cost q KWrite)
    (writeFileContent HOME cwd filePath content).
Proof.
  unfold writeFileContent, fsMkdir, fsWriteFile. cbn [bind tryCatch].
  apply (Within_Mkdir q _ _ (cost q KWrite)); [lia|].
  intros [e|]; cbn [bind tryCatch]; [now constructor|].
  apply (Within_WriteFile q _ _ 0); [lia|].
  intros [e|]; cbn [bind tryCatch]; now constructor.
Qed.

End Counted.

(** *** The runs of [callOpenRouter] and [callCerebras] *)

Section ProviderRuns.

Variable w : World.

(** One turn of the loop over the context files. *)
Lemma run_contextFile (contextContent file : jsstring) (past : list Event) :
  exists more,
    run w (tryCatch
             (content <- readFileContent HOME cwd file ;;
              if truthy content then
                Ret (contextContent ++ lit "\nFile: " ++ file ++ lit "\n```"
                     ++ getLanguageFromFile file None ++ lit "\n"
                     ++ match content with Some c => c | None => [] end
                     ++ lit "\n```\n")
              else Ret contextContent)
             (fun _ => Ret contextContent)) past
    = ([EvReadFile (readAbsolutePath HOME cwd file)], inr (contextContent ++ more)).
Proof.
  unfold readFileContent, fsReadFile. cbn [bind tryCatch run].
  destruct (onReadFile w past (readAbsolutePath HOME cwd file)) as [e|c];
    cbn [bind tryCatch].
  - destruct (code e) as [c|]; [destruct (JS.eqb c (lit "ENOENT"))|];
      exists []; cbn [bind tryCatch truthy run]; now rewrite app_nil_r.
  - destruct (truthy (Some c)).
    + eexists. cbn [run]. reflexivity.
    + exists []. cbn [run]. now rewrite app_nil_r.
Qed.

Lemma run_settle (provider : jsstring) (o : HttpOutcome) (past : list Event) :
  run w (settle provider o) past = ([], settled provider o).
Proof.
  unfold settled, settle.
  destruct o as [statusCode [msg|choice0 errorMessage]|msg]; try reflexivity.
  destruct (statusCode =? 200); [destruct choice0|]; reflexivity.
Qed.

Lemma callOpenRouter_without_key (prompt context outputFile : jsstring)
      (language : option jsstring) (contextFiles : list jsstring) :
  truthy (openRouterApiKey config) = false ->
  callOpenRouter config HOME cwd prompt context outputFile language contextFiles
  = Throw (Error (lit "OpenRouter API call failed: No OpenRouter API key available. Set OPENROUTER_API_KEY environment variable.")).
Proof.
  intros H. unfold callOpenRouter. rewrite H. reflexivity.
Qed.

(** A Cerebras request that settles with a value ends the call. *)
Lemma run_callCerebras_settled (key prompt context outputFile : jsstring)
      (language : option jsstring) (contextFiles : list jsstring) (past : list Event)
      (evs : list Event) (req : RequestData) (result : option jsstring) :
  cerebrasApiKey config = Some key -> key <> [] ->
  run w (buildRequest config HOME cwd (cerebrasModel config) prompt context outputFile
           language contextFiles) past = (evs, inr req) ->
  settleCerebras (onCerebras w (past ++ evs) key req) = Ret result ->
  run w (callCerebras config HOME cwd prompt context outputFile language contextFiles)
      past
  = (evs ++ [EvCerebras key req], inr result).
Proof.
  intros Hkey Hne Hbuild Hanswer. destruct key as [|k key]; [contradiction|].
  unfold callCerebras. rewrite Hkey. cbn [truthy negb].
  rewrite run_tryCatch, run_bind, Hbuild.
  cbn [tryCatch run]. rewrite Hanswer. reflexivity.
Qed.

End ProviderRuns.

End ProviderFacts.

(** X11: the context section is built by reading every context file
    once, in the order given; a file that cannot be read or is empty is
    passed over, so the step cannot fail, and the text only grows. *)
Theorem context_files_are_read_in_order
        (w : World) (HOME cwd contextContent : jsstring) (files : list jsstring)
        (past : list Event) :
  exists more,
    run w (appendContextFiles HOME cwd contextContent files) past
    = (map (fun file => EvReadFile (readAbsolutePath HOME cwd file)) files,
       inr (contextContent ++ more)).
Proof.
  revert contextContent past.
  induction files as [|f files IH]; intros contextContent past;
    cbn [appendContextFiles map].
  - exists []. cbn [run]. now rewrite app_nil_r.
  - rewrite run_bind.
    destruct (run_contextFile HOME cwd w contextContent f past) as [more Hstep].
    rewrite Hstep.
    destruct (IH (contextContent ++ more)
                (past ++ [EvReadFile (readAbsolutePath HOME cwd f)]))
      as [more' Hrest].
    rewrite Hrest. exists (more ++ more'). cbn [app]. now rewrite app_assoc.
Qed.

(** X12: building the request of either provider only reads files, at
    most one per context file and the output file.  The request names the
    model asked for, its system prompt is the one of the detected
    language, and its user prompt ends with the instruction
    [Generate <language> code for: <prompt>]; the only error is that the
    output file cannot be read. *)
Theorem request_is_built_from_reads
        (w : World) (config : Config) (HOME cwd : jsstring)
        (modelName prompt context outputFile : jsstring)
        (language : option jsstring) (contextFiles : list jsstring)
        (past : list Event) :
  let r := run w (buildRequest config HOME cwd modelName prompt context outputFile
                    language contextFiles) past in
  Forall (fun ev => kindOf ev = KRead) (fst r) /\
  (length (fst r) <= length contextFiles + 1)%nat /\
  match snd r with
  | inr req => requestFor modelName (getLanguageFromFile outputFile language) prompt req
  | inl e => readFailure outputFile e
  end.
Proof.
  intros r.
  destruct (Emits_run (fun ev => kindOf ev = KRead) _ _ _
              (buildRequest_emits config HOME cwd (fun ev => kindOf ev = KRead)
                 modelName prompt context outputFile language contextFiles
                 (fun _ _ => eq_refl) eq_refl) w past) as [Hev Hres].
  fold r in Hev, Hres. split; [exact Hev|]. split; [|exact Hres].
  assert (Hcount := Within_run (fun _ => true) _ _ _
                      (buildRequest_within config HOME cwd (fun _ => true) modelName
                         prompt context outputFile language contextFiles) w past).
  fold r in Hcount. unfold countKind in Hcount.
  rewrite forallb_filter_id in Hcount
    by (apply forallb_forall; intros; reflexivity).
  cbn [cost] in Hcount. lia.
Qed.

(** X13: with its key set, [callOpenRouter] builds the request, sends it
    once and settles as the response says.  An error while building is
    thrown as [OpenRouter API call failed: <message>]; an error of the
    request or of its response is thrown as it is. *)
Theorem callOpenRouter_run
        (w : World) (config : Config) (HOME cwd : jsstring)
        (key prompt context outputFile : jsstring)
        (language : option jsstring) (contextFiles : list jsstring)
        (past : list Event) :
  openRouterApiKey config = Some key -> key <> [] ->
  run w (callOpenRouter config HOME cwd prompt context outputFile language contextFiles)
      past
  = match run w (buildRequest config HOME cwd (openRouterModel config) prompt context
                   outputFile language contextFiles) past with
    | (evs, inl e) =>
        (evs, inl (Error (lit "OpenRouter API call failed: " ++ message e)))
    | (evs, inr req) =>
        (evs ++ [EvOpenRouter key req],
         settled (lit "OpenRouter") (onOpenRouter w (past ++ evs) key req))
    end.
Proof.
  intros Hkey Hne. destruct key as [|k key]; [contradiction|].
  unfold callOpenRouter. rewrite Hkey. cbn [truthy negb].
  rewrite run_bind, run_tryCatch, run_bind.
  destruct (run w (buildRequest _ _ _ _ _ _ _ _ _) past) as [evs [e|req]].
  - cbn [run]. now rewrite app_nil_r.
  - cbn [run]. rewrite app_nil_r, run_settle. reflexivity.
Qed.

Lemma callOpenRouter_run_witness :
  run (sampleWorld [] None serverError)
      (callOpenRouter openRouterOnly (lit "/home/u") (lit "/work")
         (lit "add two numbers") [] (lit "/tmp/add.py") None []) []
  = match run (sampleWorld [] None serverError)
              (buildRequest openRouterOnly (lit "/home/u") (lit "/work")
                 (openRouterModel openRouterOnly) (lit "add two numbers") []
                 (lit "/tmp/add.py") None []) [] with
    | (evs, inl e) =>
        (evs, inl (Error (lit "OpenRouter API call failed: " ++ message e)))
    | (evs, inr req) =>
        (evs ++ [EvOpenRouter (lit "sk-or-1") req],
         settled (lit "OpenRouter")
           (onOpenRouter (sampleWorld [] None serverError) ([] ++ evs)
              (lit "sk-or-1") req))
    end.
Proof.
  apply (callOpenRouter_run (sampleWorld [] None serverError) openRouterOnly
           (lit "/home/u") (lit "/work") (lit "sk-or-1"));
    [reflexivity|discriminate].
Defined.

(** X14: when Cerebras answers with status 200 and a first choice, the
    call returns the sanitized content of that choice and OpenRouter is
    not requested. *)
Theorem cerebras_answer_is_returned
        (w : World) (config : Config) (HOME cwd : jsstring)
        (key prompt context outputFile : jsstring)
        (language : option jsstring) (contextFiles : list jsstring)
        (past evs : list Event) (req : RequestData)
        (raw errorMessage : option jsstring) :
  cerebrasApiKey config = Some key -> key <> [] ->
  run w (buildRequest config HOME cwd (cerebrasModel config) prompt context outputFile
           language contextFiles) past = (evs, inr req) ->
  onCerebras w (past ++ evs) key req
  = Some (HttpEnd 200 (ReplyJson (Some raw) errorMessage)) ->
  run w (callCerebras config HOME cwd prompt context outputFile language contextFiles)
      past
  = (evs ++ [EvCerebras key req], inr (cleanCodeResponse raw)).
Proof.
  intros Hkey Hne Hbuild Hanswer.
  apply (run_callCerebras_settled config HOME cwd w key); try assumption.
  rewrite Hanswer. reflexivity.
Qed.

Lemma cerebras_answer_is_returned_witness :
  exists evs req,
    run (sampleWorld [] (Some (completion (lit "```py\nx = 1\n```"))) serverError)
        (callCerebras bothKeys (lit "/home/u") (lit "/work")
           (lit "set x") [] (lit "/tmp/x.py") None []) []
    = (evs ++ [EvCerebras (lit "csk-1") req],
       inr (cleanCodeResponse (Some (lit "```py\nx = 1\n```")))).
Proof.
  eexists. eexists.
  eapply (cerebras_answer_is_returned
            (sampleWorld [] (Some (completion (lit "```py\nx = 1\n```"))) serverError)
            bothKeys (lit "/home/u") (lit "/work") (lit "csk-1")).
  - reflexivity.
  - discriminate.
  - vm_compute. reflexivity.
  - reflexivity.
Defined.

(** X15: when the Cerebras request fails (no answer in time, a failed
    request, a status other than 200, a reply without a first choice or
    one that cannot be parsed) and the OpenRouter key is set, OpenRouter
    is called after it, and what that call returns is returned. *)
Theorem failover_returns_openRouter_answer
        (w : World) (config : Config) (HOME cwd : jsstring)
        (key prompt context outputFile : jsstring)
        (language : option jsstring) (contextFiles : list jsstring)
        (past evs evs' : list Event) (req : RequestData) (error : JsError)
        (result : option jsstring) :
  cerebrasApiKey config = Some key -> key <> [] ->
  truthy (openRouterApiKey config) = true ->
  run w (buildRequest config HOME cwd (cerebrasModel config) prompt context outputFile
           language contextFiles) past = (evs, inr req) ->
  settleCerebras (onCerebras w (past ++ evs) key req) = Throw error ->
  run w (callOpenRouter config HOME cwd prompt context outputFile language contextFiles)
      ((past ++ evs) ++ [EvCerebras key req]) = (evs', inr result) ->
  run w (callCerebras config HOME cwd prompt context outputFile language contextFiles)
      past
  = (evs ++ EvCerebras key req :: evs', inr result).
Proof.
  intros Hkey Hne Hor Hbuild Hfail Hsecond. destruct key as [|k key]; [contradiction|].
  unfold callCerebras. rewrite Hkey, Hor. cbn [truthy negb].
  rewrite run_tryCatch, run_bind, Hbuild.
  cbn [tryCatch run]. rewrite Hfail. cbn [tryCatch].
  rewrite run_tryCatch, Hsecond. reflexivity.
Qed.

Lemma failover_returns_openRouter_answer_witness :
  exists evs req evs',
    run (sampleWorld [] None (completion (lit "x = 1")))
        (callCerebras bothKeys (lit "/home/u") (lit "/work")
           (lit "set x") [] (lit "/tmp/x.py") None []) []
    = (evs ++ EvCerebras (lit "csk-1") req :: evs', inr (Some (lit "x = 1"))).
Proof.
  eexists. eexists. eexists.
  eapply (failover_returns_openRouter_answer
            (sampleWorld [] None (completion (lit "x = 1")))
            bothKeys (lit "/home/u") (lit "/work") (lit "csk-1")).
  - reflexivity.
  - discriminate.
  - reflexivity.
  - vm_compute. reflexivity.
  - reflexivity.
  - vm_compute. reflexivity.
Defined.

(** X16: when the Cerebras request fails and no OpenRouter key is set,
    the call fails after that one request; the error of the inner handler
    is caught by the outer one, so the message carries both prefixes. *)
Theorem cerebras_failure_without_fallback
        (w : World) (config : Config) (HOME cwd : jsstring)
        (key prompt context outputFile : jsstring)
        (language : option jsstring) (contextFiles : list jsstring)
        (past evs : list Event) (req : RequestData) (error : JsError) :
  cerebrasApiKey config = Some key -> key <> [] ->
  truthy (openRouterApiKey config) = false ->
  run w (buildRequest config HOME cwd (cerebrasModel config) prompt context outputFile
           language contextFiles) past = (evs, inr req) ->
  settleCerebras (onCerebras w (past ++ evs) key req) = Throw error ->
  run w (callCerebras config HOME cwd prompt context outputFile language contextFiles)
      past
  = (evs ++ [EvCerebras key req],
     inl (Error (lit "Cerebras setup failed and no OpenRouter fallback available. Error: Cerebras failed and no OpenRouter fallback available. Cerebras error: "
                 ++ message error))).
Proof.
  intros Hkey Hne Hor Hbuild Hfail. destruct key as [|k key]; [contradiction|].
  unfold callCerebras. rewrite Hkey, Hor. cbn [truthy negb].
  rewrite run_tryCatch, run_bind, Hbuild.
  cbn [tryCatch run]. rewrite Hfail. cbn [tryCatch run app message Error].
  rewrite app_nil_r. reflexivity.
Qed.

Lemma cerebras_failure_without_fallback_witness :
  exists evs req,
    run (sampleWorld [] None serverError)
        (callCerebras (mkConfig (Some (lit "csk-1")) (lit "qwen-3-coder-480b") None
                         None (lit "qwen/qwen3-coder"))
           (lit "/home/u") (lit "/work") (lit "set x") [] (lit "/tmp/x.py") None []) []
    = (evs ++ [EvCerebras (lit "csk-1") req],
       inl (Error (lit "Cerebras setup failed and no OpenRouter fallback available. Error: Cerebras failed and no OpenRouter fallback available. Cerebras error: "
                   ++ message (Error (lit "Request timeout after 30 seconds"))))).
Proof.
  eexists. eexists.
  eapply (cerebras_failure_without_fallback
            (sampleWorld [] None serverError)
            (mkConfig (Some (lit "csk-1")) (lit "qwen-3-coder-480b") None
               None (lit "qwen/qwen3-coder"))
            (lit "/home/u") (lit "/work") (lit "csk-1")).
  - reflexivity.
  - discriminate.
  - reflexivity.
  - vm_compute. reflexivity.
  - reflexivity.
Defined.

(** X17: with neither key set the call is a bare [throw]: it fails at
    once, reads no file and requests no provider. *)
Theorem no_key_no_operation
        (config : Config) (HOME cwd prompt context outputFile : jsstring)
        (language : option jsstring) (contextFiles : list jsstring) :
  truthy (cerebrasApiKey config) = false ->
  truthy (openRouterApiKey config) = false ->
  callCerebras config HOME cwd prompt context outputFile language contextFiles
  = Throw (Error (lit "Cerebras setup failed and no OpenRouter fallback available. Error: OpenRouter API call failed: No OpenRouter API key available. Set OPENROUTER_API_KEY environment variable.")).
Proof.
  intros Hc Ho. unfold callCerebras. rewrite Hc. cbn [negb].
  rewrite callOpenRouter_without_key by exact Ho. cbn [tryCatch]. rewrite Ho.
  reflexivity.
Qed.

Lemma no_key_no_operation_witness :
  callCerebras (mkConfig None (lit "qwen-3-coder-480b") None (Some [])
                  (lit "qwen/qwen3-coder"))
    (lit "/home/u") (lit "/work") (lit "set x") [] (lit "/tmp/x.py") None
    [lit "/tmp/y.py"]
  = Throw (Error (lit "Cerebras setup failed and no OpenRouter fallback available. Error: OpenRouter API call failed: No OpenRouter API key available. Set OPENROUTER_API_KEY environment variable.")).
Proof.
  apply (no_key_no_operation
           (mkConfig None (lit "qwen-3-coder-480b") None (Some [])
              (lit "qwen/qwen3-coder"))); reflexivity.
Defined.

(** ** The handler of the write tool *)

Section HandlerFacts.

Variable config : Config.
Variables HOME cwd : jsstring.
Variable createPatch :
  jsstring -> jsstring -> jsstring -> jsstring -> jsstring -> jsstring.

Lemma writeFileContent_emits (E : Event -> Prop) (filePath : jsstring)
      (content : option jsstring) :
  E (EvMkdir (Path.dirname (writeAbsolutePath HOME cwd filePath))) ->
  E (EvWriteFile (writeAbsolutePath HOME cwd filePath) content) ->
  Emits E (fun _ => True) (fun _ => True) (writeFileContent HOME cwd filePath content).
Proof.
  intros Hm Hw. unfold writeFileContent, fsMkdir, fsWriteFile. cbn [bind tryCatch].
  constructor; [exact Hm|].
  intros [e|]; cbn [bind tryCatch]; [now constructor|].
  constructor; [exact Hw|].
  intros [e|]; cbn [bind tryCatch]; now constructor.
Qed.

Lemma handleCallTool_emits (request : CallToolRequest) :
  Emits (allowedEvent config HOME cwd (targetOf request) (contextOf request))
    (fun _ => True) (handlerFailure request)
    (handleCallTool config HOME cwd createPatch request).
Proof.
  unfold handleCallTool, handlerFailure.
  destruct (JS.eqb (name request) (lit "write")); [|now constructor].
  apply (Emits_tryCatch _ _ (fun _ => True)).
  2:{ intros e _. constructor. cbn [message Error]. apply startsWith_app. }
  unfold targetOf, contextOf.
  destruct (arguments request) as [args|]; [|now constructor].
  destruct (negb (truthy (prompt args))); [now constructor|].
  destruct (negb (truthy (file_path args))); [now constructor|].
  set (fp := match file_path args with Some p => p | None => [] end).
  set (ctx := match context_files args with Some l => l | None => [] end).
  set (E := allowedEvent config HOME cwd fp ctx).
  apply (Emits_bind E (fun _ => True)).
  { apply (Emits_weaken E E (fun _ => True) (fun _ => True) (readFailure fp)
             (fun _ => True)); auto.
    apply readFileContent_emits. unfold E. cbn [allowedEvent]. now left. }
  intros existing _. apply (Emits_bind E (fun _ => True)).
  { apply (Emits_weaken E E (fun r => exists raw, r = cleanCodeResponse raw)
             (fun _ => True) (fun _ => True) (fun _ => True)); auto.
    apply callCerebras_emits.
    - intros key req H1 H2 H3. unfold E. cbn [allowedEvent]. now repeat split.
    - intros key req H1 H2 H3. unfold E. cbn [allowedEvent]. now repeat split.
    - intros file [->|Hin]; unfold E; cbn [allowedEvent]; [now left|].
      right. now exists file. }
  intros result _. apply (Emits_bind E (fun _ => True)).
  { apply writeFileContent_emits; unfold E; cbn [allowedEvent]; [reflexivity|].
    split; [reflexivity|]. intros d Hd.
    destruct (cleanCodeResponse_shape _ _ Hd) as [->|[x [Hx ->]]];
      [now split|now apply dropLanguageLine_trim_sanitized]. }
  intros _ _. now constructor.
Qed.

Lemma handleCallTool_within (q : Kind -> bool) (request : CallToolRequest) :
  Within q (fun _ => True)
    (cost q KRead
     + (3 * (cost q KRead * S (length (contextOf request)))
        + cost q KCerebras + 2 * cost q KOpenRouter)
     + (cost q KMkdir + cost q KWrite))
    (handleCallTool config HOME cwd createPatch request).
Proof.
  unfold handleCallTool.
  destruct (JS.eqb (name request) (lit "write")); [|now constructor].
  set (n := (cost q KRead
             + (3 * (cost q KRead * S (length (contextOf request)))
                + cost q KCerebras + 2 * cost q KOpenRouter)
             + (cost q KMkdir + cost q KWrite))%nat).
  apply (Within_weaken q (fun _ => True) (fun _ => True) (n + 0)); [|auto|lia].
  apply Within_tryCatch; [|intros e; now constructor].
  unfold n, contextOf.
  destruct (arguments request) as [args|]; [|now constructor].
  destruct (negb (truthy (prompt args))); [now constructor|].
  destruct (negb (truthy (file_path args))); [now constructor|].
  rewrite <- Nat.add_assoc.
  apply (Within_bind q (fun _ => True)); [apply readFileContent_within|].
  intros existing _.
  apply (Within_bind q (fun _ => True)); [apply callCerebras_within|].
  intros result _.
  apply (Within_weaken q (fun _ => True) (fun _ => True)
           (cost q KMkdir + cost q KWrite + 0)); [|auto|lia].
  apply (Within_bind q (fun _ => True)); [apply writeFileContent_within|].
  intros _ _. now constructor.
Qed.

End HandlerFacts.

(** X18: whatever the request and however the world answers, the handler
    reads only the file it is asked to write and the context files given,
    makes only the directory of that file and writes only that file, with
    text that is trimmed and has no fence in it; it requests a provider
    only with that provider's own key, which is set, and for that
    provider's own model. *)
Theorem handler_operations
        (w : World) (config : Config) (HOME cwd : jsstring)
        (createPatch : jsstring -> jsstring -> jsstring -> jsstring -> jsstring -> jsstring)
        (request : CallToolRequest) (past : list Event) :
  Forall (allowedEvent config HOME cwd (targetOf request) (contextOf request))
         (fst (run w (handleCallTool config HOME cwd createPatch request) past)).
Proof.
  apply (Emits_run _ _ _ _ (handleCallTool_emits config HOME cwd createPatch request)).
Qed.

(** X19: in one call the handler makes at most one directory, writes at
    most one file, requests Cerebras at most once and OpenRouter at most
    twice, and reads at most 3 (n + 1) + 1 files, n being the number of
    context files. *)
Theorem handler_operation_counts
        (w : World) (config : Config) (HOME cwd : jsstring)
        (createPatch : jsstring -> jsstring -> jsstring -> jsstring -> jsstring -> jsstring)
        (request : CallToolRequest) (past : list Event) :
  let evs := fst (run w (handleCallTool config HOME cwd createPatch request) past) in
  (countKind (isKind KMkdir) evs <= 1)%nat /\
  (countKind (isKind KWrite) evs <= 1)%nat /\
  (countKind (isKind KCerebras) evs <= 1)%nat /\
  (countKind (isKind KOpenRouter) evs <= 2)%nat /\
  (countKind (isKind KRead) evs <= 3 * (length (contextOf request) + 1) + 1)%nat.
Proof.
  intros evs.
  assert (H : forall q,
             (countKind q evs
              <= cost q KRead
                 + (3 * (cost q KRead * S (length (contextOf request)))
                    + cost q KCerebras + 2 * cost q KOpenRouter)
                 + (cost q KMkdir + cost q KWrite))%nat).
  { intros q.
    apply (Within_run q _ _ _ (handleCallTool_within config HOME cwd createPatch q request)). }
  repeat split.
  - specialize (H (isKind KMkdir)). cbn [cost isKind] in H. lia.
  - specialize (H (isKind KWrite)). cbn [cost isKind] in H. lia.
  - specialize (H (isKind KCerebras)). cbn [cost isKind] in H. lia.
  - specialize (H (isKind KOpenRouter)). cbn [cost isKind] in H. lia.
  - specialize (H (isKind KRead)). cbn [cost isKind] in H. lia.
Qed.

(** X20: a result comes from the write tool only.  Every error of a call
    of the write tool has a message that starts with
    [Failed to write code: ]; a call of any other tool fails with
    [Unknown tool: <name>] and performs nothing. *)
Theorem handler_errors
        (w : World) (config : Config) (HOME cwd : jsstring)
        (createPatch : jsstring -> jsstring -> jsstring -> jsstring -> jsstring -> jsstring)
        (request : CallToolRequest) (past : list Event) :
  match run w (handleCallTool config HOME cwd createPatch request) past with
  | (evs, inl e) =>
      if JS.eqb (name request) (lit "write")
      then startsWith (lit "Failed to write code: ") (message e) = true
      else evs = [] /\ e = Error (lit "Unknown tool: " ++ name request)
  | (_, inr _) => JS.eqb (name request) (lit "write") = true
  end.
Proof.
  destruct (JS.eqb (name request) (lit "write")) eqn:E.
  - assert (H := proj2 (Emits_run _ _ _ _
                          (handleCallTool_emits config HOME cwd createPatch request)
                          w past)).
    unfold handlerFailure in H. rewrite E in H.
    destruct (run w _ past) as [evs [e|r]]; [exact H|reflexivity].
  - unfold handleCallTool. rewrite E. cbn [run]. now split.
Qed.

(** X21: when the completion cannot be obtained the call ends with that
    error, prefixed, and no directory is made and no file written. *)
Theorem failed_generation_writes_nothing
        (w : World) (config : Config) (HOME cwd : jsstring)
        (createPatch : jsstring -> jsstring -> jsstring -> jsstring -> jsstring -> jsstring)
        (past : list Event) (fp pr : jsstring) (ctx : option (list jsstring))
        (existing : option jsstring) (e : JsError) (evs1 evs2 : list Event) :
  fp <> [] -> pr <> [] ->
  run w (readFileContent HOME cwd fp) past = (evs1, inr existing) ->
  run w (callCerebras config HOME cwd pr [] fp None
           (match ctx with Some l => l | None => [] end)) (past ++ evs1)
  = (evs2, inl e) ->
  run w (handleCallTool config HOME cwd createPatch
           (mkCall (lit "write") (Some (mkArguments (Some fp) (Some pr) ctx)))) past
  = (evs1 ++ evs2, inl (Error (lit "Failed to write code: " ++ message e)))
  /\ countKind (fun k => isKind KMkdir k || isKind KWrite k) (evs1 ++ evs2) = 0%nat.
Proof.
  intros Hfp Hpr Hread Hgen. split.
  - destruct fp as [|f fp]; [contradiction|].
    destruct pr as [|p pr]; [contradiction|].
    unfold handleCallTool.
    assert (E : JS.eqb (lit "write") (lit "write") = true) by reflexivity.
    cbn [name arguments Server.prompt Server.file_path context_files truthy negb].
    rewrite E.
    rewrite run_tryCatch, run_bind, Hread.
    rewrite run_bind, Hgen.
    cbn [run]. now rewrite app_nil_r.
  - set (q := fun k => isKind KMkdir k || isKind KWrite k).
    assert (H1 := Within_run q _ _ _ (readFileContent_within HOME cwd q fp) w past).
    assert (H2 := Within_run q _ _ _
                    (callCerebras_within config HOME cwd q pr [] fp None
                       (match ctx with Some l => l | None => [] end))
                    w (past ++ evs1)).
    rewrite Hread in H1. rewrite Hgen in H2. cbn [fst] in H1, H2.
    change (cost q KRead) with 0%nat in H1, H2.
    change (cost q KCerebras) with 0%nat in H2.
    change (cost q KOpenRouter) with 0%nat in H2.
    rewrite countKind_app. lia.
Qed.

Lemma failed_generation_writes_nothing_witness :
  exists evs1 evs2 e,
    run (sampleWorld [] (Some serverError) serverError)
        (handleCallTool bothKeys (lit "/home/u") (lit "/work") exampleCreatePatch
           (mkCall (lit "write")
              (Some (mkArguments (Some (lit "/tmp/x.py")) (Some (lit "set x")) None))))
        []
    = (evs1 ++ evs2, inl (Error (lit "Failed to write code: " ++ message e)))
    /\ countKind (fun k => isKind KMkdir k || isKind KWrite k) (evs1 ++ evs2) = 0%nat.
Proof.
  eexists. eexists. eexists.
  eapply (failed_generation_writes_nothing
            (sampleWorld [] (Some serverError) serverError) bothKeys
            (lit "/home/u") (lit "/work") exampleCreatePatch []
            (lit "/tmp/x.py") (lit "set x") None).
  - discriminate.
  - discriminate.
  - vm_compute. reflexivity.
  - vm_compute. reflexivity.
Defined.

(** X22: when the file is there and empty, the call writes it and
    returns no content at all: neither the diff of an edit nor the diff
    of a new file. *)
Theorem empty_file_edit_reports_nothing
        (w : World) (config : Config) (HOME cwd : jsstring)
        (createPatch : jsstring -> jsstring -> jsstring -> jsstring -> jsstring -> jsstring)
        (past : list Event) (fp pr : jsstring) (ctx : option (list jsstring))
        (result : option jsstring) (written : bool)
        (evs1 evs2 evs3 : list Event) :
  fp <> [] -> pr <> [] ->
  run w (readFileContent HOME cwd fp) past = (evs1, inr (Some [])) ->
  run w (callCerebras config HOME cwd pr [] fp None
           (match ctx with Some l => l | None => [] end)) (past ++ evs1)
  = (evs2, inr result) ->
  run w (writeFileContent HOME cwd fp (cleanCodeResponse result))
        ((past ++ evs1) ++ evs2)
  = (evs3, inr written) ->
  run w (handleCallTool config HOME cwd createPatch
           (mkCall (lit "write") (Some (mkArguments (Some fp) (Some pr) ctx)))) past
  = (evs1 ++ evs2 ++ evs3, inr []).
Proof.
  intros Hfp Hpr Hread Hgen Hwrite.
  exact (run_handleCallTool w config HOME cwd createPatch past fp pr ctx
           (Some []) result written evs1 evs2 evs3 Hfp Hpr Hread Hgen Hwrite).
Qed.

Lemma empty_file_edit_reports_nothing_witness :
  exists evs1 evs2 evs3,
    run (sampleWorld [(lit "/tmp/x.py", [])] (Some (completion (lit "x = 1")))
           serverError)
        (handleCallTool bothKeys (lit "/home/u") (lit "/work") exampleCreatePatch
           (mkCall (lit "write")
              (Some (mkArguments (Some (lit "/tmp/x.py")) (Some (lit "set x")) None))))
        []
    = (evs1 ++ evs2 ++ evs3, inr []).
Proof.
  eexists. eexists. eexists.
  eapply (empty_file_edit_reports_nothing
            (sampleWorld [(lit "/tmp/x.py", [])] (Some (completion (lit "x = 1")))
               serverError)
            bothKeys (lit "/home/u") (lit "/work") exampleCreatePatch []
            (lit "/tmp/x.py") (lit "set x") None).
  - discriminate.
  - discriminate.
  - vm_compute. reflexivity.
  - vm_compute. reflexivity.
  - vm_compute. reflexivity.
Defined.

(** X23: a call for a file that is not there, answered by Cerebras with
    status 200: the file is looked up, the request is built and sent, and
    only then the directory is made and the file written.  What is
    written is the content of the answer sanitized twice, and what is
    returned is the diff of a new file with that text. *)
Theorem new_file_is_written_after_the_answer
        (w : World) (config : Config) (HOME cwd : jsstring)
        (createPatch : jsstring -> jsstring -> jsstring -> jsstring -> jsstring -> jsstring)
        (past : list Event) (fp pr key : jsstring) (ctx : option (list jsstring))
        (error : JsError) (evs : list Event) (req : RequestData)
        (raw errorMessage : option jsstring) :
  fp <> [] -> pr <> [] ->
  cerebrasApiKey config = Some key -> key <> [] ->
  onReadFile w past (readAbsolutePath HOME cwd fp) = inl error ->
  code error = Some (lit "ENOENT") ->
  run w (buildRequest config HOME cwd (cerebrasModel config) pr [] fp None
           (match ctx with Some l => l | None => [] end))
        (past ++ [EvReadFile (readAbsolutePath HOME cwd fp)])
  = (evs, inr req) ->
  onCerebras w ((past ++ [EvReadFile (readAbsolutePath HOME cwd fp)]) ++ evs) key req
  = Some (HttpEnd 200 (ReplyJson (Some raw) errorMessage)) ->
  onMkdir w ((past ++ [EvReadFile (readAbsolutePath HOME cwd fp)])
             ++ evs ++ [EvCerebras key req])
          (Path.dirname (writeAbsolutePath HOME cwd fp)) = None ->
  onWriteFile w (((past ++ [EvReadFile (readAbsolutePath HOME cwd fp)])
                  ++ evs ++ [EvCerebras key req])
                 ++ [EvMkdir (Path.dirname (writeAbsolutePath HOME cwd fp))])
              (writeAbsolutePath HOME cwd fp)
              (cleanCodeResponse (cleanCodeResponse raw)) = None ->
  run w (handleCallTool config HOME cwd createPatch
           (mkCall (lit "write") (Some (mkArguments (Some fp) (Some pr) ctx)))) past
  = ([EvReadFile (readAbsolutePath HOME cwd fp)]
     ++ (evs ++ [EvCerebras key req])
     ++ [EvMkdir (Path.dirname (writeAbsolutePath HOME cwd fp));
         EvWriteFile (writeAbsolutePath HOME cwd fp)
           (cleanCodeResponse (cleanCodeResponse raw))],
     inr (diffContent
            (generateGitDiff createPatch None
               (cleanCodeResponse (cleanCodeResponse raw)) fp))).
Proof.
  intros Hfp Hpr Hkey Hne Hmissing Hcode Hbuild Hanswer Hmkdir Hwrite.
  assert (Hread : run w (readFileContent HOME cwd fp) past
                  = ([EvReadFile (readAbsolutePath HOME cwd fp)], inr None)).
  { unfold readFileContent, fsReadFile. cbn [bind tryCatch run].
    rewrite Hmissing. cbn [bind tryCatch]. rewrite Hcode. reflexivity. }
  assert (Hgen : run w (callCerebras config HOME cwd pr [] fp None
                          (match ctx with Some l => l | None => [] end))
                     (past ++ [EvReadFile (readAbsolutePath HOME cwd fp)])
                 = (evs ++ [EvCerebras key req], inr (cleanCodeResponse raw))).
  { apply (run_callCerebras_settled config HOME cwd w key); try assumption.
    rewrite Hanswer. reflexivity. }
  assert (Hput : run w (writeFileContent HOME cwd fp
                          (cleanCodeResponse (cleanCodeResponse raw)))
                     ((past ++ [EvReadFile (readAbsolutePath HOME cwd fp)])
                      ++ evs ++ [EvCerebras key req])
                 = ([EvMkdir (Path.dirname (writeAbsolutePath HOME cwd fp));
                     EvWriteFile (writeAbsolutePath HOME cwd fp)
                       (cleanCodeResponse (cleanCodeResponse raw))], inr true)).
  { unfold writeFileContent, fsMkdir, fsWriteFile. cbn [bind tryCatch run].
    rewrite Hmkdir. cbn [bind tryCatch run]. rewrite Hwrite. reflexivity. }
  exact (run_handleCallTool w config HOME cwd createPatch past fp pr ctx
           None (cleanCodeResponse raw) true _ _ _ Hfp Hpr Hread Hgen Hput).
Qed.

Lemma new_file_is_written_after_the_answer_witness :
  exists evs req,
    run (sampleWorld [] (Some (completion (lit "```\npython\nbash\nx = 1\n```")))
           serverError)
        (handleCallTool bothKeys (lit "/home/u") (lit "/work") exampleCreatePatch
           (mkCall (lit "write")
              (Some (mkArguments (Some (lit "/tmp/x.py")) (Some (lit "set x")) None))))
        []
    = ([EvReadFile (lit "/tmp/x.py")]
       ++ (evs ++ [EvCerebras (lit "csk-1") req])
       ++ [EvMkdir (lit "/tmp"); EvWriteFile (lit "/tmp/x.py") (Some (lit "x = 1"))],
       inr (diffContent
              (generateGitDiff exampleCreatePatch None (Some (lit "x = 1"))
                 (lit "/tmp/x.py")))).
Proof.
  eexists. eexists.
  eapply (new_file_is_written_after_the_answer
            (sampleWorld [] (Some (completion (lit "```\npython\nbash\nx = 1\n```")))
               serverError)
            bothKeys (lit "/home/u") (lit "/work") exampleCreatePatch []
            (lit "/tmp/x.py") (lit "set x") (lit "csk-1") None ENOENT _ _
            (Some (lit "```\npython\nbash\nx = 1\n```")) None).
  - discriminate.
  - discriminate.
  - reflexivity.
  - discriminate.
  - reflexivity.
  - reflexivity.
  - vm_compute. reflexivity.
  - reflexivity.
  - reflexivity.
  - reflexivity.
Defined.

(** ** The decoration of the diff *)

Section LineFacts.

Lemma last_cons {X : Type} (x d : X) (s : list X) : last (x :: s) d = last s x.
Proof.
  revert x d. induction s as [|y s IH]; intros x d; [reflexivity|].
  change (last (x :: y :: s) d) with (last (y :: s) d).
  now rewrite (IH y d), (IH y x).
Qed.

Lemma noTerminator_last (s : jsstring) (c : char) :
  noTerminator s = true -> isLineTerminator c = false ->
  isLineTerminator (last s c) = false.
Proof.
  revert c. induction s as [|x s IH]; intros c Hs Hc; [exact Hc|].
  unfold noTerminator in Hs. cbn [forallb] in Hs.
  apply andb_true_iff in Hs as [Hx Hs]. apply negb_true_iff in Hx.
  rewrite last_cons. now apply IH.
Qed.

(** Inside a line nothing matches. *)
Lemma replaceAll_inside (l rep line rest : jsstring) :
  forall c,
    isLineTerminator c = false -> noTerminator line = true ->
    replaceAll AtLineStart (Lit l) rep (Some c) 0 (line ++ rest)
    = line ++ replaceAll AtLineStart (Lit l) rep (Some (last line c)) 0 rest.
Proof.
  induction line as [|x line IH]; intros c Hc Hline; [reflexivity|].
  unfold noTerminator in Hline. cbn [forallb] in Hline.
  apply andb_true_iff in Hline as [Hx Hline]. apply negb_true_iff in Hx.
  rewrite replaceAll_unfold. unfold matchAt. cbn [mayStart]. rewrite Hc.
  cbn [app]. rewrite (IH x Hx Hline). now rewrite last_cons.
Qed.

(** The code units of a match are passed over. *)
Lemma replaceAll_pass (l rep m rest : jsstring) :
  forall c k,
    length m = k ->
    replaceAll AtLineStart (Lit l) rep (Some c) k (m ++ rest)
    = replaceAll AtLineStart (Lit l) rep (Some (last m c)) 0 rest.
Proof.
  induction m as [|x m IH]; intros c k Hk.
  - cbn [length] in Hk. subst k. reflexivity.
  - cbn [length] in Hk. subst k. cbn [app replaceAll].
    rewrite (IH x (length m) eq_refl). now rewrite last_cons.
Qed.

Lemma startsWith_split (p s : jsstring) :
  startsWith p s = true -> s = p ++ skipn (length p) s.
Proof.
  revert s. induction p as [|a p IH]; intros s H; [reflexivity|].
  destruct s as [|b s]; [discriminate|]. cbn [startsWith] in H.
  apply andb_true_iff in H as [Hab H]. apply N.eqb_eq in Hab. subst b.
  cbn [length skipn app]. f_equal. now apply IH.
Qed.

(** The pattern does not reach over the end of a line. *)
Lemma startsWith_line (p line rest : jsstring) :
  noTerminator p = true ->
  match rest with [] => True | c :: _ => c = NL end ->
  startsWith p (line ++ rest) = startsWith p line.
Proof.
  intros Hp Hrest. revert line. induction p as [|a p IH]; intros line; [reflexivity|].
  unfold noTerminator in Hp. cbn [forallb] in Hp.
  apply andb_true_iff in Hp as [Ha Hp]. apply negb_true_iff in Ha.
  destruct line as [|x line]; cbn [app].
  - destruct rest as [|c rest]; [reflexivity|]. subst c. cbn [startsWith].
    unfold isLineTerminator in Ha. apply orb_false_iff in Ha as [Ha _].
    apply orb_false_iff in Ha as [Ha _]. apply orb_false_iff in Ha as [Ha _].
    unfold NL. now rewrite Ha.
  - cbn [startsWith]. now rewrite (IH Hp).
Qed.

End LineFacts.

Section DecorationFacts.

Variable l : jsstring.
Variable rep : jsstring.
Hypothesis l_nonempty : l <> [].
Hypothesis l_plain : noTerminator l = true.

Lemma replaceAll_end (prev : option char) :
  replaceAll AtLineStart (Lit l) rep prev 0 [] = [].
Proof.
  destruct l as [|a p]; [contradiction|].
  cbn [replaceAll]. unfold matchAt, matchHere. cbn [attempts startsWith hd_error].
  now destruct (mayStart AtLineStart prev).
Qed.

Lemma replaceAll_newline (prev : option char) (rest : jsstring) :
  replaceAll AtLineStart (Lit l) rep prev 0 (NL :: rest)
  = NL :: replaceAll AtLineStart (Lit l) rep (Some NL) 0 rest.
Proof.
  rewrite replaceAll_unfold. unfold matchAt, matchHere. cbn [attempts].
  assert (E := startsWith_line l [] (NL :: rest) l_plain eq_refl).
  cbn [app] in E. rewrite E.
  destruct l as [|a p]; [contradiction|]. cbn [startsWith hd_error].
  now destruct (mayStart AtLineStart prev).
Qed.

(** One line, from its start. *)
Lemma replaceAll_line (prev : option char) (line rest : jsstring) :
  mayStart AtLineStart prev = true -> noTerminator line = true ->
  match rest with [] => True | c :: _ => c = NL end ->
  exists prev',
    replaceAll AtLineStart (Lit l) rep prev 0 (line ++ rest)
    = markLine l rep line ++ replaceAll AtLineStart (Lit l) rep prev' 0 rest.
Proof.
  intros Hprev Hline Hrest. unfold markLine.
  rewrite replaceAll_unfold. unfold matchAt, matchHere. rewrite Hprev.
  cbn [attempts]. rewrite (startsWith_line l line rest l_plain Hrest).
  destruct (startsWith l line) eqn:E; cbn [hd_error].
  - pose proof (startsWith_split _ _ E) as Hsplit.
    set (tail := skipn (length l) line) in *. clearbody tail. subst line.
    assert (Htail : noTerminator tail = true).
    { unfold noTerminator in *. rewrite forallb_app in Hline.
      now apply andb_true_iff in Hline as [_ Hline]. }
    rewrite <- (app_assoc l tail rest). rewrite skipn_length_app.
    assert (Hl := l_plain).
    destruct l as [|a p]; [contradiction|].
    unfold noTerminator in Hl. cbn [forallb] in Hl.
    apply andb_true_iff in Hl as [Ha Hp]. apply negb_true_iff in Ha.
    cbn [app].
    replace (length (a :: p ++ tail ++ rest) - length (tail ++ rest))%nat
      with (S (length p)) by (cbn [length]; rewrite !length_app; lia).
    rewrite (replaceAll_pass (a :: p) rep p (tail ++ rest) a (length p) eq_refl).
    rewrite (replaceAll_inside (a :: p) rep tail rest (last p a)
               (noTerminator_last p a Hp Ha) Htail).
    eexists. now rewrite app_assoc.
  - destruct line as [|x line]; cbn [app].
    + exists prev. rewrite replaceAll_unfold. unfold matchAt, matchHere.
      rewrite Hprev. cbn [attempts].
      rewrite <- (startsWith_line l [] rest l_plain Hrest) in E. cbn [app] in E.
      rewrite E. reflexivity.
    + unfold noTerminator in Hline. cbn [forallb] in Hline.
      apply andb_true_iff in Hline as [Hx Hline]. apply negb_true_iff in Hx.
      rewrite (replaceAll_inside l rep line rest x Hx Hline). eexists. reflexivity.
Qed.

(** A text, line by line. *)
Lemma replaceAll_lines (lines : list jsstring) :
  lines <> [] -> Forall (fun line => noTerminator line = true) lines ->
  forall prev,
    mayStart AtLineStart prev = true ->
    replaceAll AtLineStart (Lit l) rep prev 0 (join [NL] lines)
    = join [NL] (map (markLine l rep) lines).
Proof.
  induction lines as [|x lines IH]; [contradiction|]. intros _ Hall prev Hprev.
  inversion Hall as [|? ? Hx Hlines]; subst.
  destruct lines as [|y lines].
  - cbn [join map].
    destruct (replaceAll_line prev x [] Hprev Hx I) as [prev' H].
    rewrite app_nil_r in H. rewrite H, replaceAll_end. apply app_nil_r.
  - change (join [NL] (x :: y :: lines)) with (x ++ NL :: join [NL] (y :: lines)).
    change (join [NL] (map (markLine l rep) (x :: y :: lines)))
      with (markLine l rep x ++ NL :: join [NL] (map (markLine l rep) (y :: lines))).
    destruct (replaceAll_line prev x (NL :: join [NL] (y :: lines)) Hprev Hx eq_refl)
      as [prev' H].
    rewrite H, replaceAll_newline. f_equal. f_equal.
    apply IH; [discriminate|exact Hlines|reflexivity].
Qed.

Lemma markLine_plain (line : jsstring) :
  noTerminator rep = true -> noTerminator line = true ->
  noTerminator (markLine l rep line) = true.
Proof.
  intros Hrep Hline. unfold markLine. destruct (startsWith l line); [|exact Hline].
  unfold noTerminator in *. rewrite forallb_app, Hrep. cbn [andb].
  rewrite <- (firstn_skipn (length l) line), forallb_app in Hline.
  now apply andb_true_iff in Hline as [_ Hline].
Qed.

End DecorationFacts.

Section CursorFriendly.

Lemma split_plain_lines (s : jsstring) :
  forallb (fun c => negb (isLineTerminator c) || (c =? NL)) s = true ->
  Forall (fun line => noTerminator line = true) (split NL s).
Proof.
  induction s as [|c s IH]; intros H; cbn [split].
  - constructor; [reflexivity|constructor].
  - cbn [forallb] in H. apply andb_true_iff in H as [Hc H]. specialize (IH H).
    destruct (c =? NL) eqn:E.
    + constructor; [reflexivity|exact IH].
    + rewrite orb_false_r in Hc.
      destruct (split NL s) as [|x ls]; [constructor; [|constructor]|].
      * unfold noTerminator. cbn [forallb]. now rewrite Hc.
      * inversion IH as [|? ? Hx Hls]; subst. constructor; [|exact Hls].
        unfold noTerminator in *. cbn [forallb]. now rewrite Hc, Hx.
Qed.

Lemma friendlyLine_passes (line : jsstring) :
  markLine (lit "  ") (lit "   ")
    (markLine (lit "+ ") (CHECK_MARK ++ lit " ")
       (markLine (lit "- ") (CROSS ++ lit " ")
          (markLine (lit "@@ ") (MAGNIFIER ++ lit " ") line)))
  = friendlyLine line.
Proof.
  unfold friendlyLine.
  unfold markLine at 4. destruct (startsWith (lit "@@ ") line); [reflexivity|].
  unfold markLine at 3. destruct (startsWith (lit "- ") line); [reflexivity|].
  unfold markLine at 2. destruct (startsWith (lit "+ ") line); [reflexivity|].
  unfold markLine. destruct (startsWith (lit "  ") line); reflexivity.
Qed.

Lemma cursorFriendly_lines (lines : list jsstring) :
  lines <> [] -> Forall (fun line => noTerminator line = true) lines ->
  cursorFriendly (join [NL] lines) = join [NL] (map friendlyLine lines).
Proof.
  intros Hne Hall. unfold cursorFriendly.
  assert (Hmap : forall p r (ls : list jsstring),
             noTerminator r = true ->
             Forall (fun line => noTerminator line = true) ls ->
             Forall (fun line => noTerminator line = true) (map (markLine p r) ls)).
  { intros p r ls Hr Hls. induction Hls; cbn [map]; constructor; auto.
    now apply markLine_plain. }
  assert (Hnil : forall p r (ls : list jsstring), ls <> [] -> map (markLine p r) ls <> []).
  { intros p r ls H. destruct ls; [contradiction|discriminate]. }
  rewrite (replaceAll_lines (lit "@@ ") _) by (auto; discriminate).
  rewrite (replaceAll_lines (lit "- ") _) by (auto; discriminate).
  rewrite (replaceAll_lines (lit "+ ") _) by (auto 6; discriminate).
  rewrite (replaceAll_lines (lit "  ") _) by (auto 8; discriminate).
  rewrite !map_map. f_equal. apply map_ext. intros line. apply friendlyLine_passes.
Qed.

End CursorFriendly.

(** X24: the four replacements that decorate a diff work line by line,
    on a diff whose only line terminators are newlines: a line that
    starts with [@@ ] gets the magnifier in its place; one that starts
    with a minus, a plus or a blank followed by a blank gets the cross,
    the check mark or one more blank; every other line, such as a removed
    line whose text does not start with a blank, is left as it is. *)
Theorem diff_is_decorated_by_line (diff : jsstring) :
  forallb (fun c => negb (isLineTerminator c) || (c =? NL)) diff = true ->
  cursorFriendly diff = join [NL] (map friendlyLine (split NL diff)).
Proof.
  intros H. rewrite <- (join_split NL diff) at 1.
  apply cursorFriendly_lines; [apply split_nonempty|now apply split_plain_lines].
Qed.

Lemma diff_is_decorated_by_line_witness :
  cursorFriendly (lit "@@ -5,2 +5,2 @@\n a\n-b\n+c\n-  d\n+  e\n  f")
  = join [NL] (map friendlyLine
                 (split NL (lit "@@ -5,2 +5,2 @@\n a\n-b\n+c\n-  d\n+  e\n  f"))).
Proof.
  apply (diff_is_decorated_by_line
           (lit "@@ -5,2 +5,2 @@\n a\n-b\n+c\n-  d\n+  e\n  f")).
  reflexivity.
Defined.

(** ** Two more paths through a call *)

(** X25: without a Cerebras key the call is the OpenRouter call: when
    that call returns, its result is returned after its events alone. *)
Theorem openRouter_alone_without_cerebras_key
        (w : World) (config : Config) (HOME cwd : jsstring)
        (prompt context outputFile : jsstring)
        (language : option jsstring) (contextFiles : list jsstring)
        (past evs : list Event) (result : option jsstring) :
  truthy (cerebrasApiKey config) = false ->
  run w (callOpenRouter config HOME cwd prompt context outputFile language contextFiles)
      past = (evs, inr result) ->
  run w (callCerebras config HOME cwd prompt context outputFile language contextFiles)
      past = (evs, inr result).
Proof.
  intros Hkey Hcall. unfold callCerebras. rewrite Hkey. cbn [negb].
  now rewrite run_tryCatch, Hcall.
Qed.

Lemma openRouter_alone_without_cerebras_key_witness :
  exists evs,
    run (sampleWorld [] None (completion (lit "x = 1")))
        (callCerebras openRouterOnly (lit "/home/u") (lit "/work")
           (lit "set x") [] (lit "/tmp/x.py") None []) []
    = (evs, inr (Some (lit "x = 1")))
    /\ countKind (isKind KCerebras) evs = 0%nat.
Proof.
  eexists. split.
  - eapply (openRouter_alone_without_cerebras_key
              (sampleWorld [] None (completion (lit "x = 1"))) openRouterOnly
              (lit "/home/u") (lit "/work")).
    + reflexivity.
    + vm_compute. reflexivity.
  - reflexivity.
Defined.

(** X26: when the target is there but cannot be read, the call of the
    write tool ends after that one read, with both prefixes in the
    message: no provider is requested and nothing is written. *)
Theorem unreadable_target_stops_the_call
        (w : World) (config : Config) (HOME cwd : jsstring)
        (createPatch : jsstring -> jsstring -> jsstring -> jsstring -> jsstring -> jsstring)
        (past : list Event) (fp pr : jsstring) (ctx : option (list jsstring))
        (error : JsError) :
  fp <> [] -> pr <> [] ->
  onReadFile w past (readAbsolutePath HOME cwd fp) = inl error ->
  code error <> Some (lit "ENOENT") ->
  run w (handleCallTool config HOME cwd createPatch
           (mkCall (lit "write") (Some (mkArguments (Some fp) (Some pr) ctx)))) past
  = ([EvReadFile (readAbsolutePath HOME cwd fp)],
     inl (Error (lit "Failed to write code: Failed to read file " ++ fp
                 ++ lit ": " ++ message error))).
Proof.
  intros Hfp Hpr Hfail Hcode.
  assert (Hread : run w (readFileContent HOME cwd fp) past
                  = ([EvReadFile (readAbsolutePath HOME cwd fp)],
                     inl (Error (lit "Failed to read file " ++ fp ++ lit ": "
                                 ++ message error)))).
  { unfold readFileContent, fsReadFile. cbn [bind tryCatch run].
    rewrite Hfail. cbn [bind tryCatch].
    destruct (code error) as [c|]; [|reflexivity].
    destruct (JS.eqb c (lit "ENOENT")) eqn:E; [|reflexivity].
    apply eqb_eq in E. subst c. contradiction. }
  destruct fp as [|f fp]; [contradiction|].
  destruct pr as [|p pr]; [contradiction|].
  unfold handleCallTool.
  assert (E : JS.eqb (lit "write") (lit "write") = true) by reflexivity.
  cbn [name arguments Server.prompt Server.file_path context_files truthy negb].
  rewrite E.
  rewrite run_tryCatch, run_bind, Hread.
  cbn [run message Error]. now rewrite app_nil_r.
Qed.

Lemma unreadable_target_stops_the_call_witness :
  run (mkWorld (fun _ _ => inl (mkError (Some (lit "EACCES")) (lit "permission denied")))
               (fun _ _ => None) (fun _ _ _ => None)
               (fun _ _ _ => None) (fun _ _ _ => serverError))
      (handleCallTool bothKeys (lit "/home/u") (lit "/work") exampleCreatePatch
         (mkCall (lit "write")
            (Some (mkArguments (Some (lit "/etc/x.py")) (Some (lit "set x")) None)))) []
  = ([EvReadFile (readAbsolutePath (lit "/home/u") (lit "/work") (lit "/etc/x.py"))],
     inl (Error (lit "Failed to write code: Failed to read file " ++ lit "/etc/x.py"
                 ++ lit ": "
                 ++ message (mkError (Some (lit "EACCES")) (lit "permission denied"))))).
Proof.
  apply (unreadable_target_stops_the_call
           (mkWorld (fun _ _ => inl (mkError (Some (lit "EACCES")) (lit "permission denied")))
                    (fun _ _ => None) (fun _ _ _ => None)
                    (fun _ _ _ => None) (fun _ _ _ => serverError))
           bothKeys (lit "/home/u") (lit "/work") exampleCreatePatch []
           (lit "/etc/x.py") (lit "set x") None
           (mkError (Some (lit "EACCES")) (lit "permission denied"))).
  - discriminate.
  - discriminate.
  - reflexivity.
  - discriminate.
Defined.

(** ** The response for a new file *)

Section NewFileResponse.

Lemma split_forallb (p : char -> bool) (sep : char) (s : jsstring) :
  forallb p s = true -> Forall (fun seg => forallb p seg = true) (split sep s).
Proof.
  induction s as [|c s IH]; intros H; cbn [split].
  - constructor; [reflexivity|constructor].
  - cbn [forallb] in H. apply andb_true_iff in H as [Hc H]. specialize (IH H).
    destruct (c =? sep).
    + constructor; [reflexivity|exact IH].
    + destruct (split sep s) as [|x ls]; [constructor; [|constructor]|].
      * cbn [forallb]. now rewrite Hc.
      * inversion IH as [|? ? Hx Hls]; subst. constructor; [|exact Hls].
        cbn [forallb]. now rewrite Hc, Hx.
Qed.

Lemma Forall_last {X : Type} (P : X -> Prop) (l : list X) (d : X) :
  P d -> Forall P l -> P (last l d).
Proof.
  intros Hd H. induction H as [|x l Hx Hl IH]; [exact Hd|].
  destruct l; [exact Hx|exact IH].
Qed.

Lemma fileNameOf_plain (filePath : jsstring) :
  noTerminator filePath = true -> noTerminator (fileNameOf filePath) = true.
Proof.
  intros H. unfold fileNameOf.
  apply (Forall_last (fun seg => noTerminator seg = true)); [reflexivity|].
  now apply split_forallb.
Qed.

Lemma digits_plain (s : jsstring) :
  forallb isDigit s = true -> noTerminator s = true.
Proof.
  unfold noTerminator. induction s as [|c s IH]; [reflexivity|].
  cbn [forallb]. intros H. apply andb_true_iff in H as [Hc H].
  rewrite (IH H), andb_true_r.
  unfold isDigit in Hc. apply andb_true_iff in Hc as [Hlo Hhi].
  apply N.leb_le in Hlo, Hhi.
  unfold isLineTerminator.
  assert (E : forall k, k < 48 \/ 57 < k -> (c =? k) = false)
    by (intros k Hk; apply N.eqb_neq; lia).
  rewrite !E by lia. reflexivity.
Qed.

Lemma friendlyLine_added (line : jsstring) :
  friendlyLine (lit "+" ++ line)
  = if startsWith (lit " ") line then CHECK_MARK ++ line else lit "+" ++ line.
Proof.
  destruct line as [|c line]; [reflexivity|].
  assert (H1 : startsWith (lit "@@ ") (lit "+" ++ c :: line) = false) by reflexivity.
  assert (H2 : startsWith (lit "- ") (lit "+" ++ c :: line) = false) by reflexivity.
  assert (H3 : startsWith (lit "  ") (lit "+" ++ c :: line) = false) by reflexivity.
  assert (H4 : startsWith (lit "+ ") (lit "+" ++ c :: line)
               = startsWith (lit " ") (c :: line)) by reflexivity.
  unfold friendlyLine. rewrite H1, H2, H4, H3.
  destruct (startsWith (lit " ") (c :: line)) eqn:E; [|reflexivity].
  cbn [startsWith lit] in E. apply andb_true_iff in E as [E _].
  apply N.eqb_eq in E. subst c. reflexivity.
Qed.

End NewFileResponse.

(** X27: what a call returns for a new file whose text has newlines as
    its only line terminators (and whose path has none): one text, the
    fenced diff whose header lines are those of the new-file diff, whose
    hunk header has the magnifier in place of [@@], and whose body has,
    for every line of the text, the line with the check mark in front
    when it starts with a blank and with a plus sign in front when it
    does not. *)
Theorem new_file_response
        (createPatch : jsstring -> jsstring -> jsstring -> jsstring -> jsstring -> jsstring)
        (content filePath : jsstring) :
  content <> [] ->
  forallb (fun c => negb (isLineTerminator c) || (c =? NL)) content = true ->
  noTerminator filePath = true ->
  let lines := split NL content in
  let fileName := fileNameOf filePath in
  diffContent (generateGitDiff createPatch None (Some content) filePath)
  = [ lit "```diff\n"
      ++ join [NL]
           ([ lit "diff --git a/" ++ fileName ++ lit " b/" ++ fileName;
              lit "new file mode 100644";
              lit "--- /dev/null";
              lit "+++ b/" ++ fileName;
              MAGNIFIER ++ lit " -0,0 +1," ++ toString (N.of_nat (length lines))
                ++ lit " @@" ]
            ++ map (fun line => if startsWith (lit " ") line
                                then CHECK_MARK ++ line
                                else lit "+" ++ line) lines)
      ++ lit "\n```" ].
Proof.
  intros Hne Hcontent Hpath lines fileName.
  destruct content as [|c content]; [contradiction|].
  unfold generateGitDiff. fold lines. fold fileName.
  assert (Hname : noTerminator fileName = true) by now apply fileNameOf_plain.
  assert (Hlines : Forall (fun line => noTerminator line = true) lines)
    by now apply split_plain_lines.
  unfold diffContent.
  change (truthy (Some (join [NL] (newFileDiff fileName lines)))) with true.
  cbv iota. f_equal. f_equal. f_equal.
  rewrite cursorFriendly_lines.
  - unfold newFileDiff. rewrite map_app, map_map.
    apply (f_equal (join [NL])).
    apply (f_equal2 (@app jsstring)); [reflexivity|].
    apply map_ext. intros line. apply friendlyLine_added.
  - discriminate.
  - unfold newFileDiff. apply Forall_app. split.
    + unfold noTerminator in *.
      repeat constructor; rewrite ?forallb_app, ?Hname; try reflexivity.
      cbn [andb]. change (forallb _ (lit " @@")) with true. rewrite andb_true_r.
      apply digits_plain, toString_digits.
    + apply Forall_map. revert Hlines. apply Forall_impl. intros line H.
      unfold noTerminator in *. cbn [lit app forallb]. now rewrite H.
Qed.

Lemma new_file_response_witness :
  diffContent (generateGitDiff exampleCreatePatch None (Some (lit "def f():\n  return 1"))
                 (lit "/tmp/f.py"))
  = [ lit "```diff\n"
      ++ join [NL]
           ([ lit "diff --git a/" ++ fileNameOf (lit "/tmp/f.py") ++ lit " b/"
                ++ fileNameOf (lit "/tmp/f.py");
              lit "new file mode 100644";
              lit "--- /dev/null";
              lit "+++ b/" ++ fileNameOf (lit "/tmp/f.py");
              MAGNIFIER ++ lit " -0,0 +1,"
                ++ toString (N.of_nat (length (split NL (lit "def f():\n  return 1"))))
                ++ lit " @@" ]
            ++ map (fun line => if startsWith (lit " ") line
                                then CHECK_MARK ++ line
                                else lit "+" ++ line)
                   (split NL (lit "def f():\n  return 1")))
      ++ lit "\n```" ].
Proof.
  apply (new_file_response exampleCreatePatch (lit "def f():\n  return 1")
           (lit "/tmp/f.py")); [discriminate|reflexivity|reflexivity].
Defined.
